(** * PathMe: WikiPathways-to-BEL conversion and the universe merger

    A shallow embedding of [pathme/wikipathways/convert_to_bel.py] and of
    [pathme/export_utils.py], with the properties their specification states.

    Python values are modelled as follows.
    - a [dict] used as a map is a [gmap]; a [set] of strings that is only
      tested for membership or iterated once is a [gset string];
    - [None] is [None : PyVal], an entity [e] is [Some e];
    - a [set] of entities is a list without two elements that Python holds
      equal (in order of insertion); pybel compares two entities by their BEL
      strings;
    - an exception is the [Raise] case of [result]. *)

From stdpp Require Import gmap strings list fin_maps sorting.

Open Scope string_scope.
Open Scope list_scope.

(** ** Python: exceptions and a few built-ins *)

Module Python.

Inductive exn : Type :=
| KeyError (key : string)
| IndexError
| ValueError (msg : string)
| AttributeError (attribute : string)
| AssertionError
| UnpicklingError (path : string).

Inductive result (A : Type) : Type :=
| Ok (a : A)
| Raise (e : exn).
Arguments Ok {A} a.
Arguments Raise {A} e.

#[global] Instance result_ret : MRet result := fun _ a => Ok a.
#[global] Instance result_bind : MBind result := fun _ _ f m =>
  match m with
  | Ok a => f a
  | Raise e => Raise e
  end.

(** [d[key]] on a dict. *)
Definition getitem {V : Type} (d : gmap string V) (key : string) : result V :=
  match d !! key with
  | Some v => Ok v
  | None => Raise (KeyError key)
  end.

(** [s.endswith(suffix)]. *)
Definition endswith (s suffix : string) : bool :=
  let n := String.length s in
  let k := String.length suffix in
  (k <=? n)%nat && String.eqb (String.substring (n - k) k s) suffix.

(** A field of a parsed record: a string, or a set of strings where the
    source data bound several values.  The list is the set in its iteration
    order. *)
Inductive Field : Type :=
| Str (s : string)
| StrSet (values : list string).

(** [list(x)[0] if isinstance(x, set) else x]. *)
Definition first_if_set (x : Field) : result string :=
  match x with
  | Str s => Ok s
  | StrSet [] => Raise IndexError
  | StrSet (s :: _) => Ok s
  end.

End Python.
Export Python.

(** ** pybel: entities, edges and the graph interface *)

Module Pybel.

(** [pybel.dsl]: the entities the converter builds.  [ComplexAbundance] and
    [Reaction] are the entities that the calls [complex_abundance(...)] and
    [reaction(...)] return when they return at all; see [complex_abundance]
    and [reaction] below. *)
Inductive BaseEntity : Type :=
| protein (namespace name identifier : string)
| rna (namespace name identifier : string)
| gene (namespace name identifier : string)
| abundance (namespace name identifier : string)
| bioprocess (namespace name identifier : string)
| ComplexAbundance (members : list BaseEntity) (identifier namespace : string)
| Reaction (reactants products : list BaseEntity).

Abbreviation PyVal := (option BaseEntity).

(** Induction on entities that reaches the members of a complex and the
    reactants and products of a reaction. *)
Section nested_induction.
Variable P : BaseEntity -> Prop.

Hypothesis Hprotein : forall a b c, P (protein a b c).
Hypothesis Hrna : forall a b c, P (rna a b c).
Hypothesis Hgene : forall a b c, P (gene a b c).
Hypothesis Habundance : forall a b c, P (abundance a b c).
Hypothesis Hbioprocess : forall a b c, P (bioprocess a b c).
Hypothesis Hcomplex : forall ms i n, Forall P ms -> P (ComplexAbundance ms i n).
Hypothesis Hreaction : forall rs ps, Forall P rs -> Forall P ps -> P (Reaction rs ps).

Fixpoint entity_nested_ind (e : BaseEntity) : P e :=
    let members_ind :=
      fix go (l : list BaseEntity) : Forall P l :=
        match l with
        | [] => @List.Forall_nil _ P
        | e' :: l' => @List.Forall_cons _ P e' l' (entity_nested_ind e') (go l')
        end in
    match e with
    | protein a b c => Hprotein a b c
    | rna a b c => Hrna a b c
    | gene a b c => Hgene a b c
    | abundance a b c => Habundance a b c
    | bioprocess a b c => Hbioprocess a b c
    | ComplexAbundance ms i n => Hcomplex ms i n (members_ind ms)
    | Reaction rs ps => Hreaction rs ps (members_ind rs) (members_ind ps)
    end.
End nested_induction.

Inductive Relation : Type :=
| INCREASES | DECREASES | TRANSLATED_TO | ASSOCIATION
| HAS_COMPONENT | HAS_REACTANT | HAS_PRODUCT.

(** [pybel.dsl.activity()], the only modifier the converter builds. *)
Inductive Modifier : Type := activity.

(** The data of one edge.  A key that the call does not set is absent
    ([None]): an unqualified edge has no citation and no evidence, and an edge
    added without annotations has no annotations entry.  An annotations entry
    maps an annotation key to the set of its asserted values. *)
Record Edge : Type := mkEdge {
  edge_source : PyVal;
  edge_target : PyVal;
  edge_relation : Relation;
  edge_citation : option string;
  edge_evidence : option string;
  edge_object_modifier : option Modifier;
  edge_annotations : option (gmap string (gset string));
}.

(** A [BELGraph]: its metadata, the declared annotation domains
    ([annotation_list]), its nodes and its edges, oldest first. *)
Record BELGraph : Type := mkGraph {
  graph_name : Field;
  graph_version : string;
  graph_description : string;
  graph_pathway_id : Field;
  graph_authors : string;
  graph_contact : string;
  annotation_list : gmap string (gset string);
  graph_nodes : list PyVal;
  graph_edges : list Edge;
}.

Definition with_nodes (g : BELGraph) (ns : list PyVal) : BELGraph :=
  mkGraph (graph_name g) (graph_version g) (graph_description g) (graph_pathway_id g)
          (graph_authors g) (graph_contact g) (annotation_list g) ns (graph_edges g).

Definition with_edges (g : BELGraph) (es : list Edge) : BELGraph :=
  mkGraph (graph_name g) (graph_version g) (graph_description g) (graph_pathway_id g)
          (graph_authors g) (graph_contact g) (annotation_list g) (graph_nodes g) es.

Definition with_annotation_list (g : BELGraph) (al : gmap string (gset string)) : BELGraph :=
  mkGraph (graph_name g) (graph_version g) (graph_description g) (graph_pathway_id g)
          (graph_authors g) (graph_contact g) al (graph_nodes g) (graph_edges g).

Definition with_annotations (e : Edge) (a : option (gmap string (gset string))) : Edge :=
  mkEdge (edge_source e) (edge_target e) (edge_relation e) (edge_citation e)
         (edge_evidence e) (edge_object_modifier e) a.

(** What pybel computes from an entity and from an edge to tell them apart:
    the BEL string of an entity ([BaseEntity.as_bel], by which entities are
    hashed and compared) and the key of an edge (the hash pybel takes of the
    edge's endpoints and data).  Neither is part of the converter; both are
    taken as they are. *)
Class Serialisation : Type := {
  as_bel : BaseEntity -> string;
  hash_edge : Edge -> string;
}.

(** [x == y] on two entities. *)
Definition same_node `{Serialisation} (x y : BaseEntity) : bool :=
  String.eqb (as_bel x) (as_bel y).

(** [x == y] on two values that are an entity or [None]. *)
Definition same_value `{Serialisation} (x y : PyVal) : bool :=
  match x, y with
  | Some a, Some b => same_node a b
  | None, None => true
  | _, _ => false
  end.

(** Python set of values: [x in s], [s.add(x)] and [set(values)]. *)
Definition set_mem `{Serialisation} (x : PyVal) (s : list PyVal) : bool :=
  existsb (same_value x) s.

Definition set_add `{Serialisation} (s : list PyVal) (x : PyVal) : list PyVal :=
  if set_mem x s then s else s ++ [x].

Definition to_set `{Serialisation} (values : list PyVal) : list PyVal :=
  foldl set_add [] values.

(** [sorted(entities, key=as_bel)], as the constructors of pybel store their
    member lists. *)
Definition bel_le `{Serialisation} (x y : BaseEntity) : Prop :=
  Is_true (String.leb (as_bel x) (as_bel y)).

#[global] Instance bel_le_dec `{Serialisation} (x y : BaseEntity) : Decision (bel_le x y).
Proof. unfold bel_le. apply _. Defined.

Definition sort_by_bel `{Serialisation} (l : list BaseEntity) : list BaseEntity :=
  merge_sort bel_le l.

(** Taking the BEL string of every value of a collection: [None] has no
    [as_bel]. *)
Definition entities (values : list PyVal) : result (list BaseEntity) :=
  mapM (fun v => match v with
                 | Some x => Ok x
                 | None => Raise (AttributeError "as_bel")
                 end) values.

(** [complex_abundance(members=..., identifier=..., namespace=...)]: pybel
    refuses an empty member collection. *)
Definition complex_abundance `{Serialisation} (members : list PyVal)
    (identifier namespace : string) : result BaseEntity :=
  match members with
  | [] => Raise (ValueError "empty members")
  | _ => ms ← entities members; Ok (ComplexAbundance (sort_by_bel ms) identifier namespace)
  end.

(** [reaction(reactants=..., products=...)] *)
Definition reaction `{Serialisation} (reactants products : list PyVal) : result BaseEntity :=
  rs ← entities reactants;
  ps ← entities products;
  Ok (Reaction (sort_by_bel rs) (sort_by_bel ps)).

(** [BELGraph(name=..., version=..., description=..., pathway_id=..., authors=..., contact=...)] *)
Definition new_graph (name : Field) (version description : string) (pathway_id : Field)
    (authors contact : string) : BELGraph :=
  mkGraph name version description pathway_id authors contact ∅ [] [].

(** [node in graph] *)
Definition has_node `{Serialisation} (g : BELGraph) (node : BaseEntity) : bool :=
  existsb (same_value (Some node)) (graph_nodes g).

(** Two edges that the graph holds to be one: the same endpoints and the
    same key. *)
Definition same_edge `{Serialisation} (e e' : Edge) : bool :=
  same_value (edge_source e) (edge_source e') &&
  same_value (edge_target e) (edge_target e') &&
  String.eqb (hash_edge e) (hash_edge e').

(** [graph.has_edge(u, v, key)] *)
Definition has_edge `{Serialisation} (g : BELGraph) (e : Edge) : bool :=
  existsb (same_edge e) (graph_edges g).

(** The edge is recorded unless the graph has it. *)
Definition add_edge_once `{Serialisation} (g : BELGraph) (e : Edge) : BELGraph :=
  if has_edge g e then g else with_edges g (graph_edges g ++ [e]).

(** An edge that states the membership of [member] in [node]. *)
Definition membership (relation : Relation) (node member : BaseEntity) : Edge :=
  mkEdge (Some node) (Some member) relation None None None None.

(** What [graph.add_node_from_data(node)] does with an entity.  A node the
    graph has is left alone.  A new node joins the node set; then every
    member of a complex is linked to it by a [hasComponent] edge, and every
    reactant and every product of a reaction by a [hasReactant] or a
    [hasProduct] edge.  Adding such an edge adds its endpoints first: the
    node itself, which the graph has by then, and the member, with its own
    members. *)
Fixpoint register `{Serialisation} (node : BaseEntity) (g : BELGraph) {struct node}
    : BELGraph :=
  if has_node g node then g
  else
    let g := with_nodes g (graph_nodes g ++ [Some node]) in
    match node with
    | ComplexAbundance members _ _ =>
        foldl (fun g member =>
                 add_edge_once (register member g) (membership HAS_COMPONENT node member))
              g members
    | Reaction reactants products =>
        foldl (fun g member =>
                 add_edge_once (register member g) (membership HAS_PRODUCT node member))
              (foldl (fun g member =>
                        add_edge_once (register member g) (membership HAS_REACTANT node member))
                     g reactants)
              products
    | _ => g
    end.

(** [graph.add_node_from_data(node)]: the node has to be an entity. *)
Definition add_node_from_data `{Serialisation} (g : BELGraph) (node : PyVal)
    : result BELGraph :=
  match node with
  | Some x => Ok (register x g)
  | None => Raise AssertionError
  end.

(** Adding an edge adds both endpoints as nodes, the source first, and then
    records the edge unless the graph has it. *)
Definition add_edge `{Serialisation} (g : BELGraph) (e : Edge) : result BELGraph :=
  g ← add_node_from_data g (edge_source e);
  g ← add_node_from_data g (edge_target e);
  Ok (add_edge_once g e).

Definition add_increases `{Serialisation} (g : BELGraph) (u v : PyVal)
    (citation evidence : string) (object_modifier : option Modifier) : result BELGraph :=
  add_edge g (mkEdge u v INCREASES (Some citation) (Some evidence) object_modifier None).

Definition add_decreases `{Serialisation} (g : BELGraph) (u v : PyVal)
    (citation evidence : string) (object_modifier : option Modifier) : result BELGraph :=
  add_edge g (mkEdge u v DECREASES (Some citation) (Some evidence) object_modifier None).

(** [graph.add_translation(u, v)]: an unqualified edge. *)
Definition add_translation `{Serialisation} (g : BELGraph) (u v : PyVal) : result BELGraph :=
  add_edge g (mkEdge u v TRANSLATED_TO None None None None).

Definition add_association `{Serialisation} (g : BELGraph) (u v : PyVal)
    (citation evidence : string) (annotations : gmap string (gset string))
    : result BELGraph :=
  add_edge g (mkEdge u v ASSOCIATION (Some citation) (Some evidence) None (Some annotations)).

(** [pybel.struct.add_annotation_value(graph, annotation, value)], strict by
    default: the annotation must be defined in the graph; then every edge
    that has an annotations entry gets [value] asserted under [annotation],
    and an edge without one is passed over. *)
Definition assert_value (annotation value : string) (e : Edge) : Edge :=
  match edge_annotations e with
  | None => e
  | Some a =>
      with_annotations e (Some (<[annotation := {[value]} ∪ default ∅ (a !! annotation)]> a))
  end.

Definition add_annotation_value (g : BELGraph) (annotation value : string) : result BELGraph :=
  if bool_decide (annotation ∈ dom (annotation_list g)) then
    Ok (with_edges g (assert_value annotation value <$> graph_edges g))
  else Raise (ValueError "annotation not defined").

End Pybel.
Export Pybel.

(** ** pathme/wikipathways/convert_to_bel.py *)

Module ConvertToBel.

(** A parsed node record.  The keys [node_types], [uri_id] and [name] are
    always read; [identifier] and [identifiers] are optional keys. *)
Record RawNode : Type := mkNode {
  node_types : gset string;
  node_uri_id : string;
  node_name : Field;
  node_identifier : option Field;
  node_identifiers : option (gmap string Field);
}.

(** A parsed complex record: [complex['participants']], [complex['uri_id']]. *)
Record RawComplex : Type := mkComplex {
  complex_participants : list string;
  complex_uri_id : string;
}.

(** A parsed interaction record: its participant pairs and the attributes
    left once the pairs are popped off ([uri_id], [interaction_types]). *)
Record RawInteraction : Type := mkInteraction {
  participants : list (string * string);
  interaction_uri_id : string;
  interaction_types : gset string;
}.

(** What [node_to_bel] hands to the identifier resolver: the node's
    [identifiers] dict when it has one, the node record itself otherwise. *)
Inductive IdsDict : Type :=
| Identifiers (d : gmap string Field)
| NodeItself (node : RawNode).

(** What the module imports from the rest of the package and from
    [bio2bel_hgnc]: the manager type, the [HGNC] constant of
    [pathme.constants], [parse_id_uri] of [pathme.utils],
    [evaluate_wikipathways_metadata] and [get_valid_gene_identifier] of
    [pathme.wikipathways.utils].  The resolver returns
    (namespace, name, identifier). *)
Class Collaborators : Type := {
  Manager : Type;
  HGNC : string;
  parse_id_uri : string -> string * string * string * string;
  evaluate_wikipathways_metadata : Field -> string;
  get_valid_gene_identifier : IdsDict -> Manager -> string * string * string;
}.

(** A [for] loop whose body may raise. *)
Fixpoint for_each {A S : Type} (body : S -> A -> result S) (l : list A) (s : S) : result S :=
  match l with
  | [] => Ok s
  | x :: l' => s' ← body s x; for_each body l' s'
  end.

(** [node['identifier'] if 'identifier' in node else uri_id] *)
Definition identifier_of (node : RawNode) : Field :=
  match node_identifier node with
  | Some i => i
  | None => Str (node_uri_id node)
  end.

(** [node['identifiers'] if 'identifiers' in node else node] *)
Definition ids_dict_of (node : RawNode) : IdsDict :=
  match node_identifiers node with
  | Some d => Identifiers d
  | None => NodeItself node
  end.

Definition node_to_bel `{Collaborators} (node : RawNode) (hgnc_manager : Manager)
    : result PyVal :=
  let types := node_types node in
  let uri_id := node_uri_id node in
  identifier ← first_if_set (identifier_of node);
  let node_ids_dict := ids_dict_of node in
  let '(_, _, namespace, _) := parse_id_uri uri_id in
  name ← first_if_set (node_name node);
  if bool_decide ("Protein" ∈ types) then
    let '(namespace, name, identifier) := get_valid_gene_identifier node_ids_dict hgnc_manager in
    Ok (Some (protein namespace name identifier))
  else if bool_decide ("Rna" ∈ types) then
    let '(namespace, name, identifier) := get_valid_gene_identifier node_ids_dict hgnc_manager in
    Ok (Some (rna namespace name identifier))
  else if bool_decide ("GeneProduct" ∈ types) then
    let '(namespace, name, identifier) := get_valid_gene_identifier node_ids_dict hgnc_manager in
    Ok (Some (gene HGNC name identifier))
  else if bool_decide ("Metabolite" ∈ types) then
    Ok (Some (abundance namespace name identifier))
  else if bool_decide ("Pathway" ∈ types) then
    Ok (Some (bioprocess namespace name identifier))
  else if bool_decide ("DataNode" ∈ types) then
    Ok (Some (abundance namespace name identifier))
  else
    Ok None.

Definition nodes_to_bel `{Collaborators} (nodes : gmap string RawNode) (hgnc_manager : Manager)
    : result (gmap string PyVal) :=
  items ← mapM (fun item : string * RawNode =>
                  v ← node_to_bel item.2 hgnc_manager; Ok (item.1, v))
               (map_to_list nodes);
  Ok (list_to_map items).

Definition complex_to_bel `{Collaborators} `{Serialisation} (complex : RawComplex)
    (nodes : gmap string PyVal) (graph : BELGraph) : result (BELGraph * PyVal) :=
  let members :=
    to_set (omap (fun member_id => nodes !! member_id) (complex_participants complex)) in
  let '(_, _, _, identifier) := parse_id_uri (complex_uri_id complex) in
  complex_bel_node ← complex_abundance members identifier "wp_complex";
  graph ← add_node_from_data graph (Some complex_bel_node);
  Ok (graph, Some complex_bel_node).

Definition complexes_to_bel `{Collaborators} `{Serialisation}
    (complexes : gmap string RawComplex) (nodes : gmap string PyVal) (graph : BELGraph)
    : result (BELGraph * gmap string PyVal) :=
  for_each (fun (acc : BELGraph * gmap string PyVal) (item : string * RawComplex) =>
              '(graph', node) ← complex_to_bel item.2 nodes acc.1;
              Ok (graph', <[item.1 := node]> acc.2))
           (map_to_list complexes) (graph, ∅).

Definition add_simple_edge `{Serialisation} (graph : BELGraph) (u v : PyVal)
    (edge_types : gset string) (uri_id : string) : result BELGraph :=
  if bool_decide ("Stimulation" ∈ edge_types) then
    add_increases graph u v uri_id "" (Some activity)
  else if bool_decide ("Inhibition" ∈ edge_types) then
    add_decreases graph u v uri_id "" (Some activity)
  else if bool_decide ("Catalysis" ∈ edge_types) then
    add_increases graph u v uri_id "" (Some activity)
  else if bool_decide ("TranscriptionTranslation" ∈ edge_types) then
    add_translation graph u v
  else if bool_decide ("DirectedInteraction" ∈ edge_types) then
    add_association graph u v uri_id "" {[ "EdgeTypes" := edge_types ]}
  else if bool_decide ("Interaction" ∈ edge_types) then
    Ok graph
  else
    Ok graph.

(** The body of the loop over participant pairs in the branch of
    [add_edges] for interactions that are no conversion. *)
Definition add_pair `{Serialisation} (nodes : gmap string PyVal) (edge_types : gset string)
    (uri_id : string) (graph : BELGraph) (pair : string * string) : result BELGraph :=
  match nodes !! pair.1 with
  | Some u =>
      match nodes !! pair.2 with
      | Some v => add_simple_edge graph u v edge_types uri_id
      | None => Ok graph
      end
  | None => Ok graph
  end.

Definition add_edges `{Collaborators} `{Serialisation} (graph : BELGraph)
    (pairs : list (string * string)) (nodes : gmap string PyVal) (att : RawInteraction)
    : result BELGraph :=
  let uri_id := interaction_uri_id att in
  let edge_types := interaction_types att in
  let '(_, _, namespace, interaction_id) := parse_id_uri uri_id in
  if bool_decide ("Conversion" ∈ edge_types) then
    let reactants : gset string := list_to_set pairs.*1 in
    let products : gset string := list_to_set pairs.*2 in
    reactants ← mapM (getitem nodes) (elements reactants);
    products ← mapM (getitem nodes) (elements products);
    reaction_node ← reaction (to_set reactants) (to_set products);
    add_node_from_data graph (Some reaction_node)
  else
    for_each (add_pair nodes edge_types uri_id) pairs graph.

Definition convert_to_bel `{Collaborators} `{Serialisation} (nodes : gmap string RawNode)
    (complexes : gmap string RawComplex) (interactions : list RawInteraction)
    (pathway_info : gmap string Field) (hgnc_manager : Manager) : result BELGraph :=
  title ← getitem pathway_info "title";
  description ← getitem pathway_info "description";
  pathway_id ← getitem pathway_info "pathway_id";
  let graph :=
    new_graph title "1.0.0" (evaluate_wikipathways_metadata description) pathway_id
              "Sarah Mubeen, Daniel Domingo-Fernández & Josep Marín-Llaó"
              "daniel.domingo.fernandez@scai.fraunhofer.de" in
  nodes ← nodes_to_bel nodes hgnc_manager;
  '(graph, complex_nodes) ← complexes_to_bel complexes nodes graph;
  let nodes := complex_nodes ∪ nodes in
  for_each (fun graph interaction => add_edges graph (participants interaction) nodes interaction)
           interactions graph.

(** *** Vocabulary for the statements about this module *)

(** The entity [complex_to_bel] asks pybel for. *)
Definition composite `{Collaborators} `{Serialisation} (complex : RawComplex)
    (nodes : gmap string PyVal) : result BaseEntity :=
  complex_abundance
    (to_set (omap (fun member_id => nodes !! member_id) (complex_participants complex)))
    (parse_id_uri (complex_uri_id complex)).2 "wp_complex".

(** The type tags [node_to_bel] knows. *)
Definition recognised (types : gset string) : Prop :=
  "Protein" ∈ types \/ "Rna" ∈ types \/ "GeneProduct" ∈ types \/
  "Metabolite" ∈ types \/ "Pathway" ∈ types \/ "DataNode" ∈ types.

(** A node record that [node_to_bel] maps to an entity: it has a type tag
    the function knows, and no empty set where a name or an identifier is
    expected. *)
Definition mappable (node : RawNode) : Prop :=
  recognised (node_types node) /\
  identifier_of node <> StrSet [] /\ node_name node <> StrSet [].

#[global] Instance Field_eq_dec : EqDecision Field.
Proof. solve_decision. Defined.

#[global] Instance recognised_dec (types : gset string) : Decision (recognised types).
Proof. unfold recognised. apply _. Defined.

#[global] Instance mappable_dec (node : RawNode) : Decision (mappable node).
Proof. unfold mappable. apply _. Defined.

End ConvertToBel.

(** ** pathme/export_utils.py *)

Module ExportUtils.

(** What the module imports: the database names of [pathme.constants], the
    directory listing and path functions of [os], [pybel.from_pickle] (which
    may raise), [flatten_complex_nodes] of [pathme.pybel_utils] and
    [normalize_graph_names] of [pathme.normalize_names]. *)
Class Environment : Type := {
  KEGG : string;
  REACTOME : string;
  WIKIPATHWAYS : string;
  os_listdir : string -> list string;
  os_path_isfile : string -> bool;
  os_path_join : string -> string -> string;
  from_pickle : string -> result BELGraph;
  flatten_complex_nodes : BELGraph -> BELGraph;
  normalize_graph_names : BELGraph -> string -> BELGraph;
}.

(** How a generator ends once it is consumed: it runs out, or an exception
    leaves its body. *)
Inductive Outcome : Type :=
| Exhausted
| Raised (e : exn).

(** A generator run to its end: the values it yielded, then how it ended.
    [body file] is one turn of the loop: it raises, goes on to the next
    file without a yield ([Ok None]), or yields a graph. *)
Fixpoint generate {A B : Type} (body : A -> result (option B)) (files : list A)
    : list B * Outcome :=
  match files with
  | [] => ([], Exhausted)
  | file :: rest =>
      match body file with
      | Raise e => ([], Raised e)
      | Ok None => generate body rest
      | Ok (Some g) => let '(gs, o) := generate body rest in (g :: gs, o)
      end
  end.

Definition add_annotation_key (graph : BELGraph) : BELGraph :=
  with_edges graph
    ((fun e => match edge_annotations e with
               | None => with_annotations e (Some ∅)
               | Some _ => e
               end) <$> graph_edges graph).

Definition get_paths_in_folder `{Environment} (directory : string) : list string :=
  List.filter (fun path => os_path_isfile (os_path_join directory path)) (os_listdir directory).

Definition get_all_pickles `{Environment} (kegg_path reactome_path wikipathways_path : string)
    : list string * list string * list string :=
  let kegg_pickles := get_paths_in_folder kegg_path in
  let reactome_pickles := get_paths_in_folder reactome_path in
  let wp_pickles := get_paths_in_folder wikipathways_path in
  (kegg_pickles, reactome_pickles, wp_pickles).

(** One of the three branches of the loop of [_iterate_universe_graphs];
    they differ in the folder and the database name only. *)
Definition load_from `{Environment} (path database : string) (flatten normalize_names : bool)
    (file : string) : result BELGraph :=
  graph ← from_pickle (os_path_join path file);
  let graph := if flatten then flatten_complex_nodes graph else graph in
  let graph := if normalize_names then normalize_graph_names graph database else graph in
  let graph :=
    with_annotation_list graph
      (<["database" := {[KEGG; REACTOME; WIKIPATHWAYS]}]> (annotation_list graph)) in
  let graph := add_annotation_key graph in
  add_annotation_value graph "database" database.

(** The body of the loop of [_iterate_universe_graphs]. *)
Definition loop_body `{Environment} (kegg_path reactome_path wikipathways_path : string)
    (kegg_pickles reactome_pickles wp_pickles : list string) (flatten normalize_names : bool)
    (file : string) : result (option BELGraph) :=
  if negb (endswith file ".pickle") then Ok None
  else if bool_decide (file ∈ kegg_pickles) then
    graph ← load_from kegg_path KEGG flatten normalize_names file; Ok (Some graph)
  else if bool_decide (file ∈ reactome_pickles) then
    graph ← load_from reactome_path REACTOME flatten normalize_names file; Ok (Some graph)
  else if bool_decide (file ∈ wp_pickles) then
    graph ← load_from wikipathways_path WIKIPATHWAYS flatten normalize_names file; Ok (Some graph)
  else Ok None.

Definition _iterate_universe_graphs `{Environment}
    (kegg_path reactome_path wikipathways_path : string) (flatten normalize_names : bool)
    : list BELGraph * Outcome :=
  let '(kegg_pickles, reactome_pickles, wp_pickles) :=
    get_all_pickles kegg_path reactome_path wikipathways_path in
  let all_pickles := kegg_pickles ++ reactome_pickles ++ wp_pickles in
  generate (loop_body kegg_path reactome_path wikipathways_path
                      kegg_pickles reactome_pickles wp_pickles flatten normalize_names)
           all_pickles.

End ExportUtils.

(** ** The dispatch table of the specification

    The table of section 4.3, in the specification's words: the type tags in
    their priority order, and for each the edge it stands for (relation,
    object modifier, whether the raw type-tag set is attached as an
    annotation), or no edge. *)

Module Spec.

Inductive TypeTag : Type :=
| Stimulation | Inhibition | Catalysis | TranscriptionTranslation
| DirectedInteraction | Interaction.

Definition tag_name (t : TypeTag) : string :=
  match t with
  | Stimulation => "Stimulation"
  | Inhibition => "Inhibition"
  | Catalysis => "Catalysis"
  | TranscriptionTranslation => "TranscriptionTranslation"
  | DirectedInteraction => "DirectedInteraction"
  | Interaction => "Interaction"
  end.

Definition priority : list TypeTag :=
  [Stimulation; Inhibition; Catalysis; TranscriptionTranslation; DirectedInteraction;
   Interaction].

Definition first_match (types : gset string) : option TypeTag :=
  List.find (fun t => bool_decide (tag_name t ∈ types)) priority.

Definition table (t : TypeTag) : option (Relation * option Modifier * bool) :=
  match t with
  | Stimulation => Some (INCREASES, Some activity, false)
  | Inhibition => Some (DECREASES, Some activity, false)
  | Catalysis => Some (INCREASES, Some activity, false)
  | TranscriptionTranslation => Some (TRANSLATED_TO, None, false)
  | DirectedInteraction => Some (ASSOCIATION, None, true)
  | Interaction => None
  end.

Definition prescribed (types : gset string) : option (Relation * option Modifier * bool) :=
  first_match types ≫= table.

End Spec.

(** ** Classification of a pickle file

    The folder and database name under which the loop of
    [_iterate_universe_graphs] loads a file, read off its [if]/[elif] chain. *)

Module Classification.
Import ExportUtils.

Definition folder_of `{Environment} (kegg_path reactome_path wikipathways_path : string)
    (kegg_pickles reactome_pickles wp_pickles : list string) (file : string)
    : option (string * string) :=
  if bool_decide (file ∈ kegg_pickles) then Some (kegg_path, KEGG)
  else if bool_decide (file ∈ reactome_pickles) then Some (reactome_path, REACTOME)
  else if bool_decide (file ∈ wp_pickles) then Some (wikipathways_path, WIKIPATHWAYS)
  else None.

(** An edge carries [value] under the annotation key [database]. *)
Definition tagged (value : string) (e : Edge) : Prop :=
  exists a vs, edge_annotations e = Some a /\ a !! "database" = Some vs /\ value ∈ vs.

End Classification.

(** ** Concrete inputs *)

Module Examples.
Import ConvertToBel ExportUtils.

(** Collaborators for the converter: a resolver that answers with an Entrez
    gene, as the resolver does for a node that carries an Entrez identifier
    and no HGNC symbol. *)
Definition collaborators : Collaborators := {|
  Manager := unit;
  HGNC := "HGNC";
  parse_id_uri := fun uri => ("http", "identifiers.org", "wikipathways", uri);
  evaluate_wikipathways_metadata :=
    fun d => match d with Str s => s | StrSet l => String.concat ", " l end;
  get_valid_gene_identifier := fun _ _ => ("ENTREZ", "7157", "7157");
|}.

(** BEL strings in the way pybel writes them, function(namespace:name), and
    an edge key made of what pybel hashes: the endpoints, the relation, the
    citation and the evidence. *)
Fixpoint bel (x : BaseEntity) : string :=
  let simple f namespace name := f +:+ "(" +:+ namespace +:+ ":" +:+ name +:+ ")" in
  match x with
  | protein namespace name _ => simple "p" namespace name
  | rna namespace name _ => simple "r" namespace name
  | gene namespace name _ => simple "g" namespace name
  | abundance namespace name _ => simple "a" namespace name
  | bioprocess namespace name _ => simple "bp" namespace name
  | ComplexAbundance members _ _ => "complex(" +:+ String.concat ", " (map bel members) +:+ ")"
  | Reaction reactants products =>
      "rxn(reactants(" +:+ String.concat ", " (map bel reactants) +:+ "), products(" +:+
      String.concat ", " (map bel products) +:+ "))"
  end.

Definition relation_name (r : Relation) : string :=
  match r with
  | INCREASES => "increases"
  | DECREASES => "decreases"
  | TRANSLATED_TO => "translatedTo"
  | ASSOCIATION => "association"
  | HAS_COMPONENT => "hasComponent"
  | HAS_REACTANT => "hasReactant"
  | HAS_PRODUCT => "hasProduct"
  end.

Definition serialisation : Serialisation := {|
  as_bel := bel;
  hash_edge := fun e =>
    String.concat " "
      [from_option bel "None" (edge_source e); relation_name (edge_relation e);
       from_option bel "None" (edge_target e); default "" (edge_citation e);
       default "" (edge_evidence e)];
|}.

Definition pathway_info : gmap string Field :=
  {[ "title" := Str "Apoptosis"; "description" := Str "Programmed cell death";
     "pathway_id" := Str "WP254" ]}.

Definition tp53 : RawNode :=
  mkNode {[ "Protein"; "DataNode" ]} "http://identifiers.org/ncbigene/7157" (Str "TP53")
         (Some (Str "7157")) None.

Definition mdm2_gene : RawNode :=
  mkNode {[ "GeneProduct"; "DataNode" ]} "http://identifiers.org/ncbigene/4193" (Str "MDM2")
         None None.

Definition water : RawNode :=
  mkNode {[ "Metabolite" ]} "http://identifiers.org/chebi/15377" (Str "water")
         (Some (Str "15377")) None.

Definition label : RawNode :=
  mkNode {[ "Label" ]} "http://rdf.wikipathways.org/WP254/label1" (Str "nucleus") None None.

Definition empty_graph : BELGraph := new_graph (Str "") "" "" (Str "") "" "".

(** A complex none of whose members is a node of the pathway, and one with
    a member that is and a member that is not. *)
Definition a_complex : RawComplex :=
  mkComplex ["ghost1"; "ghost2"] "http://rdf.wikipathways.org/WP254/complex1".

Definition p53_complex : RawComplex :=
  mkComplex ["tp53"; "ghost1"] "http://rdf.wikipathways.org/WP254/complex2".

Definition stimulation (pairs : list (string * string)) : RawInteraction :=
  mkInteraction pairs "http://rdf.wikipathways.org/WP254/i1" {[ "Stimulation" ]}.

Definition conversion (pairs : list (string * string)) : RawInteraction :=
  mkInteraction pairs "http://rdf.wikipathways.org/WP254/i2" {[ "Conversion" ]}.

(** A pickled graph with one qualified edge that has no annotations entry
    and one that has. *)
Definition pickled : BELGraph :=
  mkGraph (Str "p") "1.0.0" "" (Str "p") "" "" ∅
    [Some (protein "HGNC" "TP53" "11998"); Some (protein "HGNC" "MDM2" "6973")]
    [mkEdge (Some (protein "HGNC" "TP53" "11998")) (Some (protein "HGNC" "MDM2" "6973"))
            INCREASES (Some "uri") (Some "") None None;
     mkEdge (Some (protein "HGNC" "MDM2" "6973")) (Some (protein "HGNC" "TP53" "11998"))
            ASSOCIATION (Some "uri") (Some "") None (Some {[ "EdgeTypes" := {[ "Binding" ]} ]})].

(** A file system with three export folders; [shared.pickle] is listed
    under both KEGG and Reactome.  [load] stands for [from_pickle]. *)
Definition environment (load : string -> result BELGraph) : Environment := {|
  KEGG := "kegg";
  REACTOME := "reactome";
  WIKIPATHWAYS := "wikipathways";
  os_listdir := fun directory =>
    if String.eqb directory "/bel/kegg" then ["broken.pickle"; "shared.pickle"; "notes.txt"]
    else if String.eqb directory "/bel/reactome" then ["shared.pickle"]
    else if String.eqb directory "/bel/wikipathways" then ["WP254.pickle"]
    else [];
  os_path_isfile := fun _ => true;
  os_path_join := fun directory file => String.append directory (String.append "/" file);
  from_pickle := load;
  flatten_complex_nodes := fun g => g;
  normalize_graph_names := fun g _ => g;
|}.

Definition load_all (path : string) : result BELGraph := Ok pickled.

Definition load_but_broken (path : string) : result BELGraph :=
  if String.eqb path "/bel/kegg/broken.pickle" then Raise (UnpicklingError path)
  else Ok pickled.

(** A file system whose KEGG and Reactome folders both hold a file
    [hsa04210.bel], a pickle under another name.  Every file can be
    unpickled, to a graph that is named after its path; renaming leaves the
    database name in the description of the graph. *)
Definition renamed_environment : Environment := {|
  KEGG := "kegg";
  REACTOME := "reactome";
  WIKIPATHWAYS := "wikipathways";
  os_listdir := fun directory =>
    if String.eqb directory "/bel/kegg" then ["hsa04210.bel"; "shared.pickle"]
    else if String.eqb directory "/bel/reactome" then ["hsa04210.bel"; "shared.pickle"]
    else if String.eqb directory "/bel/wikipathways" then ["WP254.pickle"]
    else [];
  os_path_isfile := fun _ => true;
  os_path_join := fun directory file => String.append directory (String.append "/" file);
  from_pickle := fun path =>
    Ok (mkGraph (Str path) "1.0.0" "" (Str path) "" "" ∅ (graph_nodes pickled)
                (graph_edges pickled));
  flatten_complex_nodes := fun g => g;
  normalize_graph_names := fun g database =>
    mkGraph (graph_name g) (graph_version g) database (graph_pathway_id g) (graph_authors g)
            (graph_contact g) (annotation_list g) (graph_nodes g) (graph_edges g);
|}.

End Examples.

(** ** Views of a graph and of the converter's loops *)

Module Views.
Import ConvertToBel.

(** Two graphs agree on everything but their nodes and edges. *)
Definition same_metadata (g g' : BELGraph) : Prop :=
  graph_name g' = graph_name g /\ graph_version g' = graph_version g /\
  graph_description g' = graph_description g /\ graph_pathway_id g' = graph_pathway_id g /\
  graph_authors g' = graph_authors g /\ graph_contact g' = graph_contact g /\
  annotation_list g' = annotation_list g.

(** The edge [add_simple_edge] hands to the graph for endpoints [u] and [v],
    if any. *)
Definition emitted (types : gset string) (uri : string) (u v : PyVal) : option Edge :=
  match Spec.first_match types with
  | Some Spec.Stimulation | Some Spec.Catalysis =>
      Some (mkEdge u v INCREASES (Some uri) (Some "") (Some activity) None)
  | Some Spec.Inhibition =>
      Some (mkEdge u v DECREASES (Some uri) (Some "") (Some activity) None)
  | Some Spec.TranscriptionTranslation => Some (mkEdge u v TRANSLATED_TO None None None None)
  | Some Spec.DirectedInteraction =>
      Some (mkEdge u v ASSOCIATION (Some uri) (Some "") None
                   (Some {[ "EdgeTypes" := types ]}))
  | Some Spec.Interaction | None => None
  end.

(** The edge of one participant pair: both IDs have to be keys of the
    mapping. *)
Definition pair_edge (nodes : gmap string PyVal) (types : gset string) (uri : string)
    (pair : string * string) : option Edge :=
  u ← nodes !! pair.1; v ← nodes !! pair.2; emitted types uri u v.

(** The edges of one interaction: none for a conversion. *)
Definition interaction_edges (nodes : gmap string PyVal) (i : RawInteraction) : list Edge :=
  if bool_decide ("Conversion" ∈ interaction_types i) then []
  else omap (pair_edge nodes (interaction_types i) (interaction_uri_id i)) (participants i).

(** The members of a complex, the reactants and products of a reaction. *)
Definition parts (x : BaseEntity) : list BaseEntity :=
  match x with
  | ComplexAbundance members _ _ => members
  | Reaction reactants products => reactants ++ products
  | _ => []
  end.

(** [y] is [x], a part of [x], a part of a part of [x], and so on. *)
Inductive within (x : BaseEntity) : BaseEntity -> Prop :=
| within_itself : within x x
| within_part (y z : BaseEntity) : within x y -> z ∈ parts y -> within x z.

(** The edges that link a complex to its members and a reaction to its
    reactants and products. *)
Definition membership_edges (x : BaseEntity) : list Edge :=
  match x with
  | ComplexAbundance members _ _ => membership HAS_COMPONENT x <$> members
  | Reaction reactants products =>
      (membership HAS_REACTANT x <$> reactants) ++ (membership HAS_PRODUCT x <$> products)
  | _ => []
  end.

Definition membership_edge (e : Edge) : Prop := exists x, e ∈ membership_edges x.

(** [g'] is [g] with the nodes [ns] and the edges [es] added. *)
Definition extends_with (g g' : BELGraph) (ns : list PyVal) (es : list Edge) : Prop :=
  same_metadata g g' /\
  graph_nodes g' = graph_nodes g ++ ns /\
  graph_edges g' = graph_edges g ++ es.

(** Every edge joins two nodes of the graph. *)
Definition closed `{Serialisation} (g : BELGraph) : Prop :=
  forall e, e ∈ graph_edges g ->
    exists a b, edge_source e = Some a /\ edge_target e = Some b /\
                has_node g a = true /\ has_node g b = true.

Definition node_within (x : BaseEntity) (n : PyVal) : Prop :=
  exists y, n = Some y /\ within x y.

Definition edge_within (x : BaseEntity) (e : Edge) : Prop :=
  exists y, within x y /\ e ∈ membership_edges y.

(** What registering [x] makes of a graph: the graph grows by entities
    within [x] and by membership edges between them, [x] is a node
    afterwards, and the edges still join nodes of the graph. *)
Definition registered `{Serialisation} (x : BaseEntity) (g g' : BELGraph) : Prop :=
  (exists ns es, extends_with g g' ns es /\ Forall (node_within x) ns /\
                 Forall (edge_within x) es) /\
  has_node g' x = true /\
  (closed g -> closed g').

(** No two elements of a set of values are equal for Python. *)
Definition distinct `{Serialisation} (s : list PyVal) : Prop :=
  forall i j x y, s !! i = Some x -> s !! j = Some y -> same_value x y = true -> i = j.

(** What the loop of [complexes_to_bel] has done to the graph and to the
    mapping when it has run over [items]. *)
Definition complexes_done `{Collaborators} `{Serialisation} (nodes : gmap string PyVal)
    (items : list (string * RawComplex)) (start stop : BELGraph * gmap string PyVal) : Prop :=
  (exists ns es,
     extends_with start.1 stop.1 ns es /\
     Forall (fun n => exists item x, item ∈ items /\ composite item.2 nodes = Ok x /\
                                     node_within x n) ns /\
     Forall (fun e => exists item x, item ∈ items /\ composite item.2 nodes = Ok x /\
                                     edge_within x e) es) /\
  (closed start.1 -> closed stop.1) /\
  (forall cid, cid ∉ items.*1 -> stop.2 !! cid = start.2 !! cid).

(** Where the nodes of a converted pathway come from: the entities of the
    node records ([plain]), the entities of the complex records
    ([composed]), and the reactions over such entities. *)
Definition plain (resolved : gmap string PyVal) (x : BaseEntity) : Prop :=
  exists id, resolved !! id = Some (Some x).

Definition composed `{Collaborators} `{Serialisation} (complexes : gmap string RawComplex)
    (resolved : gmap string PyVal) (x : BaseEntity) : Prop :=
  exists cid c, complexes !! cid = Some c /\ composite c resolved = Ok x.

Definition mapped `{Collaborators} `{Serialisation} (complexes : gmap string RawComplex)
    (resolved : gmap string PyVal) (x : BaseEntity) : Prop :=
  plain resolved x \/ composed complexes resolved x.

Definition produced `{Collaborators} `{Serialisation} (complexes : gmap string RawComplex)
    (resolved : gmap string PyVal) (x : BaseEntity) : Prop :=
  mapped complexes resolved x \/
  exists reactants products,
    x = Reaction reactants products /\
    Forall (mapped complexes resolved) (reactants ++ products).

(** The mapping of the complex IDs to the entities of their records. *)
Definition composites `{Collaborators} `{Serialisation} (complexes : gmap string RawComplex)
    (resolved : gmap string PyVal) : gmap string PyVal :=
  omap (fun c => match composite c resolved with
                 | Ok x => Some (Some x)
                 | Raise _ => None
                 end) complexes.

(** The mapping the interactions are resolved in: the entities of the
    nodes, overridden by the entities of the complexes. *)
Definition resolution `{Collaborators} `{Serialisation} (complexes : gmap string RawComplex)
    (resolved : gmap string PyVal) : gmap string PyVal :=
  composites complexes resolved ∪ resolved.

(** An entity without parts. *)
Definition simple (v : PyVal) : Prop :=
  match v with
  | Some x => parts x = []
  | None => True
  end.

#[global] Instance simple_dec (v : PyVal) : Decision (simple v).
Proof.
  destruct v as [x|]; simpl; [|apply _].
  destruct (parts x); [by left | by right].
Defined.

(** The nodes of the graph are entities produced for the pathway, and every
    edge joins two of them that are nodes of the graph. *)
Definition well_formed `{Collaborators} `{Serialisation} (complexes : gmap string RawComplex)
    (resolved : gmap string PyVal) (g : BELGraph) : Prop :=
  closed g /\
  (forall n, n ∈ graph_nodes g -> exists x, n = Some x /\ produced complexes resolved x) /\
  (forall e, e ∈ graph_edges g ->
     exists a b, edge_source e = Some a /\ edge_target e = Some b /\
                 produced complexes resolved a /\ produced complexes resolved b).

(** [g'] is [g] with nodes added, and with edges added that are membership
    edges or among [allowed]. *)
Definition grown_by (allowed : list Edge) (g g' : BELGraph) : Prop :=
  exists ns es,
    extends_with g g' ns es /\ Forall (fun e => membership_edge e \/ e ∈ allowed) es.

End Views.

(** ** The entry point of the universe merger

    [get_universe_graph] hands the generator to [pybel.union], which is taken
    as a parameter; it consumes the whole generator, so an exception that
    leaves the generator leaves [get_universe_graph]. *)

Module Universe.
Import ExportUtils.

Definition get_universe_graph `{Environment} (union : list BELGraph -> result BELGraph)
    (kegg_path reactome_path wikipathways_path : string) (flatten normalize_names : bool)
    : result BELGraph :=
  match _iterate_universe_graphs kegg_path reactome_path wikipathways_path
                                 flatten normalize_names with
  | (universe_graphs, Exhausted) => union universe_graphs
  | (_, Raised e) => Raise e
  end.

End Universe.

(** * Properties *)

Ltac decide_by_vm :=
  match goal with
  | |- ?P => apply (@bool_decide_unpack P _); vm_compute; exact I
  end.

(** ** Python built-ins *)

Module PythonFacts.

Lemma getitem_Some {V : Type} (d : gmap string V) (k : string) (v : V) :
  d !! k = Some v -> getitem d k = Ok v.
Proof. intros Hk. unfold getitem. by rewrite Hk. Qed.

Lemma getitem_None {V : Type} (d : gmap string V) (k : string) :
  d !! k = None -> getitem d k = Raise (KeyError k).
Proof. intros Hk. unfold getitem. by rewrite Hk. Qed.

Lemma mapM_result_cons {A B : Type} (f : A -> result B) (x : A) (l : list A) :
  mapM f (x :: l) =
  match f x with
  | Ok y => match mapM f l with Ok k => Ok (y :: k) | Raise e => Raise e end
  | Raise e => Raise e
  end.
Proof. reflexivity. Qed.

(** A list of subscriptions [d[k]], one per key: either every key is there,
    or the first key that is missing raises. *)
Lemma mapM_getitem {V : Type} (d : gmap string V) (keys : list string) :
  (exists vs, mapM (getitem d) keys = Ok vs /\ Forall2 (fun k v => d !! k = Some v) keys vs) \/
  (exists k, mapM (getitem d) keys = Raise (KeyError k) /\ k ∈ keys /\ d !! k = None).
Proof.
  induction keys as [|k keys IH].
  - left. exists []. split; [reflexivity | constructor].
  - rewrite mapM_result_cons. destruct (d !! k) as [v|] eqn:Hk.
    + rewrite (getitem_Some _ _ _ Hk).
      destruct IH as [(vs & -> & Hall) | (k' & -> & Hin & Hnone)].
      * left. eexists. split; [reflexivity | by constructor].
      * right. exists k'. split; [reflexivity|]. split; [by right | done].
    + rewrite (getitem_None _ _ Hk).
      right. exists k. split; [reflexivity|]. split; [by left | done].
Qed.

Lemma mapM_getitem_Ok {V : Type} (d : gmap string V) (keys : list string) :
  (forall k, k ∈ keys -> is_Some (d !! k)) ->
  exists vs, mapM (getitem d) keys = Ok vs /\ Forall2 (fun k v => d !! k = Some v) keys vs.
Proof.
  intros Hall. destruct (mapM_getitem d keys) as [?|(k & _ & Hin & Hnone)]; [done|].
  destruct (Hall k Hin) as [v Hv]. congruence.
Qed.

Lemma mapM_getitem_Raise {V : Type} (d : gmap string V) (keys : list string) (k : string) :
  k ∈ keys -> d !! k = None ->
  exists k', mapM (getitem d) keys = Raise (KeyError k') /\ k' ∈ keys /\ d !! k' = None.
Proof.
  intros Hin Hnone. destruct (mapM_getitem d keys) as [(vs & _ & Hall)|?]; [|done].
  apply list_elem_of_lookup in Hin as [i Hi].
  destruct (Forall2_lookup_l _ _ _ _ _ Hall Hi) as (v & _ & Hv). congruence.
Qed.


Lemma is_Some_list_to_map {V : Type} (l : list (string * V)) (id : string) :
  is_Some ((list_to_map l : gmap string V) !! id) <-> id ∈ l.*1.
Proof.
  rewrite <- not_eq_None_Some. split.
  - intros Hsome. destruct (decide (id ∈ l.*1)) as [|Hnot]; [done|].
    by apply not_elem_of_list_to_map in Hnot.
  - intros Hin Hnone. by apply not_elem_of_list_to_map in Hnone.
Qed.

End PythonFacts.

(** ** Entities, sets of entities, the graph interface *)

Module PybelFacts.
Import Views PythonFacts.

Lemma same_metadata_refl (g : BELGraph) : same_metadata g g.
Proof. by repeat split. Qed.

Lemma same_metadata_trans (g1 g2 g3 : BELGraph) :
  same_metadata g1 g2 -> same_metadata g2 g3 -> same_metadata g1 g3.
Proof.
  unfold same_metadata. intros (?&?&?&?&?&?&?) (?&?&?&?&?&?&?).
  repeat split; congruence.
Qed.

(** A loop that keeps [I], establishes [P b] at the turn of [b] and keeps
    what it established. *)
Lemma foldl_establish {A B : Type} (f : A -> B -> A) (I : A -> Prop) (P : B -> A -> Prop)
    (l0 : list B) :
  (forall a b, b ∈ l0 -> I a -> I (f a b) /\ P b (f a b)) ->
  (forall a b b', b ∈ l0 -> I a -> P b' a -> P b' (f a b)) ->
  forall l, l ⊆ l0 ->
  forall a, I a ->
    I (foldl f a l) /\ (forall b, b ∈ l -> P b (foldl f a l)) /\
    (forall b', P b' a -> P b' (foldl f a l)).
Proof.
  intros Hstep Hkeep. induction l as [|b l IH]; intros Hsub a Ha.
  - split; [done|]. split; [|done]. intros b []%elem_of_nil.
  - simpl. assert (b ∈ l0) as Hb by (apply Hsub; by left).
    destruct (Hstep a b Hb Ha) as [Ha' Hpb].
    destruct (IH (fun x Hx => Hsub x (list_elem_of_further _ _ _ Hx)) (f a b) Ha')
      as (Hend & Hall & Hkept).
    split; [done|]. split.
    + intros b' [->|Hb']%elem_of_cons; [by apply Hkept | by apply Hall].
    + intros b' Hb'. apply Hkept. by apply Hkeep.
Qed.

Section graph.
Context `{Serialisation}.

Lemma same_node_eq (x y : BaseEntity) : same_node x y = true <-> as_bel x = as_bel y.
Proof. apply String.eqb_eq. Qed.

Lemma same_node_refl (x : BaseEntity) : same_node x x = true.
Proof. by apply same_node_eq. Qed.

Lemma same_value_Some (x : BaseEntity) (v : PyVal) :
  same_value (Some x) v = true <-> exists y, v = Some y /\ as_bel x = as_bel y.
Proof.
  destruct v as [y|]; simpl.
  - rewrite same_node_eq. split; [intros Hxy; by exists y | by intros (? & [= <-] & ?)].
  - split; [done | by intros (? & [=] & _)].
Qed.

Lemma same_value_None (v : PyVal) : same_value None v = true <-> v = None.
Proof. by destruct v. Qed.

Lemma same_value_refl (v : PyVal) : same_value v v = true.
Proof. destruct v; [apply same_node_refl | done]. Qed.

Lemma same_value_sym (v w : PyVal) : same_value v w = true -> same_value w v = true.
Proof.
  destruct v, w; simpl; try done. rewrite !same_node_eq. done.
Qed.

Lemma same_value_trans (u v w : PyVal) :
  same_value u v = true -> same_value v w = true -> same_value u w = true.
Proof.
  destruct u, v, w; simpl; try done. rewrite !same_node_eq. congruence.
Qed.

Lemma same_edge_refl (e : Edge) : same_edge e e = true.
Proof.
  unfold same_edge. rewrite !same_value_refl. simpl. by apply String.eqb_eq.
Qed.

Lemma has_node_true (g : BELGraph) (x : BaseEntity) :
  has_node g x = true <-> exists y, Some y ∈ graph_nodes g /\ as_bel x = as_bel y.
Proof.
  unfold has_node. rewrite existsb_exists. split.
  - intros (v & Hv%list_elem_of_In & (y & -> & Hxy)%same_value_Some). by exists y.
  - intros (y & Hy & Hxy). exists (Some y). split; [by apply list_elem_of_In|].
    apply same_value_Some. by exists y.
Qed.

Lemma has_edge_true (g : BELGraph) (e : Edge) :
  has_edge g e = true <-> exists e', e' ∈ graph_edges g /\ same_edge e e' = true.
Proof.
  unfold has_edge. rewrite existsb_exists. split.
  - intros (e' & He'%list_elem_of_In & Hs). by exists e'.
  - intros (e' & He' & Hs). exists e'. split; [by apply list_elem_of_In | done].
Qed.

Lemma has_edge_elem (g : BELGraph) (e : Edge) : e ∈ graph_edges g -> has_edge g e = true.
Proof. intros He. apply has_edge_true. exists e. split; [done | apply same_edge_refl]. Qed.

Lemma has_node_elem (g : BELGraph) (x : BaseEntity) :
  Some x ∈ graph_nodes g -> has_node g x = true.
Proof. intros Hx. apply has_node_true. by exists x. Qed.

Lemma extends_with_refl (g : BELGraph) : extends_with g g [] [].
Proof. split; [apply same_metadata_refl|]. by rewrite !app_nil_r. Qed.

Lemma extends_with_trans (g1 g2 g3 : BELGraph) ns es ns' es' :
  extends_with g1 g2 ns es -> extends_with g2 g3 ns' es' ->
  extends_with g1 g3 (ns ++ ns') (es ++ es').
Proof.
  intros (Hm & Hn & He) (Hm' & Hn' & He').
  split; [by eapply same_metadata_trans|].
  rewrite Hn', Hn, He', He, <- !app_assoc. done.
Qed.

Lemma extends_has_node (g g' : BELGraph) ns es (x : BaseEntity) :
  extends_with g g' ns es -> has_node g x = true -> has_node g' x = true.
Proof.
  intros (_ & Hn & _). rewrite !has_node_true. intros (y & Hy & Hxy).
  exists y. split; [|done]. rewrite Hn. apply elem_of_app. by left.
Qed.

Lemma extends_has_edge (g g' : BELGraph) ns es (e : Edge) :
  extends_with g g' ns es -> has_edge g e = true -> has_edge g' e = true.
Proof.
  intros (_ & _ & He). rewrite !has_edge_true. intros (e' & He' & Hs).
  exists e'. split; [|done]. rewrite He. apply elem_of_app. by left.
Qed.

Lemma add_edge_once_extends (g : BELGraph) (e : Edge) :
  extends_with g (add_edge_once g e) [] (if has_edge g e then [] else [e]).
Proof.
  unfold add_edge_once. destruct (has_edge g e); [apply extends_with_refl|].
  split; [by repeat split|]. simpl. by rewrite app_nil_r.
Qed.

Lemma add_edge_once_has_edge (g : BELGraph) (e : Edge) :
  has_edge (add_edge_once g e) e = true.
Proof.
  unfold add_edge_once. destruct (has_edge g e) eqn:E; [done|].
  apply has_edge_elem. simpl. apply elem_of_app. right. by left.
Qed.

Lemma add_edge_once_closed (g : BELGraph) (e : Edge) (a b : BaseEntity) :
  edge_source e = Some a -> edge_target e = Some b ->
  has_node g a = true -> has_node g b = true ->
  closed g -> closed (add_edge_once g e).
Proof.
  intros Hs Ht Ha Hb Hg. unfold add_edge_once. destruct (has_edge g e); [done|].
  intros e' [He' | ->%list_elem_of_singleton]%elem_of_app.
  - destruct (Hg e' He') as (a' & b' & ? & ? & ? & ?). by exists a', b'.
  - by exists a, b.
Qed.

Lemma within_trans (x y z : BaseEntity) : within x y -> within y z -> within x z.
Proof.
  intros Hxy. induction 1 as [|y' z' _ IH Hz']; [done|]. by eapply within_part.
Qed.

Lemma within_parts (x m y : BaseEntity) : m ∈ parts x -> within m y -> within x y.
Proof.
  intros Hm. apply within_trans. eapply within_part; [apply within_itself | done].
Qed.

Lemma register_present (x : BaseEntity) (g : BELGraph) :
  has_node g x = true -> register x g = g.
Proof. intros Hx. destruct x; simpl; by rewrite Hx. Qed.

Lemma register_new (x : BaseEntity) (g : BELGraph) :
  has_node g x = false ->
  let g1 := with_nodes g (graph_nodes g ++ [Some x]) in
  let link relation g member :=
    add_edge_once (register member g) (membership relation x member) in
  register x g =
  match x with
  | ComplexAbundance members _ _ => foldl (link HAS_COMPONENT) g1 members
  | Reaction reactants products =>
      foldl (link HAS_PRODUCT) (foldl (link HAS_REACTANT) g1 reactants) products
  | _ => g1
  end.
Proof. intros Hx. destruct x; simpl; by rewrite Hx. Qed.

(** The loop that links the members [ms] of [x] to [x], once [x] is in the
    graph. *)
Lemma link_members (x : BaseEntity) (relation : Relation) (ms : list BaseEntity) :
  Forall (fun m => forall g, registered m g (register m g)) ms ->
  (forall m, m ∈ ms -> m ∈ parts x /\ membership relation x m ∈ membership_edges x) ->
  forall g, has_node g x = true ->
  let g' := foldl (fun g member =>
                     add_edge_once (register member g) (membership relation x member)) g ms in
  registered x g g' /\
  forall m, m ∈ ms ->
    has_node g' m = true /\ has_edge g' (membership relation x m) = true.
Proof.
  intros Hms Hparts g Hx g'.
  pose (I := fun g1 : BELGraph => registered x g g1).
  pose (P := fun (m : BaseEntity) (g1 : BELGraph) =>
               has_node g1 m = true /\ has_edge g1 (membership relation x m) = true).
  assert (forall g1 m, m ∈ ms -> I g1 ->
            exists ns es,
              extends_with g1 (add_edge_once (register m g1) (membership relation x m)) ns es /\
              Forall (node_within x) ns /\ Forall (edge_within x) es /\
              has_node (register m g1) m = true /\
              (closed g1 -> closed (register m g1))) as Hone.
  { intros g1 m Hm _. rewrite Forall_forall in Hms.
    destruct (Hms m Hm g1) as ((ns & es & Hext & Hns & Hes) & Hhas & Hcl).
    pose proof (add_edge_once_extends (register m g1) (membership relation x m)) as Hext'.
    pose proof (extends_with_trans _ _ _ _ _ _ _ Hext Hext') as Hext''.
    eexists _, _. split; [exact Hext''|].
    destruct (Hparts m Hm) as [Hpart Hedge].
    split; [|split; [|split; [done | done]]].
    - rewrite app_nil_r. eapply Forall_impl; [exact Hns|].
      intros n (y & -> & Hy). exists y. split; [done | by eapply within_parts].
    - apply Forall_app. split.
      + eapply Forall_impl; [exact Hes|].
        intros e (y & Hy & He). exists y. split; [by eapply within_parts | done].
      + destruct (has_edge _ _); [constructor|]. constructor; [|constructor].
        exists x. split; [apply within_itself | done]. }
  destruct (foldl_establish
              (fun g member =>
                 add_edge_once (register member g) (membership relation x member))
              I P ms) with (l := ms) (a := g) as (Hend & Hall & _).
  - intros g1 m Hm Hg1.
    destruct (Hone g1 m Hm Hg1) as (ns & es & Hext & Hns & Hes & Hhas & Hcl).
    destruct Hg1 as ((ns0 & es0 & Hext0 & Hns0 & Hes0) & Hx1 & Hcl1).
    pose proof (add_edge_once_extends (register m g1) (membership relation x m)) as Hext'.
    split; [split; [|split]|split].
    + eexists _, _. split; [by eapply extends_with_trans|].
      split; apply Forall_app; done.
    + exact (extends_has_node _ _ _ _ _ Hext Hx1).
    + intros Hg. rewrite Forall_forall in Hms.
      destruct (Hms m Hm g1) as ((ns1 & es1 & Hext1 & _) & _ & _).
      apply (add_edge_once_closed _ _ x m); try done.
      * exact (extends_has_node _ _ _ _ _ Hext1 Hx1).
      * by apply Hcl, Hcl1.
    + exact (extends_has_node _ _ _ _ _ Hext' Hhas).
    + apply add_edge_once_has_edge.
  - intros g1 m m' Hm Hg1 [Hn He].
    destruct (Hone g1 m Hm Hg1) as (ns & es & Hext & _).
    split; [exact (extends_has_node _ _ _ _ _ Hext Hn)
           | exact (extends_has_edge _ _ _ _ _ Hext He)].
  - done.
  - split; [|split; [done|done]].
    exists [], []. split; [apply extends_with_refl|]. split; constructor.
  - split; [exact Hend | exact Hall].
Qed.


Lemma registered_trans (x : BaseEntity) (g1 g2 g3 : BELGraph) :
  registered x g1 g2 -> registered x g2 g3 -> registered x g1 g3.
Proof.
  intros ((ns & es & Hext & Hns & Hes) & _ & Hcl) ((ns' & es' & Hext' & Hns' & Hes') & Hx & Hcl').
  split; [|split; [done | auto]].
  eexists _, _. split; [by eapply extends_with_trans|]. split; by apply Forall_app.
Qed.

Lemma registered_first (x : BaseEntity) (g : BELGraph) :
  registered x g (with_nodes g (graph_nodes g ++ [Some x])).
Proof.
  assert (extends_with g (with_nodes g (graph_nodes g ++ [Some x])) [Some x] []) as Hext.
  { split; [by repeat split|]. simpl. by rewrite app_nil_r. }
  split; [|split].
  - exists [Some x], []. split; [done|]. split; [|constructor].
    constructor; [|constructor]. exists x. split; [done | apply within_itself].
  - apply has_node_elem. simpl. apply elem_of_app. right. by left.
  - intros Hg e He. destruct (Hg e He) as (a & b & Hs & Ht & Ha & Hb).
    exists a, b. split; [done|]. split; [done|].
    split; [exact (extends_has_node _ _ _ _ _ Hext Ha)
           | exact (extends_has_node _ _ _ _ _ Hext Hb)].
Qed.

Lemma registered_refl (x : BaseEntity) (g : BELGraph) :
  has_node g x = true -> registered x g g.
Proof.
  intros Hx. split; [|split; [done | done]].
  exists [], []. split; [apply extends_with_refl|]. split; constructor.
Qed.

(** [register]: the graph grows by [x] and by what is within [x], and by
    edges between those; [x] is a node afterwards; the edges still join
    nodes of the graph. *)
Lemma register_registered (x : BaseEntity) : forall g, registered x g (register x g).
Proof.
  induction x as [a b c|a b c|a b c|a b c|a b c|ms i n IH|rs ps IHr IHp]
    using entity_nested_ind; intros g;
    (match goal with
     | |- registered ?x _ _ =>
         destruct (has_node g x) eqn:Hx;
         [rewrite register_present by done; by apply registered_refl
         |rewrite register_new by done; simpl]
     end);
    try apply registered_first.
  - set (g1 := with_nodes g (graph_nodes g ++ [Some (ComplexAbundance ms i n)])).
    pose proof (registered_first (ComplexAbundance ms i n) g) as Hfirst. fold g1 in Hfirst.
    destruct (link_members (ComplexAbundance ms i n) HAS_COMPONENT ms IH) with (g := g1)
      as [Hreg _].
    + intros m Hm. split; [done|]. simpl. apply list_elem_of_fmap. by exists m.
    + apply Hfirst.
    + exact (registered_trans _ _ _ _ Hfirst Hreg).
  - set (g1 := with_nodes g (graph_nodes g ++ [Some (Reaction rs ps)])).
    pose proof (registered_first (Reaction rs ps) g) as Hfirst. fold g1 in Hfirst.
    destruct (link_members (Reaction rs ps) HAS_REACTANT rs IHr) with (g := g1)
      as [Hreg1 _].
    + intros m Hm. split; [simpl; apply elem_of_app; by left|].
      simpl. apply elem_of_app. left. apply list_elem_of_fmap. by exists m.
    + apply Hfirst.
    + match type of Hreg1 with registered _ _ ?g' => set (g2 := g') in * end.
      destruct (link_members (Reaction rs ps) HAS_PRODUCT ps IHp) with (g := g2)
        as [Hreg2 _].
      * intros m Hm. split; [simpl; apply elem_of_app; by right|].
        simpl. apply elem_of_app. right. apply list_elem_of_fmap. by exists m.
      * apply Hreg1.
      * exact (registered_trans _ _ _ _ Hfirst (registered_trans _ _ _ _ Hreg1 Hreg2)).
Qed.

(** A node that is new to the graph is linked to each of its parts. *)
Lemma register_links (x : BaseEntity) (g : BELGraph) :
  has_node g x = false ->
  (forall m, m ∈ parts x -> has_node (register x g) m = true) /\
  (forall e, e ∈ membership_edges x -> has_edge (register x g) e = true).
Proof.
  intros Hx. rewrite register_new by done.
  pose proof (fun m (_ : m ∈ parts x) => register_registered m) as Hall.
  destruct x as [a b c|a b c|a b c|a b c|a b c|ms i n|rs ps]; simpl;
    try (split; [intros m []%elem_of_nil | intros e []%elem_of_nil]).
  - destruct (link_members (ComplexAbundance ms i n) HAS_COMPONENT ms) with
      (g := with_nodes g (graph_nodes g ++ [Some (ComplexAbundance ms i n)]))
      as [_ Hlinks].
    + apply Forall_forall. intros m Hm. by apply Hall.
    + intros m Hm. split; [done|]. simpl. apply list_elem_of_fmap. by exists m.
    + apply (registered_first (ComplexAbundance ms i n) g).
    + split.
      * intros m Hm. by apply Hlinks.
      * intros e (m & -> & Hm)%list_elem_of_fmap. by apply Hlinks.
  - set (g1 := with_nodes g (graph_nodes g ++ [Some (Reaction rs ps)])).
    destruct (link_members (Reaction rs ps) HAS_REACTANT rs) with (g := g1)
      as [Hreg1 Hlinks1].
    + apply Forall_forall. intros m Hm. apply Hall. simpl. apply elem_of_app. by left.
    + intros m Hm. split; [simpl; apply elem_of_app; by left|].
      simpl. apply elem_of_app. left. apply list_elem_of_fmap. by exists m.
    + apply (registered_first (Reaction rs ps) g).
    + match type of Hreg1 with registered _ _ ?g' => set (g2 := g') in * end.
      destruct (link_members (Reaction rs ps) HAS_PRODUCT ps) with (g := g2)
        as [Hreg2 Hlinks2].
      * apply Forall_forall. intros m Hm. apply Hall. simpl. apply elem_of_app. by right.
      * intros m Hm. split; [simpl; apply elem_of_app; by right|].
        simpl. apply elem_of_app. right. apply list_elem_of_fmap. by exists m.
      * apply Hreg1.
      * destruct Hreg2 as ((ns & es & Hext & _) & _ & _).
        split.
        -- intros m [Hm|Hm]%elem_of_app; [|by apply Hlinks2].
           exact (extends_has_node _ _ _ _ _ Hext (proj1 (Hlinks1 m Hm))).
        -- intros e [(m & -> & Hm)%list_elem_of_fmap|(m & -> & Hm)%list_elem_of_fmap]%elem_of_app;
             [|by apply Hlinks2].
           exact (extends_has_edge _ _ _ _ _ Hext (proj2 (Hlinks1 m Hm))).
Qed.

(** An entity without parts is added as one node and no edge. *)
Lemma register_simple (x : BaseEntity) (g : BELGraph) :
  parts x = [] ->
  register x g = if has_node g x then g else with_nodes g (graph_nodes g ++ [Some x]).
Proof.
  intros Hparts. destruct (has_node g x) eqn:Hx; [by apply register_present|].
  rewrite register_new by done.
  destruct x as [a b c|a b c|a b c|a b c|a b c|ms i n|rs ps]; try done.
  - simpl in Hparts. by subst ms.
  - simpl in Hparts. apply app_eq_nil in Hparts as [-> ->]. done.
Qed.

(** *** [add_node_from_data] and [add_edge] *)

Lemma add_node_from_data_Some (g : BELGraph) (x : BaseEntity) :
  add_node_from_data g (Some x) = Ok (register x g).
Proof. reflexivity. Qed.

Lemma add_edge_entities (g : BELGraph) (e : Edge) (a b : BaseEntity) :
  edge_source e = Some a -> edge_target e = Some b ->
  add_edge g e = Ok (add_edge_once (register b (register a g)) e).
Proof. intros Hs Ht. unfold add_edge. by rewrite Hs, Ht. Qed.

Lemma add_edge_None (g : BELGraph) (e : Edge) :
  edge_source e = None \/ edge_target e = None ->
  add_edge g e = Raise AssertionError.
Proof.
  intros Hnone. unfold add_edge.
  destruct (edge_source e) as [a|]; [|done]. simpl.
  destruct Hnone as [[=] | ->]. done.
Qed.

Lemma add_edge_Ok (g g' : BELGraph) (e : Edge) :
  add_edge g e = Ok g' ->
  exists a b, edge_source e = Some a /\ edge_target e = Some b /\
              g' = add_edge_once (register b (register a g)) e.
Proof.
  unfold add_edge. destruct (edge_source e) as [a|]; [|done].
  destruct (edge_target e) as [b|]; [|done]. simpl. intros [= <-]. by exists a, b.
Qed.

(** *** Sets of values *)

Lemma set_mem_true (x : PyVal) (s : list PyVal) :
  set_mem x s = true <-> exists y, y ∈ s /\ same_value x y = true.
Proof.
  unfold set_mem. rewrite existsb_exists. split.
  - intros (y & Hy%list_elem_of_In & Hs). by exists y.
  - intros (y & Hy & Hs). exists y. split; [by apply list_elem_of_In | done].
Qed.

Lemma distinct_nil : distinct [].
Proof. intros i j x y Hi. by rewrite lookup_nil in Hi. Qed.

Lemma set_add_spec (s : list PyVal) (x : PyVal) :
  distinct s ->
  distinct (set_add s x) /\
  (forall y, y ∈ set_add s x -> y ∈ s \/ y = x) /\
  (forall y, y ∈ s -> y ∈ set_add s x) /\
  (exists y, y ∈ set_add s x /\ same_value x y = true).
Proof.
  intros Hs. unfold set_add. destruct (set_mem x s) eqn:E.
  - apply set_mem_true in E. split; [done|]. split; [by left|]. split; done.
  - split; [|split; [|split]].
    + intros i j y z Hi Hj Hyz.
      apply lookup_app_Some in Hi as [Hi|[Hi1 Hi2]];
        apply lookup_app_Some in Hj as [Hj|[Hj1 Hj2]].
      * by eapply Hs.
      * apply list_lookup_singleton_Some in Hj2 as [_ <-].
        assert (set_mem x s = true) as Habs; [|congruence].
        apply set_mem_true. exists y. split; [by eapply list_elem_of_lookup_2|].
        by apply same_value_sym.
      * apply list_lookup_singleton_Some in Hi2 as [_ <-].
        assert (set_mem x s = true) as Habs; [|congruence].
        apply set_mem_true. exists z. split; [by eapply list_elem_of_lookup_2 | done].
      * apply list_lookup_singleton_Some in Hi2 as [Hi2 _].
        apply list_lookup_singleton_Some in Hj2 as [Hj2 _]. lia.
    + intros y [? | ->%list_elem_of_singleton]%elem_of_app; [by left | by right].
    + intros y Hy. apply elem_of_app. by left.
    + exists x. split; [|apply same_value_refl]. apply elem_of_app. right. by left.
Qed.

(** [set(values)]: its elements are among the values, no two of them are
    equal for Python, and every value has an equal in the set. *)
Lemma to_set_spec (values : list PyVal) :
  distinct (to_set values) /\
  (forall y, y ∈ to_set values -> y ∈ values) /\
  (forall x, x ∈ values -> exists y, y ∈ to_set values /\ same_value x y = true).
Proof.
  unfold to_set.
  assert (forall acc, distinct acc ->
            distinct (foldl set_add acc values) /\
            (forall y, y ∈ foldl set_add acc values -> y ∈ acc \/ y ∈ values) /\
            (forall y, y ∈ acc -> y ∈ foldl set_add acc values) /\
            (forall x, x ∈ values ->
               exists y, y ∈ foldl set_add acc values /\ same_value x y = true)) as Hgen.
  { induction values as [|v values IH]; intros acc Hacc; simpl.
    - split; [done|]. split; [by left|]. split; [done|]. intros x []%elem_of_nil.
    - destruct (set_add_spec acc v Hacc) as (Hd & Hsub & Hmono & (w & Hw & Hvw)).
      destruct (IH (set_add acc v) Hd) as (Hd' & Hsub' & Hmono' & Hall').
      split; [done|]. split; [|split].
      + intros y [Hy|Hy]%Hsub'; [|right; by right].
        destruct (Hsub y Hy) as [?| ->]; [by left | right; by left].
      + intros y Hy. by apply Hmono', Hmono.
      + intros x [-> | Hx]%elem_of_cons; [|by apply Hall'].
        exists w. split; [by apply Hmono' | done]. }
  destruct (Hgen [] distinct_nil) as (Hd & Hsub & _ & Hall).
  split; [done|]. split; [|done].
  intros y [[]%elem_of_nil|Hy]%Hsub. done.
Qed.

Lemma to_set_nil_inv (values : list PyVal) : to_set values = [] -> values = [].
Proof.
  intros Hnil. destruct values as [|v values]; [done|].
  destruct (to_set_spec (v :: values)) as (_ & _ & Hall).
  destruct (Hall v) as (y & Hy & _); [by left|]. rewrite Hnil in Hy. by apply elem_of_nil in Hy.
Qed.

(** *** The entity constructors *)

Lemma elem_of_sort_by_bel (x : BaseEntity) (l : list BaseEntity) :
  x ∈ sort_by_bel l <-> x ∈ l.
Proof. unfold sort_by_bel. by rewrite merge_sort_Permutation. Qed.

Lemma entities_spec (values : list PyVal) :
  (exists xs, entities values = Ok xs /\ values = Some <$> xs) \/
  (entities values = Raise (AttributeError "as_bel") /\ None ∈ values).
Proof.
  unfold entities. induction values as [|[x|] values IH].
  - left. by exists [].
  - rewrite mapM_result_cons. destruct IH as [(xs & -> & ->)|[-> Hnone]].
    + left. by exists (x :: xs).
    + right. split; [done | by right].
  - right. split; [done | by left].
Qed.

Lemma complex_abundance_nil (identifier namespace : string) :
  complex_abundance [] identifier namespace = Raise (ValueError "empty members").
Proof. reflexivity. Qed.

Lemma complex_abundance_Ok (members : list PyVal) (identifier namespace : string)
    (x : BaseEntity) :
  complex_abundance members identifier namespace = Ok x ->
  members <> [] /\
  exists ms, members = Some <$> ms /\ x = ComplexAbundance (sort_by_bel ms) identifier namespace.
Proof.
  unfold complex_abundance. destruct members as [|v members]; [done|].
  destruct (entities_spec (v :: members)) as [(xs & -> & Heq)|[-> _]]; [|done].
  simpl. intros [= <-]. split; [done|]. by exists xs.
Qed.

Lemma complex_abundance_entities (ms : list BaseEntity) (identifier namespace : string) :
  ms <> [] ->
  complex_abundance (Some <$> ms) identifier namespace
    = Ok (ComplexAbundance (sort_by_bel ms) identifier namespace).
Proof.
  intros Hms. unfold complex_abundance.
  destruct (entities_spec (Some <$> ms)) as [(xs & -> & Heq)|[_ Hnone]].
  - apply (inj (fmap Some)) in Heq as <-. by destruct ms.
  - apply list_elem_of_fmap in Hnone as (? & [=] & _).
Qed.

Lemma reaction_entities (rs ps : list BaseEntity) :
  reaction (Some <$> rs) (Some <$> ps) = Ok (Reaction (sort_by_bel rs) (sort_by_bel ps)).
Proof.
  unfold reaction.
  destruct (entities_spec (Some <$> rs)) as [(xs & -> & Heq)|[_ Hnone]].
  2:{ apply list_elem_of_fmap in Hnone as (? & [=] & _). }
  apply (inj (fmap Some)) in Heq as <-. simpl.
  destruct (entities_spec (Some <$> ps)) as [(ys & -> & Heq)|[_ Hnone]].
  2:{ apply list_elem_of_fmap in Hnone as (? & [=] & _). }
  by apply (inj (fmap Some)) in Heq as <-.
Qed.

Lemma reaction_Ok (reactants products : list PyVal) (x : BaseEntity) :
  reaction reactants products = Ok x ->
  exists rs ps, reactants = Some <$> rs /\ products = Some <$> ps /\
                x = Reaction (sort_by_bel rs) (sort_by_bel ps).
Proof.
  unfold reaction.
  destruct (entities_spec reactants) as [(rs & -> & ->)|[-> _]]; [|done]. simpl.
  destruct (entities_spec products) as [(ps & -> & ->)|[-> _]]; [|done]. simpl.
  intros [= <-]. by exists rs, ps.
Qed.

(** A list of values without [None] is a list of entities. *)
Lemma all_entities (values : list PyVal) :
  Forall is_Some values -> exists xs, values = Some <$> xs.
Proof.
  induction 1 as [|v values [x ->] _ [xs ->]]; [by exists [] | by exists (x :: xs)].
Qed.

End graph.

End PybelFacts.

(** ** The converter *)

Module ConvertToBelFacts.
Import ConvertToBel Spec Views PythonFacts PybelFacts.

(** *** [add_simple_edge] *)

Lemma add_simple_edge_cases `{Serialisation} (g : BELGraph) (u v : PyVal)
    (types : gset string) (uri : string) :
  add_simple_edge g u v types uri =
  match first_match types with
  | Some Stimulation | Some Catalysis => add_increases g u v uri "" (Some activity)
  | Some Inhibition => add_decreases g u v uri "" (Some activity)
  | Some TranscriptionTranslation => add_translation g u v
  | Some DirectedInteraction => add_association g u v uri "" {[ "EdgeTypes" := types ]}
  | Some Interaction | None => Ok g
  end.
Proof.
  unfold first_match, add_simple_edge. simpl.
  repeat (case_bool_decide; [reflexivity|]). reflexivity.
Qed.

Lemma add_simple_edge_emitted `{Serialisation} (g : BELGraph) (u v : PyVal)
    (types : gset string) (uri : string) :
  add_simple_edge g u v types uri =
  match emitted types uri u v with
  | Some e => add_edge g e
  | None => Ok g
  end.
Proof.
  rewrite add_simple_edge_cases. unfold emitted.
  by destruct (first_match types) as [[]|].
Qed.

Lemma emitted_endpoints (types : gset string) (uri : string) (u v : PyVal) (e : Edge) :
  emitted types uri u v = Some e -> edge_source e = u /\ edge_target e = v.
Proof.
  unfold emitted. destruct (first_match types) as [[]|]; intros [= <-]; done.
Qed.

Lemma edge_within_membership (x : BaseEntity) (e : Edge) :
  edge_within x e -> membership_edge e.
Proof. intros (y & _ & He). by exists y. Qed.

(** Adding an edge between two entities: the endpoints are registered, the
    source first, and the edge is recorded unless the graph has it. *)
Lemma add_edge_grows `{Serialisation} (g : BELGraph) (e : Edge) (a b : BaseEntity) :
  edge_source e = Some a -> edge_target e = Some b ->
  let g2 := register b (register a g) in
  exists linked,
    graph_edges g2 = graph_edges g ++ linked /\
    Forall membership_edge linked /\
    add_edge g e = Ok (add_edge_once g2 e) /\
    graph_edges (add_edge_once g2 e) =
      graph_edges g ++ linked ++ (if has_edge g2 e then [] else [e]) /\
    has_edge (add_edge_once g2 e) e = true /\
    (parts a = [] -> parts b = [] -> linked = [] /\ has_edge g2 e = has_edge g e).
Proof.
  intros Hs Ht g2.
  destruct (register_registered a g) as ((ns1 & es1 & Hext1 & _ & Hes1) & _ & _).
  destruct (register_registered b (register a g)) as ((ns2 & es2 & Hext2 & _ & Hes2) & _ & _).
  destruct (extends_with_trans _ _ _ _ _ _ _ Hext1 Hext2) as (_ & _ & Hedges).
  fold g2 in Hedges.
  exists (es1 ++ es2). split; [done|]. split; [|split; [|split; [|split]]].
  - apply Forall_app. split; eapply Forall_impl; eauto using edge_within_membership.
  - by apply add_edge_entities.
  - destruct (add_edge_once_extends g2 e) as (_ & _ & ->). by rewrite Hedges, <- app_assoc.
  - apply add_edge_once_has_edge.
  - intros Ha Hb. subst g2. rewrite !register_simple by done.
    assert (forall g0 x, graph_edges (if has_node g0 x then g0
                                     else with_nodes g0 (graph_nodes g0 ++ [Some x]))
                         = graph_edges g0) as Hkeep.
    { intros g0 x. by destruct (has_node g0 x). }
    assert (es1 ++ es2 = []) as Hnil.
    { rewrite !register_simple in Hedges by done. rewrite !Hkeep in Hedges.
      apply (app_inv_head (graph_edges g)). by rewrite app_nil_r. }
    split; [done|]. unfold has_edge. by rewrite !Hkeep.
Qed.

Lemma add_edges_one_pair `{Collaborators} `{Serialisation} (g : BELGraph) (s t : string)
    (u v : PyVal) (nodes : gmap string PyVal) (att : RawInteraction) :
  "Conversion" ∉ interaction_types att ->
  nodes !! s = Some u ->
  nodes !! t = Some v ->
  add_edges g [(s, t)] nodes att =
    add_simple_edge g u v (interaction_types att) (interaction_uri_id att).
Proof.
  intros Hconv Hs Ht. unfold add_edges.
  destruct (parse_id_uri (interaction_uri_id att)) as [[[? ?] ?] ?].
  rewrite bool_decide_eq_false_2 by done.
  simpl. unfold add_pair. simpl. rewrite Hs, Ht.
  by destruct (add_simple_edge g u v _ _).
Qed.

(** C7: for a participant pair both IDs of which are keys of the mapping, in
    an interaction that is no conversion, [add_edges] does what
    [add_simple_edge] does, and that is to hand the graph the edge the table
    prescribes for the first type tag, in the order Stimulation, Inhibition,
    Catalysis, TranscriptionTranslation, DirectedInteraction, Interaction,
    that the type set contains: one edge from the source to the target with
    the prescribed relation, object modifier and annotation, or no edge.
    When both endpoints are entities, the graph registers them (with the
    membership edges of an endpoint that is a complex new to the graph) and
    records the edge unless it has it, so that the edge is in the graph
    afterwards; between two entities without parts it is the one edge added
    when the graph did not have it.  When an endpoint is [None], pybel
    refuses it and nothing is added.  Stimulation hands over an increase
    edge whose object modifier is an activity and whose citation is the
    interaction URI; a type set with none of the first five tags leaves the
    graph as it is. *)
Theorem add_simple_edge_first_match `{Collaborators} `{Serialisation} (g : BELGraph)
    (s t : string) (u v : PyVal) (nodes : gmap string PyVal) (att : RawInteraction) :
  "Conversion" ∉ interaction_types att ->
  nodes !! s = Some u ->
  nodes !! t = Some v ->
  let types := interaction_types att in
  let uri := interaction_uri_id att in
  add_edges g [(s, t)] nodes att = add_simple_edge g u v types uri /\
  match prescribed types with
  | Some (relation, modifier, annotated) =>
      exists e,
        edge_source e = u /\ edge_target e = v /\
        edge_relation e = relation /\ edge_object_modifier e = modifier /\
        edge_annotations e = (if annotated then Some {[ "EdgeTypes" := types ]} else None) /\
        add_simple_edge g u v types uri = add_edge g e /\
        (forall a b, u = Some a -> v = Some b ->
           let g2 := register b (register a g) in
           exists g' linked,
             add_edge g e = Ok g' /\
             Forall membership_edge linked /\
             graph_edges g2 = graph_edges g ++ linked /\
             graph_edges g' = graph_edges g ++ linked ++ (if has_edge g2 e then [] else [e]) /\
             has_edge g' e = true /\
             (parts a = [] -> parts b = [] -> has_edge g e = false ->
              graph_edges g' = graph_edges g ++ [e])) /\
        (u = None \/ v = None -> add_edge g e = Raise AssertionError)
  | None => add_simple_edge g u v types uri = Ok g
  end /\
  ("Stimulation" ∈ types ->
     let e := mkEdge u v INCREASES (Some uri) (Some "") (Some activity) None in
     add_simple_edge g u v types uri = add_edge g e /\
     (forall a b, u = Some a -> v = Some b ->
        exists g',
          add_simple_edge g u v types uri = Ok g' /\
          has_edge g' e = true /\
          (parts a = [] -> parts b = [] -> has_edge g e = false ->
           graph_edges g' = graph_edges g ++ [e]))) /\
  ("Stimulation" ∉ types -> "Inhibition" ∉ types -> "Catalysis" ∉ types ->
   "TranscriptionTranslation" ∉ types -> "DirectedInteraction" ∉ types ->
   add_simple_edge g u v types uri = Ok g).
Proof.
  intros Hconv Hs Ht types uri.
  split; [by apply add_edges_one_pair|].
  rewrite add_simple_edge_cases. unfold prescribed.
  unfold add_increases, add_decreases, add_translation, add_association.
  assert (forall e, edge_source e = u -> edge_target e = v ->
            (forall a b, u = Some a -> v = Some b ->
               let g2 := register b (register a g) in
               exists g' linked,
                 add_edge g e = Ok g' /\
                 Forall membership_edge linked /\
                 graph_edges g2 = graph_edges g ++ linked /\
                 graph_edges g' = graph_edges g ++ linked ++
                                  (if has_edge g2 e then [] else [e]) /\
                 has_edge g' e = true /\
                 (parts a = [] -> parts b = [] -> has_edge g e = false ->
                  graph_edges g' = graph_edges g ++ [e])) /\
            (u = None \/ v = None -> add_edge g e = Raise AssertionError)) as Hone.
  { intros e Hes Het. split.
    - intros a b Hu Hv g2. rewrite Hu in Hes. rewrite Hv in Het.
      destruct (add_edge_grows g e a b Hes Het) as (linked & H1 & H2 & H3 & H4 & H5 & H6).
      eexists _, linked. split; [exact H3|]. repeat (split; [done|]).
      intros Ha Hb Hnew. destruct (H6 Ha Hb) as [-> Heq].
      rewrite H4, Heq, Hnew. done.
    - intros Hnone. apply add_edge_None. rewrite Hes, Het. done. }
  destruct (first_match types) as [[]|] eqn:Hfirst; simpl.
  1-5: match goal with
       | |- context [add_edge _ ?e] =>
           split; [exists e; repeat (split; [reflexivity|]); exact (Hone e eq_refl eq_refl)|]
       end.
  6-7: split; [reflexivity|].
  all: unfold first_match in Hfirst; simpl in Hfirst.
  all: split;
    [intros Hstim; rewrite bool_decide_eq_true_2 in Hfirst by done; try discriminate
    |intros H1 H2 H3 H4 H5; rewrite !bool_decide_eq_false_2 in Hfirst by done;
     try (case_bool_decide; discriminate); try done].
  split; [reflexivity|]. intros a b Hu Hv.
  destruct (proj1 (Hone (mkEdge u v INCREASES (Some uri) (Some "") (Some activity) None)
                        eq_refl eq_refl) a b Hu Hv)
    as (g' & linked & Hg' & _ & _ & _ & Hhas & Hexact).
  by exists g'.
Qed.

Lemma add_simple_edge_first_match_witness :
  exists g',
    @add_simple_edge Examples.serialisation Examples.empty_graph
      (Some (protein "HGNC" "TP53" "11998")) (Some (protein "HGNC" "MDM2" "6973"))
      {[ "Stimulation" ]} "http://rdf.wikipathways.org/WP254/i1" = Ok g' /\
    graph_edges g' =
      [mkEdge (Some (protein "HGNC" "TP53" "11998")) (Some (protein "HGNC" "MDM2" "6973"))
              INCREASES (Some "http://rdf.wikipathways.org/WP254/i1") (Some "")
              (Some activity) None].
Proof.
  destruct (@add_simple_edge_first_match Examples.collaborators Examples.serialisation
              Examples.empty_graph "a" "b" (Some (protein "HGNC" "TP53" "11998"))
              (Some (protein "HGNC" "MDM2" "6973"))
              {[ "a" := Some (protein "HGNC" "TP53" "11998");
                 "b" := Some (protein "HGNC" "MDM2" "6973") ]}
              (Examples.stimulation [("a", "b")]))
    as (_ & _ & Hstim & _).
  - decide_by_vm.
  - reflexivity.
  - reflexivity.
  - destruct Hstim as [_ Hentities]; [decide_by_vm|].
    destruct (Hentities _ _ eq_refl eq_refl) as (g' & Hg' & _ & Hexact).
    exists g'. split; [exact Hg'|]. apply Hexact; reflexivity.
Defined.

(** C3, as stated, fails: the edge added under TranscriptionTranslation has
    no citation and no evidence. *)
Lemma translation_edge_has_no_citation :
  exists g',
    @add_simple_edge Examples.serialisation Examples.empty_graph
      (Some (gene "HGNC" "TP53" "11998")) (Some (protein "HGNC" "TP53" "11998"))
      {[ "TranscriptionTranslation" ]} "http://rdf.wikipathways.org/WP254/i3" = Ok g' /\
    graph_edges g' =
      [mkEdge (Some (gene "HGNC" "TP53" "11998")) (Some (protein "HGNC" "TP53" "11998"))
              TRANSLATED_TO None None None None].
Proof. eexists. split; vm_compute; reflexivity. Qed.

(** C3, amended: when [add_simple_edge] returns, the graph has gained the
    membership edges of the endpoints it had to register and at most one
    edge more, the edge handed to it, which the graph has afterwards.  When
    the first type tag the type set contains is Stimulation, Inhibition,
    Catalysis or DirectedInteraction, that edge carries the interaction URI
    as its citation and the empty string as its evidence; when it is
    TranscriptionTranslation, the edge is a translation edge without citation
    and without evidence; otherwise nothing is added.  The call raises only
    when an edge is to be added and an endpoint is [None]. *)
Theorem simple_edge_citation_and_evidence `{Serialisation} (g : BELGraph) (u v : PyVal)
    (types : gset string) (uri : string) :
  match add_simple_edge g u v types uri with
  | Ok g' =>
      exists linked new,
        graph_edges g' = graph_edges g ++ linked ++ new /\
        Forall membership_edge linked /\
        match first_match types with
        | Some TranscriptionTranslation =>
            let e := mkEdge u v TRANSLATED_TO None None None None in
            has_edge g' e = true /\ (new = [e] \/ new = [])
        | Some Interaction | None => linked = [] /\ new = []
        | Some _ =>
            exists e, edge_source e = u /\ edge_target e = v /\
                      edge_citation e = Some uri /\ edge_evidence e = Some "" /\
                      has_edge g' e = true /\ (new = [e] \/ new = [])
        end
  | Raise exc =>
      exc = AssertionError /\ (u = None \/ v = None) /\
      first_match types <> Some Interaction /\ first_match types <> None
  end.
Proof.
  rewrite add_simple_edge_cases.
  unfold add_increases, add_decreases, add_translation, add_association.
  assert (forall e, edge_source e = u -> edge_target e = v ->
            match add_edge g e with
            | Ok g' =>
                exists linked new,
                  graph_edges g' = graph_edges g ++ linked ++ new /\
                  Forall membership_edge linked /\
                  has_edge g' e = true /\ (new = [e] \/ new = [])
            | Raise exc => exc = AssertionError /\ (u = None \/ v = None)
            end) as Hone.
  { intros e Hes Het. destruct u as [a|]; [destruct v as [b|]|].
    - destruct (add_edge_grows g e a b Hes Het) as (linked & _ & H2 & -> & H4 & H5 & _).
      exists linked. eexists. split; [exact H4|]. split; [done|]. split; [done|].
      destruct (has_edge _ e); [by right | by left].
    - rewrite add_edge_None by (by right). split; [done | by right].
    - rewrite add_edge_None by (by left). split; [done | by left]. }
  destruct (first_match types) as [[]|] eqn:Hfirst.
  1-5: match goal with
       | |- context [add_edge ?g0 ?e] =>
           pose proof (Hone e eq_refl eq_refl) as He; destruct (add_edge g0 e) as [g'|exc];
           [destruct He as (linked & new & H1 & H2 & H3 & H4);
            exists linked, new; (split; [done|]); (split; [done|]);
            first [exact (conj H3 H4) | exists e; by repeat (split; [done|])]
           |destruct He as [-> Hnone]; by repeat (split; [done|])]
       end.
  - exists [], []. rewrite !app_nil_r. split; [done|]. split; [constructor | done].
  - exists [], []. rewrite !app_nil_r. split; [done|]. split; [constructor | done].
Qed.

(** *** [complex_to_bel] and [complexes_to_bel] *)

Lemma complex_to_bel_eq `{Collaborators} `{Serialisation} (c : RawComplex)
    (nodes : gmap string PyVal) (g : BELGraph) :
  complex_to_bel c nodes g =
  match composite c nodes with
  | Ok x => Ok (register x g, Some x)
  | Raise e => Raise e
  end.
Proof.
  unfold complex_to_bel, composite.
  destruct (parse_id_uri (complex_uri_id c)) as [[[? ?] ?] ?]. simpl.
  by destruct (complex_abundance _ _ _).
Qed.

Lemma omap_unresolved (nodes : gmap string PyVal) (ids : list string) :
  (forall m, m ∈ ids -> nodes !! m = None) ->
  omap (fun member_id => nodes !! member_id) ids = [].
Proof.
  induction ids as [|m ids IH]; intros Hnone; [done|]. simpl.
  rewrite (Hnone m) by left. apply IH. intros m' Hm'. apply Hnone. by right.
Qed.

Lemma composite_unresolved `{Collaborators} `{Serialisation} (c : RawComplex)
    (nodes : gmap string PyVal) :
  (forall m, m ∈ complex_participants c -> nodes !! m = None) ->
  composite c nodes = Raise (ValueError "empty members").
Proof. intros Hnone. unfold composite. by rewrite omap_unresolved. Qed.

(** The entity of a complex: its members are the entities of the member
    IDs that are resolved, each once. *)
Lemma composite_Ok `{Collaborators} `{Serialisation} (c : RawComplex)
    (nodes : gmap string PyVal) (x : BaseEntity) :
  composite c nodes = Ok x ->
  exists ms,
    x = ComplexAbundance ms (parse_id_uri (complex_uri_id c)).2 "wp_complex" /\
    ms <> [] /\
    (forall m, m ∈ ms ->
       exists id, id ∈ complex_participants c /\ nodes !! id = Some (Some m)) /\
    (forall id v, id ∈ complex_participants c -> nodes !! id = Some v ->
       exists m, m ∈ ms /\ same_value v (Some m) = true) /\
    (forall m m', m ∈ ms -> m' ∈ ms -> as_bel m = as_bel m' -> m = m').
Proof.
  unfold composite. intros (Hne & ms & Hms & ->)%complex_abundance_Ok.
  destruct (to_set_spec (omap (fun member_id => nodes !! member_id)
                              (complex_participants c))) as (Hdistinct & Hsub & Hall).
  rewrite Hms in *. exists (sort_by_bel ms). split; [done|]. split; [|split; [|split]].
  - intros Hnil. destruct ms as [|m ms]; [done|].
    assert (m ∈ sort_by_bel (m :: ms)) as Hm by (apply elem_of_sort_by_bel; by left).
    rewrite Hnil in Hm. by apply elem_of_nil in Hm.
  - intros m Hm. apply (proj1 (elem_of_sort_by_bel _ _)) in Hm.
    assert (Some m ∈ Some <$> ms) as Hin by (apply list_elem_of_fmap; by exists m).
    apply Hsub in Hin. apply list_elem_of_omap in Hin as (id & Hid & Hlook). by exists id.
  - intros id v Hid Hlook.
    destruct (Hall v) as (w & Hw & Hvw).
    { apply list_elem_of_omap. by exists id. }
    apply list_elem_of_fmap in Hw as (m & -> & Hm).
    exists m. split; [by apply elem_of_sort_by_bel | done].
  - intros m m' Hm Hm' Hbel.
    apply (proj1 (elem_of_sort_by_bel _ _)) in Hm.
    apply (proj1 (elem_of_sort_by_bel _ _)) in Hm'.
    apply list_elem_of_lookup in Hm as [i Hi]. apply list_elem_of_lookup in Hm' as [j Hj].
    assert (i = j) as ->; [|congruence].
    apply (Hdistinct i j (Some m) (Some m')).
    + by rewrite list_lookup_fmap, Hi.
    + by rewrite list_lookup_fmap, Hj.
    + by apply same_node_eq.
Qed.

(** A complex with a resolved member, and no member that is resolved to
    [None], has its entity. *)
Lemma composite_returns `{Collaborators} `{Serialisation} (c : RawComplex)
    (nodes : gmap string PyVal) :
  (exists id, id ∈ complex_participants c /\ is_Some (nodes !! id)) ->
  (forall id v, id ∈ complex_participants c -> nodes !! id = Some v -> is_Some v) ->
  exists x, composite c nodes = Ok x.
Proof.
  intros (id & Hid & [v Hv]) Hsome. unfold composite.
  set (values := omap (fun member_id => nodes !! member_id) (complex_participants c)).
  destruct (to_set_spec values) as (_ & Hsub & Hall).
  destruct (all_entities (to_set values)) as [ms Hms].
  { apply Forall_forall. intros w Hw%Hsub%list_elem_of_omap.
    destruct Hw as (id' & Hid' & Hlook). by eapply Hsome. }
  rewrite Hms. eexists. apply complex_abundance_entities.
  intros ->. destruct (Hall v) as (w & Hw & _).
  { apply list_elem_of_omap. by exists id. }
  rewrite Hms in Hw. by apply elem_of_nil in Hw.
Qed.

(** A [for] loop that returns has run every turn. *)
Lemma for_each_establish {A S : Type} (body : S -> A -> result S) (I : S -> Prop)
    (P : A -> S -> Prop) (l0 : list A) :
  (forall s b s', b ∈ l0 -> I s -> body s b = Ok s' -> I s' /\ P b s') ->
  (forall s b b' s', b ∈ l0 -> I s -> body s b = Ok s' -> P b' s -> P b' s') ->
  forall l, l ⊆ l0 ->
  forall s s', I s -> for_each body l s = Ok s' ->
    I s' /\ (forall b, b ∈ l -> P b s') /\ (forall b', P b' s -> P b' s').
Proof.
  intros Hstep Hkeep. induction l as [|b l IH]; intros Hsub s s' Hs Hrun.
  - injection Hrun as <-. split; [done|]. split; [|done]. intros b []%elem_of_nil.
  - simpl in Hrun. destruct (body s b) as [s1|e] eqn:Hbody; [|done]. simpl in Hrun.
    assert (b ∈ l0) as Hb by (apply Hsub; by left).
    destruct (Hstep s b s1 Hb Hs Hbody) as [Hs1 Hpb].
    destruct (IH (fun x Hx => Hsub x (list_elem_of_further _ _ _ Hx)) s1 s' Hs1 Hrun)
      as (Hend & Hall & Hkept).
    split; [done|]. split.
    + intros b' [-> | Hb']%elem_of_cons; [by apply Hkept | by apply Hall].
    + intros b' Hb'. apply Hkept. exact (Hkeep s b b' s1 Hb Hs Hbody Hb').
Qed.

Lemma for_each_returns {A S : Type} (body : S -> A -> result S) (I : S -> Prop) (l : list A) :
  (forall s b, b ∈ l -> I s -> exists s', body s b = Ok s' /\ I s') ->
  forall s, I s -> exists s', for_each body l s = Ok s' /\ I s'.
Proof.
  induction l as [|b l IH]; intros Hstep s Hs; [by exists s|]. simpl.
  destruct (Hstep s b) as (s1 & -> & Hs1); [by left | done |]. simpl.
  apply IH; [|done]. intros s0 b0 Hb0. apply Hstep. by right.
Qed.

Lemma for_each_raises {A S : Type} (body : S -> A -> result S) (l : list A) (b : A) :
  b ∈ l -> (forall s, exists e, body s b = Raise e) ->
  forall s, exists e, for_each body l s = Raise e.
Proof.
  intros Hb Hraise. induction l as [|b0 l IH]; intros s; [by apply elem_of_nil in Hb|].
  simpl. destruct (body s b0) as [s1|e] eqn:Hbody; [|by exists e]. simpl.
  apply elem_of_cons in Hb as [-> | Hb]; [|by apply IH].
  destruct (Hraise s) as [e He]. congruence.
Qed.

(** The loop of [complexes_to_bel], over any list of items with distinct
    keys. *)
Lemma complexes_loop `{Collaborators} `{Serialisation} (nodes : gmap string PyVal)
    (items : list (string * RawComplex)) :
  NoDup items.*1 ->
  forall start stop,
  for_each (fun (acc : BELGraph * gmap string PyVal) (item : string * RawComplex) =>
              '(graph', node) ← complex_to_bel item.2 nodes acc.1;
              Ok (graph', <[item.1 := node]> acc.2)) items start = Ok stop ->
  complexes_done nodes items start stop /\
  forall cid c, (cid, c) ∈ items ->
    exists x, composite c nodes = Ok x /\ stop.2 !! cid = Some (Some x) /\
              has_node stop.1 x = true.
Proof.
  induction items as [|[cid c] items IH]; intros Hnd start stop Hrun.
  - injection Hrun as <-. split.
    + split; [|split; [done | done]].
      exists [], []. split; [apply extends_with_refl|]. split; constructor.
    + intros cid c []%elem_of_nil.
  - apply NoDup_cons in Hnd as [Hcid Hnd]. simpl in Hcid, Hrun.
    rewrite complex_to_bel_eq in Hrun.
    destruct (composite c nodes) as [x|e] eqn:Hx; [|done]. simpl in Hrun.
    destruct (IH Hnd _ _ Hrun) as (((ns & es & Hext & Hns & Hes) & Hcl & Hrest) & Hitems).
    simpl in *.
    destruct (register_registered x start.1) as ((ns0 & es0 & Hext0 & Hns0 & Hes0) & Hhas & Hcl0).
    split; [split; [|split]|].
    + exists (ns0 ++ ns), (es0 ++ es). split; [by eapply extends_with_trans|].
      split; apply Forall_app; split.
      * eapply Forall_impl; [exact Hns0|]. intros n Hn. exists (cid, c), x.
        split; [by left | done].
      * eapply Forall_impl; [exact Hns|]. intros n (item & y & Hitem & Hy).
        exists item, y. split; [by right | done].
      * eapply Forall_impl; [exact Hes0|]. intros e He. exists (cid, c), x.
        split; [by left | done].
      * eapply Forall_impl; [exact Hes|]. intros e (item & y & Hitem & Hy).
        exists item, y. split; [by right | done].
    + auto.
    + intros cid' [Hne Hcid']%not_elem_of_cons. rewrite Hrest by done.
      by apply lookup_insert_ne.
    + intros cid' c' [[= -> ->] | Hin]%elem_of_cons; [|by apply Hitems].
      exists x. split; [done|]. split.
      * rewrite Hrest by done. apply lookup_insert_eq.
      * exact (extends_has_node _ _ _ _ _ Hext Hhas).
Qed.

Lemma complexes_to_bel_Ok `{Collaborators} `{Serialisation}
    (complexes : gmap string RawComplex) (nodes : gmap string PyVal) (g g' : BELGraph)
    (complex_nodes : gmap string PyVal) :
  complexes_to_bel complexes nodes g = Ok (g', complex_nodes) ->
  complex_nodes = composites complexes nodes /\
  (forall cid c, complexes !! cid = Some c ->
     exists x, composite c nodes = Ok x /\ has_node g' x = true) /\
  (closed g -> closed g') /\
  exists ns es,
    extends_with g g' ns es /\
    Forall (fun n => exists x, composed complexes nodes x /\ node_within x n) ns /\
    Forall (fun e => exists x, composed complexes nodes x /\ edge_within x e) es.
Proof.
  unfold complexes_to_bel. intros Hrun.
  destruct (complexes_loop nodes (map_to_list complexes) (NoDup_fst_map_to_list _) _ _ Hrun)
    as (((ns & es & Hext & Hns & Hes) & Hcl & Hrest) & Hitems).
  simpl in *. split; [|split; [|split; [done|]]].
  - apply map_eq. intros cid. unfold composites. rewrite lookup_omap.
    destruct (complexes !! cid) as [c|] eqn:Hc; simpl.
    + destruct (Hitems cid c) as (x & -> & -> & _); [by apply elem_of_map_to_list | done].
    + rewrite Hrest; [done|].
      intros ([cid' c] & -> & Hin%elem_of_map_to_list)%list_elem_of_fmap.
      simpl in Hc. congruence.
  - intros cid c Hc%elem_of_map_to_list.
    destruct (Hitems cid c Hc) as (x & Hx & _ & Hhas). by exists x.
  - exists ns, es. split; [done|].
    split; (eapply Forall_impl; [eassumption|]); intros ? ([cid c] & x & Hin%elem_of_map_to_list & Hx & Hw);
      exists x; (split; [by exists cid, c | done]).
Qed.

Lemma complexes_to_bel_returns `{Collaborators} `{Serialisation}
    (complexes : gmap string RawComplex) (nodes : gmap string PyVal) (g : BELGraph) :
  (forall cid c, complexes !! cid = Some c -> exists x, composite c nodes = Ok x) ->
  exists g' complex_nodes, complexes_to_bel complexes nodes g = Ok (g', complex_nodes).
Proof.
  intros Hall. unfold complexes_to_bel.
  destruct (for_each_returns
              (fun (acc : BELGraph * gmap string PyVal) (item : string * RawComplex) =>
                 '(graph', node) ← complex_to_bel item.2 nodes acc.1;
                 Ok (graph', <[item.1 := node]> acc.2))
              (fun _ => True) (map_to_list complexes)) with (s := (g, ∅ : gmap string PyVal))
    as ([g' cx] & Hrun & _).
  - intros s [cid c] Hin%elem_of_map_to_list _. simpl.
    destruct (Hall cid c Hin) as [x Hx]. rewrite complex_to_bel_eq, Hx. simpl. by eexists.
  - done.
  - by exists g', cx.
Qed.

(** C10, on the code: for a complex none of whose declared member IDs is in
    the resolved-node mapping, [complex_to_bel] filters every member out and
    asks pybel for a complex without members, which pybel refuses: the call
    raises [ValueError], no composite node is returned and none is added to
    the graph.  [complexes_to_bel] raises with it, whatever the other
    complexes are. *)
Theorem complex_without_resolved_members `{Collaborators} `{Serialisation}
    (complexes : gmap string RawComplex) (nodes : gmap string PyVal) (g : BELGraph)
    (cid : string) (c : RawComplex) :
  complexes !! cid = Some c ->
  (forall m, m ∈ complex_participants c -> nodes !! m = None) ->
  complex_to_bel c nodes g = Raise (ValueError "empty members") /\
  exists e, complexes_to_bel complexes nodes g = Raise e.
Proof.
  intros Hc Hnone.
  assert (forall g0, complex_to_bel c nodes g0 = Raise (ValueError "empty members")) as Hraise.
  { intros g0. by rewrite complex_to_bel_eq, composite_unresolved. }
  split; [done|]. unfold complexes_to_bel.
  apply (for_each_raises _ _ (cid, c)); [by apply elem_of_map_to_list|].
  intros s. simpl. rewrite Hraise. by eexists.
Qed.

Lemma complex_without_resolved_members_witness :
  @complex_to_bel Examples.collaborators Examples.serialisation Examples.a_complex
    {[ "tp53" := Some (protein "ENTREZ" "7157" "7157") ]} Examples.empty_graph
    = Raise (ValueError "empty members") /\
  @complexes_to_bel Examples.collaborators Examples.serialisation
    {[ "c1" := Examples.a_complex; "c2" := Examples.p53_complex ]}
    {[ "tp53" := Some (protein "ENTREZ" "7157" "7157") ]} Examples.empty_graph
    = Raise (ValueError "empty members").
Proof.
  destruct (@complex_without_resolved_members Examples.collaborators Examples.serialisation
              {[ "c1" := Examples.a_complex; "c2" := Examples.p53_complex ]}
              {[ "tp53" := Some (protein "ENTREZ" "7157" "7157") ]} Examples.empty_graph
              "c1" Examples.a_complex) as [Hone [e Hall]].
  - reflexivity.
  - assert (Forall (fun m => ({[ "tp53" := Some (protein "ENTREZ" "7157" "7157") ]}
                                : gmap string PyVal) !! m = None)
                   (complex_participants Examples.a_complex)) as Hnone by decide_by_vm.
    intros m Hm. by apply (proj1 (Forall_forall _ _) Hnone).
  - split; [exact Hone|]. rewrite Hall. vm_compute in Hall. symmetry. exact Hall.
Defined.

(** *** The conversion branch of [add_edges] *)

(** C1, on the code: in the conversion branch a participant ID that is
    missing from the resolved-node mapping is not dropped.  The subscription
    [nodes[source_id]] (or [nodes[product_id]]) raises [KeyError] for a
    missing ID, and [add_edges] ends there without a reaction node. *)
Theorem conversion_unresolved_participant_raises `{Collaborators} `{Serialisation}
    (g : BELGraph) (pairs : list (string * string)) (nodes : gmap string PyVal)
    (att : RawInteraction) (source target : string) :
  "Conversion" ∈ interaction_types att ->
  (source, target) ∈ pairs ->
  nodes !! source = None \/ nodes !! target = None ->
  exists key, add_edges g pairs nodes att = Raise (KeyError key) /\ nodes !! key = None.
Proof.
  intros Hconv Hpair Hmissing. unfold add_edges.
  destruct (parse_id_uri (interaction_uri_id att)) as [[[? ?] ?] ?].
  rewrite bool_decide_eq_true_2 by done.
  assert (source ∈ elements (list_to_set (C := gset string) pairs.*1)) as Hs.
  { apply elem_of_elements, elem_of_list_to_set, list_elem_of_fmap. by exists (source, target). }
  assert (target ∈ elements (list_to_set (C := gset string) pairs.*2)) as Ht.
  { apply elem_of_elements, elem_of_list_to_set, list_elem_of_fmap. by exists (source, target). }
  destruct (mapM_getitem nodes (elements (list_to_set (C := gset string) pairs.*1)))
    as [(rs & -> & Hrs) | (k & -> & _ & Hk)]; simpl.
  - destruct Hmissing as [Hnone|Hnone].
    + apply list_elem_of_lookup in Hs as [i Hi].
      destruct (Forall2_lookup_l _ _ _ _ _ Hrs Hi) as (v & _ & Hv). congruence.
    + destruct (mapM_getitem_Raise nodes _ target Ht Hnone) as (k & -> & _ & Hk).
      by exists k.
  - by exists k.
Qed.

Lemma conversion_unresolved_participant_raises_witness :
  @add_edges Examples.collaborators Examples.serialisation Examples.empty_graph
             [("tp53", "ghost")]
             {[ "tp53" := Some (protein "ENTREZ" "7157" "7157") ]}
             (Examples.conversion [("tp53", "ghost")])
  = Raise (KeyError "ghost").
Proof.
  destruct (@conversion_unresolved_participant_raises Examples.collaborators
              Examples.serialisation
              Examples.empty_graph [("tp53", "ghost")]
              {[ "tp53" := Some (protein "ENTREZ" "7157" "7157") ]}
              (Examples.conversion [("tp53", "ghost")]) "tp53" "ghost") as (key & Hraise & _).
  - decide_by_vm.
  - decide_by_vm.
  - right. reflexivity.
  - reflexivity.
Defined.

(** The values of a set comprehension [{nodes[id] for id in ids}] that
    pybel accepts as reactants or products. *)
Lemma resolved_set `{Serialisation} (nodes : gmap string PyVal) (ids : list string)
    (values : list PyVal) (xs : list BaseEntity) :
  Forall2 (fun k v => nodes !! k = Some v) ids values ->
  to_set values = Some <$> xs ->
  (forall x, x ∈ sort_by_bel xs -> exists id, id ∈ ids /\ nodes !! id = Some (Some x)) /\
  (forall id v, id ∈ ids -> nodes !! id = Some v ->
     exists x, x ∈ sort_by_bel xs /\ same_value v (Some x) = true) /\
  (forall x x', x ∈ sort_by_bel xs -> x' ∈ sort_by_bel xs -> as_bel x = as_bel x' -> x = x').
Proof.
  intros Hvalues Hset.
  destruct (to_set_spec values) as (Hdistinct & Hsub & Hall). rewrite Hset in *.
  split; [|split].
  - intros x Hx. apply (proj1 (elem_of_sort_by_bel _ _)) in Hx.
    assert (Some x ∈ Some <$> xs) as Hin by (apply list_elem_of_fmap; by exists x).
    apply Hsub in Hin. apply list_elem_of_lookup in Hin as [i Hi].
    destruct (Forall2_lookup_r _ _ _ _ _ Hvalues Hi) as (id & Hid & Hlook).
    exists id. split; [by eapply list_elem_of_lookup_2 | done].
  - intros id v Hid Hlook. apply list_elem_of_lookup in Hid as [i Hi].
    destruct (Forall2_lookup_l _ _ _ _ _ Hvalues Hi) as (v' & Hv' & Hlook').
    assert (v' = v) as -> by congruence.
    destruct (Hall v) as (w & Hw & Hvw); [by eapply list_elem_of_lookup_2|].
    apply list_elem_of_fmap in Hw as (x & -> & Hx).
    exists x. split; [by apply elem_of_sort_by_bel | done].
  - intros x x' Hx Hx' Hbel.
    apply (proj1 (elem_of_sort_by_bel _ _)) in Hx.
    apply (proj1 (elem_of_sort_by_bel _ _)) in Hx'.
    apply list_elem_of_lookup in Hx as [i Hi]. apply list_elem_of_lookup in Hx' as [j Hj].
    assert (i = j) as ->; [|congruence].
    apply (Hdistinct i j (Some x) (Some x')).
    + by rewrite list_lookup_fmap, Hi.
    + by rewrite list_lookup_fmap, Hj.
    + by apply same_node_eq.
Qed.

(** What the conversion branch has done when it returns. *)
Lemma conversion_Ok `{Collaborators} `{Serialisation} (g g' : BELGraph)
    (pairs : list (string * string)) (nodes : gmap string PyVal) (att : RawInteraction) :
  "Conversion" ∈ interaction_types att ->
  add_edges g pairs nodes att = Ok g' ->
  exists rs ps,
    g' = register (Reaction rs ps) g /\
    (forall x, x ∈ rs -> exists p, p ∈ pairs /\ nodes !! p.1 = Some (Some x)) /\
    (forall x, x ∈ ps -> exists p, p ∈ pairs /\ nodes !! p.2 = Some (Some x)) /\
    (forall p v, p ∈ pairs -> nodes !! p.1 = Some v ->
       exists x, x ∈ rs /\ same_value v (Some x) = true) /\
    (forall p v, p ∈ pairs -> nodes !! p.2 = Some v ->
       exists x, x ∈ ps /\ same_value v (Some x) = true) /\
    (forall x x', x ∈ rs -> x' ∈ rs -> as_bel x = as_bel x' -> x = x') /\
    (forall x x', x ∈ ps -> x' ∈ ps -> as_bel x = as_bel x' -> x = x').
Proof.
  intros Hconv. unfold add_edges.
  destruct (parse_id_uri (interaction_uri_id att)) as [[[? ?] ?] ?].
  rewrite bool_decide_eq_true_2 by done.
  destruct (mapM_getitem nodes (elements (list_to_set (C := gset string) pairs.*1)))
    as [(rvalues & -> & Hrs) | (k & -> & _)]; [|done]. simpl.
  destruct (mapM_getitem nodes (elements (list_to_set (C := gset string) pairs.*2)))
    as [(pvalues & -> & Hps) | (k & -> & _)]; [|done]. simpl.
  destruct (reaction (to_set rvalues) (to_set pvalues)) as [x|e] eqn:Hx; [|done]. simpl.
  intros [= <-]. apply reaction_Ok in Hx as (rs & ps & Hrset & Hpset & ->).
  destruct (resolved_set nodes _ _ _ Hrs Hrset) as (Hr1 & Hr2 & Hr3).
  destruct (resolved_set nodes _ _ _ Hps Hpset) as (Hp1 & Hp2 & Hp3).
  exists (sort_by_bel rs), (sort_by_bel ps). split; [done|].
  split; [|split; [|split; [|split; [|split; done]]]].
  - intros x (id & Hid & Hlook)%Hr1.
    apply elem_of_elements, elem_of_list_to_set, list_elem_of_fmap in Hid as (p & -> & Hp).
    by exists p.
  - intros x (id & Hid & Hlook)%Hp1.
    apply elem_of_elements, elem_of_list_to_set, list_elem_of_fmap in Hid as (p & -> & Hp).
    by exists p.
  - intros p v Hp Hlook. apply (Hr2 p.1); [|done].
    apply elem_of_elements, elem_of_list_to_set, list_elem_of_fmap. by exists p.
  - intros p v Hp Hlook. apply (Hp2 p.2); [|done].
    apply elem_of_elements, elem_of_list_to_set, list_elem_of_fmap. by exists p.
Qed.

(** The conversion branch returns when every participant ID is resolved to
    an entity. *)
Lemma conversion_returns `{Collaborators} `{Serialisation} (g : BELGraph)
    (pairs : list (string * string)) (nodes : gmap string PyVal) (att : RawInteraction) :
  "Conversion" ∈ interaction_types att ->
  (forall p, p ∈ pairs ->
     (exists a, nodes !! p.1 = Some (Some a)) /\ (exists b, nodes !! p.2 = Some (Some b))) ->
  exists g', add_edges g pairs nodes att = Ok g'.
Proof.
  intros Hconv Hres. unfold add_edges.
  destruct (parse_id_uri (interaction_uri_id att)) as [[[? ?] ?] ?].
  rewrite bool_decide_eq_true_2 by done.
  assert (forall (proj : string * string -> string),
            (forall p, p ∈ pairs -> exists a, nodes !! proj p = Some (Some a)) ->
            exists values xs,
              mapM (getitem nodes) (elements (list_to_set (C := gset string) (proj <$> pairs)))
                = Ok values /\ to_set values = Some <$> xs) as Hside.
  { intros proj Hproj.
    destruct (mapM_getitem_Ok nodes
                (elements (list_to_set (C := gset string) (proj <$> pairs))))
      as (values & Hvalues & Hall).
    { intros k (p & -> & Hp)%elem_of_elements%elem_of_list_to_set%list_elem_of_fmap.
      destruct (Hproj p Hp) as [a Ha]. by eexists. }
    destruct (to_set_spec values) as (_ & Hsub & _).
    destruct (all_entities (to_set values)) as [xs Hxs]; [|by exists values, xs].
    apply Forall_forall. intros v [i Hi]%Hsub%list_elem_of_lookup.
    destruct (Forall2_lookup_r _ _ _ _ _ Hall Hi) as (k & Hk & Hlook).
    apply list_elem_of_lookup_2, elem_of_elements, elem_of_list_to_set, list_elem_of_fmap
      in Hk as (p & -> & Hp).
    destruct (Hproj p Hp) as [a Ha]. rewrite Ha in Hlook. injection Hlook as <-. by eexists. }
  destruct (Hside fst) as (rvalues & rs & Hr1 & Hr2); [intros p Hp; by apply Hres|].
  destruct (Hside snd) as (pvalues & ps & Hp1 & Hp2); [intros p Hp; by apply Hres|].
  rewrite Hr1. simpl. rewrite Hp1. simpl. rewrite Hr2, Hp2, reaction_entities. simpl.
  by eexists.
Qed.

(** *** [node_to_bel] *)

(** C4, on the code: for a node whose name and identifier fields are usable,
    the Protein branch and the Rna branch build the node from exactly the
    (namespace, name, identifier) the resolver returns for the node's
    identifier dict.  The GeneProduct branch unpacks the same triple, takes
    the name and the identifier from it, and passes the constant [HGNC] as
    the namespace: whenever the resolver answers in another namespace, the
    node's namespace is not the resolver's. *)
Theorem gene_like_node_from_resolver `{Collaborators} (node : RawNode)
    (hgnc_manager : Manager) (i n : string) :
  first_if_set (identifier_of node) = Ok i ->
  first_if_set (node_name node) = Ok n ->
  let '(namespace, name, identifier) :=
    get_valid_gene_identifier (ids_dict_of node) hgnc_manager in
  ("Protein" ∈ node_types node ->
     node_to_bel node hgnc_manager = Ok (Some (protein namespace name identifier))) /\
  ("Protein" ∉ node_types node -> "Rna" ∈ node_types node ->
     node_to_bel node hgnc_manager = Ok (Some (rna namespace name identifier))) /\
  ("Protein" ∉ node_types node -> "Rna" ∉ node_types node ->
   "GeneProduct" ∈ node_types node ->
     node_to_bel node hgnc_manager = Ok (Some (gene HGNC name identifier))).
Proof.
  intros Hi Hn. unfold node_to_bel. rewrite Hi, Hn. simpl.
  destruct (parse_id_uri (node_uri_id node)) as [[[? ?] ?] ?].
  destruct (get_valid_gene_identifier (ids_dict_of node) hgnc_manager) as [[ns nm] id].
  split; [|split].
  - intros HP. by rewrite bool_decide_eq_true_2.
  - intros HP HR. rewrite bool_decide_eq_false_2 by done. by rewrite bool_decide_eq_true_2.
  - intros HP HR HG. rewrite !bool_decide_eq_false_2 by done. by rewrite bool_decide_eq_true_2.
Qed.

Lemma gene_like_node_from_resolver_witness :
  @get_valid_gene_identifier Examples.collaborators (ids_dict_of Examples.mdm2_gene) tt
    = ("ENTREZ", "7157", "7157") /\
  @node_to_bel Examples.collaborators Examples.mdm2_gene tt
    = Ok (Some (gene "HGNC" "7157" "7157")) /\
  @node_to_bel Examples.collaborators Examples.tp53 tt
    = Ok (Some (protein "ENTREZ" "7157" "7157")).
Proof.
  split; [reflexivity|]. split.
  - pose proof (@gene_like_node_from_resolver Examples.collaborators Examples.mdm2_gene tt
                  "http://identifiers.org/ncbigene/4193" "MDM2" eq_refl eq_refl) as Hthm.
    simpl in Hthm. destruct Hthm as (_ & _ & Hgene).
    apply Hgene; decide_by_vm.
  - pose proof (@gene_like_node_from_resolver Examples.collaborators Examples.tp53 tt
                  "7157" "TP53" eq_refl eq_refl) as Hthm.
    simpl in Hthm. destruct Hthm as [Hprotein _].
    apply Hprotein. decide_by_vm.
Defined.



(** [node_to_bel] builds entities without parts only. *)
Lemma node_to_bel_simple `{Collaborators} (node : RawNode) (hgnc_manager : Manager)
    (v : PyVal) :
  node_to_bel node hgnc_manager = Ok v -> simple v.
Proof.
  unfold node_to_bel.
  destruct (first_if_set (identifier_of node)) as [i|]; [|done]. simpl.
  destruct (parse_id_uri (node_uri_id node)) as [[[? ?] ?] ?].
  destruct (first_if_set (node_name node)) as [n|]; [|done]. simpl.
  destruct (get_valid_gene_identifier (ids_dict_of node) hgnc_manager) as [[ns nm] id].
  repeat (case_bool_decide; [by intros [= <-]|]). by intros [= <-].
Qed.

Lemma mapM_result_Ok {A B : Type} (f : A -> result B) (l : list A) (out : list B) :
  mapM f l = Ok out -> Forall2 (fun a b => f a = Ok b) l out.
Proof.
  revert out. induction l as [|a l IH]; intros out.
  - intros [= <-]. constructor.
  - rewrite mapM_result_cons. destruct (f a) as [b|] eqn:Hb; [|done].
    destruct (mapM f l) as [k|]; [|done]. intros [= <-]. constructor; [done | by apply IH].
Qed.

(** What [nodes_to_bel] returns: a mapping with the IDs of the records, each
    mapped to what [node_to_bel] returns for its record. *)
Lemma nodes_to_bel_Ok `{Collaborators} (nodes : gmap string RawNode) (hgnc_manager : Manager)
    (resolved : gmap string PyVal) :
  nodes_to_bel nodes hgnc_manager = Ok resolved ->
  (forall id v, resolved !! id = Some v ->
     exists node, nodes !! id = Some node /\ node_to_bel node hgnc_manager = Ok v) /\
  (forall id node, nodes !! id = Some node ->
     exists v, resolved !! id = Some v /\ node_to_bel node hgnc_manager = Ok v).
Proof.
  unfold nodes_to_bel.
  destruct (mapM _ (map_to_list nodes)) as [out|] eqn:Hout; [|done]. simpl. intros [= <-].
  apply mapM_result_Ok in Hout.
  assert (Forall2 (fun (item : string * RawNode) (o : string * PyVal) =>
                     o.1 = item.1 /\ node_to_bel item.2 hgnc_manager = Ok o.2)
                  (map_to_list nodes) out) as Hall.
  { eapply Forall2_impl; [exact Hout|]. intros [id node] [id' v]. simpl.
    destruct (node_to_bel node hgnc_manager) as [w|]; [|done]. simpl. by intros [= <- <-]. }
  assert (out.*1 = (map_to_list nodes).*1) as Hkeys.
  { clear Hout. induction Hall as [|? ? ? ? [Hk _] _ IH]; [done|].
    rewrite !fmap_cons. by f_equal. }
  split.
  - intros id v Hv%elem_of_list_to_map_2. apply list_elem_of_lookup in Hv as [k Hk].
    destruct (Forall2_lookup_r _ _ _ _ _ Hall Hk) as ([id' node] & Hin & Hid & Hnode).
    simpl in *. subst id'. exists node. split; [|done].
    apply elem_of_map_to_list. by eapply list_elem_of_lookup_2.
  - intros id node Hin%elem_of_map_to_list.
    apply list_elem_of_lookup in Hin as [k Hk].
    destruct (Forall2_lookup_l _ _ _ _ _ Hall Hk) as ([id' v] & Hout' & Hid & Hv).
    simpl in *. subst id'. exists v. split; [|done].
    apply elem_of_list_to_map_1.
    + rewrite Hkeys. apply NoDup_fst_map_to_list.
    + by eapply list_elem_of_lookup_2.
Qed.


(** *** Where the nodes and the edges of a converted graph come from *)

Lemma within_inv (x y : BaseEntity) :
  within x y -> y = x \/ exists m, m ∈ parts x /\ within m y.
Proof.
  induction 1 as [|y z _ [-> | (m & Hm & Hmy)] Hz].
  - by left.
  - right. exists z. split; [done | apply within_itself].
  - right. exists m. split; [done | by eapply within_part].
Qed.

Lemma membership_edges_endpoints (y : BaseEntity) (e : Edge) :
  e ∈ membership_edges y ->
  exists m, m ∈ parts y /\ edge_source e = Some y /\ edge_target e = Some m.
Proof.
  destruct y as [| | | | |ms i n|rs ps]; simpl; try by intros []%elem_of_nil.
  - intros (m & -> & Hm)%list_elem_of_fmap. by exists m.
  - intros [(m & -> & Hm)%list_elem_of_fmap | (m & -> & Hm)%list_elem_of_fmap]%elem_of_app;
      exists m; (split; [apply elem_of_app; by auto | done]).
Qed.

Section provenance.
Context `{Collaborators} `{Serialisation}.
Variable complexes : gmap string RawComplex.
Variable resolved : gmap string PyVal.
Hypothesis resolved_simple : map_Forall (fun _ v => simple v) resolved.

Lemma plain_within (x y : BaseEntity) : plain resolved x -> within x y -> y = x.
Proof.
  intros [id Hid] [-> | (m & Hm & _)]%within_inv; [done|].
  pose proof (resolved_simple id _ Hid) as Hparts. simpl in Hparts.
  rewrite Hparts in Hm. by apply elem_of_nil in Hm.
Qed.

Lemma composed_parts (x m : BaseEntity) :
  composed complexes resolved x -> m ∈ parts x -> plain resolved m.
Proof.
  intros (cid & c & _ & (ms & -> & _ & Hms & _)%composite_Ok) Hm. simpl in Hm.
  destruct (Hms m Hm) as (id & _ & Hid). by exists id.
Qed.

Lemma mapped_within (x y : BaseEntity) :
  mapped complexes resolved x -> within x y -> mapped complexes resolved y.
Proof.
  intros [Hx | Hx] Hxy.
  - apply (plain_within _ _ Hx) in Hxy as ->. by left.
  - apply within_inv in Hxy as [-> | (m & Hm & Hmy)]; [by right|].
    pose proof (composed_parts _ _ Hx Hm) as Hplain.
    apply (plain_within _ _ Hplain) in Hmy as ->. by left.
Qed.

Lemma produced_within (x y : BaseEntity) :
  produced complexes resolved x -> within x y -> produced complexes resolved y.
Proof.
  intros [Hx | (rs & ps & -> & Hparts)] Hxy.
  - left. by eapply mapped_within.
  - apply within_inv in Hxy as [-> | (m & Hm & Hmy)].
    + right. by exists rs, ps.
    + left. eapply mapped_within; [|exact Hmy].
      rewrite Forall_forall in Hparts. by apply Hparts.
Qed.

Lemma register_well_formed (x : BaseEntity) (g : BELGraph) :
  produced complexes resolved x ->
  well_formed complexes resolved g -> well_formed complexes resolved (register x g).
Proof.
  intros Hx (Hcl & Hnodes & Hedges).
  destruct (register_registered x g) as ((ns & es & (_ & Hn & He) & Hns & Hes) & _ & Hcl').
  split; [auto|]. split.
  - intros n. rewrite Hn. intros [Hold | Hnew]%elem_of_app; [by apply Hnodes|].
    rewrite Forall_forall in Hns. destruct (Hns n Hnew) as (y & -> & Hy).
    exists y. split; [done | by eapply produced_within].
  - intros e. rewrite He. intros [Hold | Hnew]%elem_of_app; [by apply Hedges|].
    rewrite Forall_forall in Hes. destruct (Hes e Hnew) as (y & Hy & Hin).
    destruct (membership_edges_endpoints y e Hin) as (m & Hm & Hs & Ht).
    exists y, m. split; [done|]. split; [done|].
    split; eapply produced_within; eauto using within_part.
Qed.

Lemma add_edge_well_formed (g g' : BELGraph) (e : Edge) :
  add_edge g e = Ok g' ->
  (forall a, edge_source e = Some a -> produced complexes resolved a) ->
  (forall b, edge_target e = Some b -> produced complexes resolved b) ->
  well_formed complexes resolved g -> well_formed complexes resolved g'.
Proof.
  intros (a & b & Hs & Ht & ->)%add_edge_Ok Ha Hb Hg.
  pose proof (register_well_formed b _ (Hb b Ht) (register_well_formed a g (Ha a Hs) Hg))
    as (Hcl & Hnodes & Hedges).
  destruct (register_registered a g) as (_ & Hhas_a & _).
  destruct (register_registered b (register a g)) as ((ns & es & Hext & _) & Hhas_b & _).
  pose proof (extends_has_node _ _ _ _ _ Hext Hhas_a) as Hhas_a'.
  split; [by eapply add_edge_once_closed|].
  unfold add_edge_once. destruct (has_edge _ e); [done|]. simpl. split; [done|].
  intros e' [Hold | ->%list_elem_of_singleton]%elem_of_app; [by apply Hedges|].
  exists a, b. auto.
Qed.

Lemma resolution_mapped (id : string) (x : BaseEntity) :
  resolution complexes resolved !! id = Some (Some x) -> mapped complexes resolved x.
Proof.
  unfold resolution, composites.
  intros [Hc | [_ Hr]]%lookup_union_Some_raw; [|left; by exists id].
  rewrite lookup_omap in Hc. destruct (complexes !! id) as [c|] eqn:Hcid; [|done].
  simpl in Hc. destruct (composite c resolved) as [y|] eqn:Hy; [|done].
  injection Hc as <-. right. by exists id, c.
Qed.

Lemma add_pair_well_formed (types : gset string) (uri : string) (g g' : BELGraph)
    (pair : string * string) :
  add_pair (resolution complexes resolved) types uri g pair = Ok g' ->
  well_formed complexes resolved g -> well_formed complexes resolved g'.
Proof.
  unfold add_pair.
  destruct (resolution complexes resolved !! pair.1) as [u|] eqn:Hu; [|by intros [= <-]].
  destruct (resolution complexes resolved !! pair.2) as [v|] eqn:Hv; [|by intros [= <-]].
  rewrite add_simple_edge_emitted.
  destruct (emitted types uri u v) as [e|] eqn:He; [|by intros [= <-]].
  destruct (emitted_endpoints _ _ _ _ _ He) as [Hs Ht].
  intros Hadd. apply (add_edge_well_formed _ _ _ Hadd).
  - intros a Ha. left. apply (resolution_mapped pair.1). congruence.
  - intros b Hb. left. apply (resolution_mapped pair.2). congruence.
Qed.

Lemma add_edges_well_formed (g g' : BELGraph) (pairs : list (string * string))
    (att : RawInteraction) :
  add_edges g pairs (resolution complexes resolved) att = Ok g' ->
  well_formed complexes resolved g -> well_formed complexes resolved g'.
Proof.
  intros Hadd Hg.
  destruct (decide ("Conversion" ∈ interaction_types att)) as [Hconv|Hconv].
  - destruct (conversion_Ok _ _ _ _ _ Hconv Hadd) as (rs & ps & -> & Hrs & Hps & _).
    apply register_well_formed; [|done]. right. exists rs, ps. split; [done|].
    apply Forall_app. split; apply Forall_forall.
    + intros x (p & _ & Hp)%Hrs. by eapply resolution_mapped.
    + intros x (p & _ & Hp)%Hps. by eapply resolution_mapped.
  - unfold add_edges in Hadd.
    destruct (parse_id_uri (interaction_uri_id att)) as [[[? ?] ?] ?].
    rewrite bool_decide_eq_false_2 in Hadd by done.
    destruct (for_each_establish
                (add_pair (resolution complexes resolved) (interaction_types att) (interaction_uri_id att))
                (well_formed complexes resolved) (fun _ _ => True) pairs)
      with (l := pairs) (s := g) (s' := g') as [Hend _]; try done.
    intros g0 pair g0' _ Hg0 Hbody. split; [by eapply add_pair_well_formed | done].
Qed.

Lemma complexes_to_bel_well_formed (g g' : BELGraph) (complex_nodes : gmap string PyVal) :
  complexes_to_bel complexes resolved g = Ok (g', complex_nodes) ->
  well_formed complexes resolved g -> well_formed complexes resolved g'.
Proof.
  intros (_ & _ & Hcl' & ns & es & (_ & Hn & He) & Hns & Hes)%complexes_to_bel_Ok
         (Hcl & Hnodes & Hedges).
  split; [auto|]. split.
  - intros n. rewrite Hn. intros [Hold | Hnew]%elem_of_app; [by apply Hnodes|].
    rewrite Forall_forall in Hns. destruct (Hns n Hnew) as (x & Hx & y & -> & Hy).
    exists y. split; [done|]. eapply produced_within; [|exact Hy]. left. by right.
  - intros e. rewrite He. intros [Hold | Hnew]%elem_of_app; [by apply Hedges|].
    rewrite Forall_forall in Hes. destruct (Hes e Hnew) as (x & Hx & y & Hy & Hin).
    destruct (membership_edges_endpoints y e Hin) as (m & Hm & Hs & Ht).
    assert (produced complexes resolved x) as Hpx by (left; by right).
    exists y, m. split; [done|]. split; [done|].
    split; eapply produced_within; eauto using within_part.
Qed.

End provenance.

Lemma new_graph_well_formed `{Collaborators} `{Serialisation}
    (complexes : gmap string RawComplex) (resolved : gmap string PyVal)
    (name : Field) (version description : string) (pathway_id : Field)
    (authors contact : string) :
  well_formed complexes resolved
    (new_graph name version description pathway_id authors contact).
Proof. split; [|split]; intros ? []%elem_of_nil. Qed.

(** *** Which edges a graph has gained *)

Lemma elem_of_concat {A : Type} (x : A) (ls : list (list A)) :
  x ∈ concat ls <-> exists l, x ∈ l /\ l ∈ ls.
Proof.
  induction ls as [|l ls IH]; simpl.
  - split; [by intros []%elem_of_nil | by intros (l & _ & []%elem_of_nil)].
  - rewrite elem_of_app, IH. split.
    + intros [Hx | (l' & Hx & Hl')]; [exists l; split; [done | by left]|].
      exists l'. split; [done | by right].
    + intros (l' & Hx & [-> | Hl']%elem_of_cons); [by left | right; by exists l'].
Qed.

Lemma grown_by_refl (allowed : list Edge) (g : BELGraph) : grown_by allowed g g.
Proof. exists [], []. split; [apply extends_with_refl | constructor]. Qed.

Lemma grown_by_trans (allowed allowed' : list Edge) (g1 g2 g3 : BELGraph) :
  grown_by allowed g1 g2 -> grown_by allowed' g2 g3 -> grown_by (allowed ++ allowed') g1 g3.
Proof.
  intros (ns & es & Hext & Hes) (ns' & es' & Hext' & Hes').
  exists (ns ++ ns'), (es ++ es'). split; [by eapply extends_with_trans|].
  apply Forall_app. split; (eapply Forall_impl; [eassumption|]); intros e [?|?]; auto;
    right; apply elem_of_app; auto.
Qed.

Lemma grown_by_weaken (allowed allowed' : list Edge) (g g' : BELGraph) :
  allowed ⊆ allowed' -> grown_by allowed g g' -> grown_by allowed' g g'.
Proof.
  intros Hsub (ns & es & Hext & Hes). exists ns, es. split; [done|].
  eapply Forall_impl; [exact Hes|]. intros e [?|?]; auto.
Qed.

Lemma grown_by_has_edge `{Serialisation} (allowed : list Edge) (g g' : BELGraph) (e : Edge) :
  grown_by allowed g g' -> has_edge g e = true -> has_edge g' e = true.
Proof. intros (ns & es & Hext & _). by eapply extends_has_edge. Qed.

Lemma grown_by_has_node `{Serialisation} (allowed : list Edge) (g g' : BELGraph)
    (x : BaseEntity) :
  grown_by allowed g g' -> has_node g x = true -> has_node g' x = true.
Proof. intros (ns & es & Hext & _). by eapply extends_has_node. Qed.

Lemma grown_by_metadata (allowed : list Edge) (g g' : BELGraph) :
  grown_by allowed g g' -> same_metadata g g'.
Proof. by intros (ns & es & (Hmeta & _) & _). Qed.

Lemma register_grown `{Serialisation} (x : BaseEntity) (g : BELGraph) :
  grown_by [] g (register x g).
Proof.
  destruct (register_registered x g) as ((ns & es & Hext & _ & Hes) & _).
  exists ns, es. split; [done|]. eapply Forall_impl; [exact Hes|].
  intros e He. left. by eapply edge_within_membership.
Qed.

Lemma add_edge_grown `{Serialisation} (g g' : BELGraph) (e : Edge) :
  add_edge g e = Ok g' -> grown_by [e] g g' /\ has_edge g' e = true.
Proof.
  intros (a & b & Hs & Ht & ->)%add_edge_Ok. split; [|apply add_edge_once_has_edge].
  apply (grown_by_trans [] [e] _ (register b (register a g))).
  - apply (grown_by_trans [] [] _ (register a g)); apply register_grown.
  - exists [], (if has_edge (register b (register a g)) e then [] else [e]).
    split; [apply add_edge_once_extends|].
    destruct (has_edge _ e); constructor; [|constructor]. right. by left.
Qed.

Lemma add_pair_grown `{Serialisation} (nodes : gmap string PyVal) (types : gset string)
    (uri : string) (g g' : BELGraph) (pair : string * string) :
  add_pair nodes types uri g pair = Ok g' ->
  grown_by (option_list (pair_edge nodes types uri pair)) g g' /\
  forall e, pair_edge nodes types uri pair = Some e -> has_edge g' e = true.
Proof.
  unfold add_pair, pair_edge.
  destruct (nodes !! pair.1) as [u|]; simpl;
    [|intros [= <-]; split; [apply grown_by_refl | done]].
  destruct (nodes !! pair.2) as [v|]; simpl;
    [|intros [= <-]; split; [apply grown_by_refl | done]].
  rewrite add_simple_edge_emitted.
  destruct (emitted types uri u v) as [e|];
    [|intros [= <-]; split; [apply grown_by_refl | done]].
  intros [Hgrown Hhas]%add_edge_grown. split; [done|]. by intros e' [= <-].
Qed.

Lemma add_pairs_grown `{Serialisation} (nodes : gmap string PyVal) (types : gset string)
    (uri : string) (pairs : list (string * string)) (g g' : BELGraph) :
  for_each (add_pair nodes types uri) pairs g = Ok g' ->
  grown_by (omap (pair_edge nodes types uri) pairs) g g' /\
  forall e, e ∈ omap (pair_edge nodes types uri) pairs -> has_edge g' e = true.
Proof.
  intros Hrun.
  destruct (for_each_establish (add_pair nodes types uri)
              (grown_by (omap (pair_edge nodes types uri) pairs) g)
              (fun pair s => forall e, pair_edge nodes types uri pair = Some e ->
                                       has_edge s e = true) pairs)
    with (l := pairs) (s := g) (s' := g') as (Hend & Hall & _); try done.
  - intros s b s' Hb Hs [Hgrown Hhas]%add_pair_grown. split; [|done].
    apply (grown_by_weaken _ _ _ _ (fun e He => He)) in Hs.
    eapply grown_by_weaken; [|exact (grown_by_trans _ _ _ _ _ Hs Hgrown)].
    intros e [He | He]%elem_of_app; [done|].
    apply list_elem_of_omap. exists b. split; [done|].
    destruct (pair_edge nodes types uri b); [|by apply elem_of_nil in He].
    simpl in He. by apply list_elem_of_singleton in He as ->.
  - intros s b b' s' _ _ [Hgrown _]%add_pair_grown Hb' e He.
    eapply grown_by_has_edge; [exact Hgrown | by apply Hb'].
  - apply grown_by_refl.
  - split; [done|]. intros e (pair & Hpair & He)%list_elem_of_omap. by apply (Hall pair).
Qed.

(** What [add_edges] adds for one interaction. *)
Lemma add_edges_grown `{Collaborators} `{Serialisation} (g g' : BELGraph)
    (nodes : gmap string PyVal) (i : RawInteraction) :
  add_edges g (participants i) nodes i = Ok g' ->
  grown_by (interaction_edges nodes i) g g' /\
  forall e, e ∈ interaction_edges nodes i -> has_edge g' e = true.
Proof.
  intros Hadd. unfold interaction_edges.
  destruct (decide ("Conversion" ∈ interaction_types i)) as [Hconv|Hconv].
  - rewrite bool_decide_eq_true_2 by done.
    destruct (conversion_Ok _ _ _ _ _ Hconv Hadd) as (rs & ps & -> & _).
    split; [apply register_grown | by intros e []%elem_of_nil].
  - rewrite bool_decide_eq_false_2 by done. unfold add_edges in Hadd.
    destruct (parse_id_uri (interaction_uri_id i)) as [[[? ?] ?] ?].
    rewrite bool_decide_eq_false_2 in Hadd by done. by apply add_pairs_grown.
Qed.

Lemma interactions_grown `{Collaborators} `{Serialisation} (nodes : gmap string PyVal)
    (interactions : list RawInteraction) (g g' : BELGraph) :
  for_each (fun graph interaction =>
              add_edges graph (participants interaction) nodes interaction)
           interactions g = Ok g' ->
  grown_by (concat (interaction_edges nodes <$> interactions)) g g' /\
  forall i e, i ∈ interactions -> e ∈ interaction_edges nodes i -> has_edge g' e = true.
Proof.
  intros Hrun.
  destruct (for_each_establish
              (fun graph interaction =>
                 add_edges graph (participants interaction) nodes interaction)
              (grown_by (concat (interaction_edges nodes <$> interactions)) g)
              (fun i s => forall e, e ∈ interaction_edges nodes i -> has_edge s e = true)
              interactions)
    with (l := interactions) (s := g) (s' := g') as (Hend & Hall & _); try done.
  - intros s i s' Hi Hs [Hgrown Hhas]%add_edges_grown. split; [|done].
    eapply grown_by_weaken; [|exact (grown_by_trans _ _ _ _ _ Hs Hgrown)].
    intros e [He | He]%elem_of_app; [done|].
    apply elem_of_concat. exists (interaction_edges nodes i). split; [done|].
    apply list_elem_of_fmap. by exists i.
  - intros s i i' s' _ _ [Hgrown _]%add_edges_grown Hi' e He.
    eapply grown_by_has_edge; [exact Hgrown | by apply Hi'].
  - apply grown_by_refl.
  - split; [done|]. intros i e Hi He. by apply (Hall i).
Qed.

Lemma complexes_to_bel_grown `{Collaborators} `{Serialisation}
    (complexes : gmap string RawComplex) (nodes : gmap string PyVal) (g g' : BELGraph)
    (complex_nodes : gmap string PyVal) :
  complexes_to_bel complexes nodes g = Ok (g', complex_nodes) -> grown_by [] g g'.
Proof.
  intros (_ & _ & _ & ns & es & Hext & _ & Hes)%complexes_to_bel_Ok.
  exists ns, es. split; [done|]. eapply Forall_impl; [exact Hes|].
  intros e (x & _ & He). left. by eapply edge_within_membership.
Qed.

(** *** [convert_to_bel] *)

Lemma convert_to_bel_Ok `{Collaborators} `{Serialisation} (nodes : gmap string RawNode)
    (complexes : gmap string RawComplex) (interactions : list RawInteraction)
    (pathway_info : gmap string Field) (hgnc_manager : Manager) (g : BELGraph) :
  convert_to_bel nodes complexes interactions pathway_info hgnc_manager = Ok g ->
  exists title description pathway_id resolved g1,
    pathway_info !! "title" = Some title /\
    pathway_info !! "description" = Some description /\
    pathway_info !! "pathway_id" = Some pathway_id /\
    nodes_to_bel nodes hgnc_manager = Ok resolved /\
    complexes_to_bel complexes resolved
      (new_graph title "1.0.0" (evaluate_wikipathways_metadata description) pathway_id
         "Sarah Mubeen, Daniel Domingo-Fernández & Josep Marín-Llaó"
         "daniel.domingo.fernandez@scai.fraunhofer.de")
      = Ok (g1, composites complexes resolved) /\
    for_each (fun graph interaction =>
                add_edges graph (participants interaction)
                          (resolution complexes resolved) interaction)
             interactions g1 = Ok g.
Proof.
  unfold convert_to_bel, getitem.
  destruct (pathway_info !! "title") as [title|]; simpl; [|discriminate].
  destruct (pathway_info !! "description") as [description|]; simpl; [|discriminate].
  destruct (pathway_info !! "pathway_id") as [pathway_id|]; simpl; [|discriminate].
  destruct (nodes_to_bel nodes hgnc_manager) as [resolved|e]; simpl; [|discriminate].
  destruct (complexes_to_bel complexes resolved _) as [[g1 cx]|e] eqn:Hcx; simpl;
    [|discriminate].
  intros Hg. exists title, description, pathway_id, resolved, g1.
  repeat (split; [reflexivity|]).
  destruct (complexes_to_bel_Ok _ _ _ _ _ Hcx) as [-> _]. done.
Qed.

Lemma nodes_to_bel_simple `{Collaborators} (nodes : gmap string RawNode)
    (hgnc_manager : Manager) (resolved : gmap string PyVal) :
  nodes_to_bel nodes hgnc_manager = Ok resolved ->
  map_Forall (fun _ v => simple v) resolved.
Proof.
  intros [Hvalues _]%nodes_to_bel_Ok id v Hv.
  destruct (Hvalues id v Hv) as (node & _ & Hnode). by eapply node_to_bel_simple.
Qed.

(** The graph [convert_to_bel] returns. *)
Lemma convert_to_bel_well_formed `{Collaborators} `{Serialisation}
    (nodes : gmap string RawNode) (complexes : gmap string RawComplex)
    (interactions : list RawInteraction) (pathway_info : gmap string Field)
    (hgnc_manager : Manager) (g : BELGraph) :
  convert_to_bel nodes complexes interactions pathway_info hgnc_manager = Ok g ->
  exists resolved,
    nodes_to_bel nodes hgnc_manager = Ok resolved /\
    well_formed complexes resolved g /\
    (forall e, e ∈ graph_edges g ->
       membership_edge e \/
       exists i, i ∈ interactions /\
                 e ∈ interaction_edges (resolution complexes resolved) i) /\
    (forall i e, i ∈ interactions ->
       e ∈ interaction_edges (resolution complexes resolved) i ->
       has_edge g e = true) /\
    (forall cid c, complexes !! cid = Some c ->
       exists x, composite c resolved = Ok x /\ has_node g x = true).
Proof.
  intros (title & description & pathway_id & resolved & g1 & _ & _ & _ & Hres & Hcx & Hrun)
    %convert_to_bel_Ok.
  exists resolved. split; [done|].
  pose proof (nodes_to_bel_simple _ _ _ Hres) as Hsimple.
  pose proof (complexes_to_bel_grown _ _ _ _ _ Hcx) as Hgrown1.
  destruct (interactions_grown _ _ _ _ Hrun) as [Hgrown2 Hhas].
  split; [|split; [|split; [done|]]].
  - destruct (for_each_establish
                (fun graph interaction =>
                   add_edges graph (participants interaction)
                             (resolution complexes resolved) interaction)
                (well_formed complexes resolved) (fun _ _ => True) interactions)
      with (l := interactions) (s := g1) (s' := g) as [Hend _]; try done.
    + intros s i s' _ Hs Hbody. split; [|done].
      by eapply (add_edges_well_formed complexes resolved Hsimple).
    + eapply (complexes_to_bel_well_formed complexes resolved Hsimple); [exact Hcx|].
      apply new_graph_well_formed.
  - destruct (grown_by_trans _ _ _ _ _ Hgrown1 Hgrown2) as (ns & es & (_ & _ & He) & Hes).
    simpl in He. intros e. rewrite He. intros Hin. rewrite Forall_forall in Hes.
    destruct (Hes e Hin) as [? | (l & Hl & (i & -> & Hi)%list_elem_of_fmap)%elem_of_concat];
      [by left | right; by exists i].
  - intros cid c Hc.
    destruct (complexes_to_bel_Ok _ _ _ _ _ Hcx) as (_ & Hall & _).
    destruct (Hall cid c Hc) as (x & Hx & Hnode). exists x. split; [done|].
    by eapply grown_by_has_node.
Qed.








End ConvertToBelFacts.

(** ** The universe merger *)

Module ExportUtilsFacts.
Import ExportUtils Classification PythonFacts PybelFacts.

(** *** Generators *)

Lemma generate_app {A B : Type} (body : A -> result (option B)) (pre rest : list A) :
  generate body (pre ++ rest) =
  match generate body pre with
  | (gs, Exhausted) => let '(gs', o) := generate body rest in (gs ++ gs', o)
  | (gs, Raised e) => (gs, Raised e)
  end.
Proof.
  induction pre as [|file pre IH]; simpl.
  - by destruct (generate body rest).
  - destruct (body file) as [[g|]|e]; [| exact IH | reflexivity].
    rewrite IH. destruct (generate body pre) as [gs [|e]]; [|reflexivity].
    by destruct (generate body rest).
Qed.

Lemma generate_raise {A B : Type} (body : A -> result (option B)) (file : A)
    (rest : list A) (e : exn) :
  body file = Raise e -> generate body (file :: rest) = ([], Raised e).
Proof. intros Hbody. simpl. by rewrite Hbody. Qed.

(** *** One turn of the loop *)

Lemma loop_body_classified `{Environment} (kegg_path reactome_path wikipathways_path : string)
    (kegg_pickles reactome_pickles wp_pickles : list string) (flatten normalize_names : bool)
    (file : string) :
  endswith file ".pickle" = true ->
  loop_body kegg_path reactome_path wikipathways_path kegg_pickles reactome_pickles
            wp_pickles flatten normalize_names file =
  match folder_of kegg_path reactome_path wikipathways_path kegg_pickles reactome_pickles
                  wp_pickles file with
  | Some (path, database) =>
      graph ← load_from path database flatten normalize_names file; Ok (Some graph)
  | None => Ok None
  end.
Proof.
  intros Hend. unfold loop_body, folder_of. rewrite Hend. simpl.
  repeat (case_bool_decide; [reflexivity|]). reflexivity.
Qed.

Lemma load_from_Raise `{Environment} (path database : string) (flatten normalize_names : bool)
    (file : string) (e : exn) :
  from_pickle (os_path_join path file) = Raise e ->
  load_from path database flatten normalize_names file = Raise e.
Proof. intros Hload. unfold load_from. by rewrite Hload. Qed.

Lemma add_annotation_key_edges (g : BELGraph) :
  Forall2 (fun e e' => match edge_annotations e with
                       | None => e' = with_annotations e (Some ∅)
                       | Some _ => e' = e
                       end)
          (graph_edges g) (graph_edges (add_annotation_key g)).
Proof.
  unfold add_annotation_key. simpl.
  induction (graph_edges g) as [|e es IH]; [constructor|].
  rewrite fmap_cons. constructor; [|exact IH]. by destruct (edge_annotations e).
Qed.

(** What a branch of the loop makes of the graph it loaded. *)
Lemma load_from_Ok `{Environment} (path database : string) (flatten normalize_names : bool)
    (file : string) (g0 : BELGraph) :
  from_pickle (os_path_join path file) = Ok g0 ->
  let g1 := if flatten then flatten_complex_nodes g0 else g0 in
  let g2 := if normalize_names then normalize_graph_names g1 database else g1 in
  exists g,
    load_from path database flatten normalize_names file = Ok g /\
    annotation_list g !! "database" = Some {[KEGG; REACTOME; WIKIPATHWAYS]} /\
    Forall (tagged database) (graph_edges g) /\
    Forall2 (fun e e' =>
               let a := default ∅ (edge_annotations e) in
               e' = with_annotations e
                      (Some (<["database" := {[database]} ∪ default ∅ (a !! "database")]> a)))
            (graph_edges g2) (graph_edges g).
Proof.
  intros Hload g1 g2. unfold load_from. rewrite Hload. simpl. fold g1. fold g2.
  unfold add_annotation_value.
  rewrite bool_decide_eq_true_2.
  2:{ simpl. rewrite dom_insert_L. set_solver. }
  eexists. split; [reflexivity|]. simpl. split; [apply lookup_insert_eq|].
  induction (graph_edges g2) as [|e es [IH1 IH2]]; [by split; constructor|].
  rewrite !fmap_cons. split; constructor; try done.
  - unfold tagged, assert_value. destruct e as [? ? ? ? ? ? [a|]]; simpl.
    + eexists _, _. split; [reflexivity|]. split; [apply lookup_insert_eq | set_solver].
    + eexists _, _. split; [reflexivity|]. split; [apply lookup_insert_eq | set_solver].
  - unfold assert_value. by destruct e as [? ? ? ? ? ? [a|]].
Qed.

(** C2, as stated, fails: the first KEGG pickle cannot be loaded, the
    exception leaves the generator, and the pickles after it, which can be
    loaded, are never reached. *)
Lemma unreadable_pickle_ends_iteration :
  @_iterate_universe_graphs (Examples.environment Examples.load_but_broken)
     "/bel/kegg" "/bel/reactome" "/bel/wikipathways" true true
    = ([], Raised (UnpicklingError "/bel/kegg/broken.pickle")) /\
  Examples.load_but_broken "/bel/kegg/shared.pickle" = Ok Examples.pickled /\
  Examples.load_but_broken "/bel/wikipathways/WP254.pickle" = Ok Examples.pickled.
Proof. split; [|split]; vm_compute; reflexivity. Qed.

(** C2, amended: a failure while loading a file is not caught.  It leaves
    the loop of [_iterate_universe_graphs]: the graphs of the files before it
    have been yielded, and no later file is loaded. *)
Theorem load_failure_ends_iteration `{Environment}
    (kegg_path reactome_path wikipathways_path : string) (flatten normalize_names : bool)
    (pre post : list string) (file path database : string) (e : exn) :
  let kegg_pickles := get_paths_in_folder kegg_path in
  let reactome_pickles := get_paths_in_folder reactome_path in
  let wp_pickles := get_paths_in_folder wikipathways_path in
  let body := loop_body kegg_path reactome_path wikipathways_path kegg_pickles
                        reactome_pickles wp_pickles flatten normalize_names in
  kegg_pickles ++ reactome_pickles ++ wp_pickles = pre ++ file :: post ->
  (generate body pre).2 = Exhausted ->
  endswith file ".pickle" = true ->
  folder_of kegg_path reactome_path wikipathways_path kegg_pickles reactome_pickles
            wp_pickles file = Some (path, database) ->
  from_pickle (os_path_join path file) = Raise e ->
  _iterate_universe_graphs kegg_path reactome_path wikipathways_path flatten normalize_names
    = ((generate body pre).1, Raised e).
Proof.
  intros kegg_pickles reactome_pickles wp_pickles body Hfiles Hpre Hend Hfolder Hload.
  unfold _iterate_universe_graphs, get_all_pickles.
  fold kegg_pickles reactome_pickles wp_pickles. fold body.
  rewrite Hfiles, generate_app.
  destruct (generate body pre) as [gs o]. simpl in Hpre. subst o.
  rewrite (generate_raise body file post e).
  - simpl. by rewrite app_nil_r.
  - unfold body. rewrite loop_body_classified by done. rewrite Hfolder.
    by rewrite (load_from_Raise _ _ _ _ _ e Hload).
Qed.

Lemma load_failure_ends_iteration_witness :
  @_iterate_universe_graphs (Examples.environment Examples.load_but_broken)
     "/bel/kegg" "/bel/reactome" "/bel/wikipathways" true true
    = ([], Raised (UnpicklingError "/bel/kegg/broken.pickle")).
Proof.
  apply (@load_failure_ends_iteration (Examples.environment Examples.load_but_broken)
           "/bel/kegg" "/bel/reactome" "/bel/wikipathways" true true
           [] ["shared.pickle"; "notes.txt"; "shared.pickle"; "WP254.pickle"]
           "broken.pickle" "/bel/kegg" "kegg").
  - reflexivity.
  - reflexivity.
  - reflexivity.
  - reflexivity.
  - reflexivity.
Defined.

(** C8: when the loop has loaded the graph of a file classified under a
    database, the graph it yields declares exactly the three database names
    as the domain of the [database] annotation, every edge of it has an
    annotations entry that asserts the file's database under [database], and
    each edge is the edge of the loaded (flattened, renamed) graph with only
    that assertion added: to an empty entry where the edge had none, to the
    edge's own entry, otherwise unchanged, where it had one.
    [add_annotation_key] by itself gives an edge without an entry an empty
    one and leaves the other edges as they are. *)
Theorem loaded_graph_is_annotated `{Environment}
    (kegg_path reactome_path wikipathways_path : string)
    (kegg_pickles reactome_pickles wp_pickles : list string) (flatten normalize_names : bool)
    (file path database : string) (g0 : BELGraph) :
  endswith file ".pickle" = true ->
  folder_of kegg_path reactome_path wikipathways_path kegg_pickles reactome_pickles
            wp_pickles file = Some (path, database) ->
  from_pickle (os_path_join path file) = Ok g0 ->
  let g1 := if flatten then flatten_complex_nodes g0 else g0 in
  let g2 := if normalize_names then normalize_graph_names g1 database else g1 in
  exists g,
    loop_body kegg_path reactome_path wikipathways_path kegg_pickles reactome_pickles
              wp_pickles flatten normalize_names file = Ok (Some g) /\
    annotation_list g !! "database" = Some {[KEGG; REACTOME; WIKIPATHWAYS]} /\
    Forall (tagged database) (graph_edges g) /\
    Forall2 (fun e e' =>
               let a := default ∅ (edge_annotations e) in
               e' = with_annotations e
                      (Some (<["database" := {[database]} ∪ default ∅ (a !! "database")]> a)))
            (graph_edges g2) (graph_edges g) /\
    Forall2 (fun e e' => match edge_annotations e with
                         | None => e' = with_annotations e (Some ∅)
                         | Some _ => e' = e
                         end)
            (graph_edges g2) (graph_edges (add_annotation_key g2)).
Proof.
  intros Hend Hfolder Hload g1 g2.
  destruct (load_from_Ok path database flatten normalize_names file g0 Hload)
    as (g & Hg & Hlist & Htagged & Hedges).
  exists g. rewrite loop_body_classified by done. rewrite Hfolder, Hg.
  split; [reflexivity|]. split; [done|]. split; [done|]. split; [done|].
  apply add_annotation_key_edges.
Qed.

Lemma loaded_graph_is_annotated_witness :
  exists g,
    @loop_body (Examples.environment Examples.load_all)
       "/bel/kegg" "/bel/reactome" "/bel/wikipathways"
       ["broken.pickle"; "shared.pickle"; "notes.txt"] ["shared.pickle"] ["WP254.pickle"]
       true true "WP254.pickle" = Ok (Some g) /\
    Forall (tagged "wikipathways") (graph_edges g).
Proof.
  destruct (@loaded_graph_is_annotated (Examples.environment Examples.load_all)
              "/bel/kegg" "/bel/reactome" "/bel/wikipathways"
              ["broken.pickle"; "shared.pickle"; "notes.txt"] ["shared.pickle"]
              ["WP254.pickle"] true true "WP254.pickle" "/bel/wikipathways" "wikipathways"
              Examples.pickled) as (g & Hbody & _ & Htagged & _).
  - reflexivity.
  - reflexivity.
  - reflexivity.
  - exists g. split; [exact Hbody | exact Htagged].
Defined.

(** What a branch of the loop keeps of the graph it loaded. *)
Lemma load_from_keeps `{Environment} (path database : string) (flatten normalize_names : bool)
    (file : string) (g0 g : BELGraph) :
  from_pickle (os_path_join path file) = Ok g0 ->
  load_from path database flatten normalize_names file = Ok g ->
  let g1 := if flatten then flatten_complex_nodes g0 else g0 in
  let g2 := if normalize_names then normalize_graph_names g1 database else g1 in
  graph_nodes g = graph_nodes g2 /\
  graph_name g = graph_name g2 /\ graph_version g = graph_version g2 /\
  graph_description g = graph_description g2 /\ graph_pathway_id g = graph_pathway_id g2 /\
  graph_authors g = graph_authors g2 /\ graph_contact g = graph_contact g2 /\
  annotation_list g = <["database" := {[KEGG; REACTOME; WIKIPATHWAYS]}]> (annotation_list g2).
Proof.
  intros Hload. unfold load_from. rewrite Hload. simpl.
  unfold add_annotation_value. rewrite bool_decide_eq_true_2.
  2:{ simpl. rewrite dom_insert_L. set_solver. }
  intros [= <-]. by repeat split.
Qed.

(** C9, as stated, fails: a file name that does not end in [.pickle] is
    passed over whatever listings hold it.  [hsa04210.bel] is a file of the
    KEGG folder and of the Reactome folder and can be unpickled, and the
    merger loads the three other entries of the listings only. *)
Lemma listed_twice_but_never_loaded :
  "hsa04210.bel" ∈ @get_paths_in_folder Examples.renamed_environment "/bel/kegg" /\
  "hsa04210.bel" ∈ @get_paths_in_folder Examples.renamed_environment "/bel/reactome" /\
  is_Some (match @from_pickle Examples.renamed_environment "/bel/kegg/hsa04210.bel" with
           | Ok g => Some g
           | Raise _ => None
           end) /\
  @loop_body Examples.renamed_environment "/bel/kegg" "/bel/reactome" "/bel/wikipathways"
    (@get_paths_in_folder Examples.renamed_environment "/bel/kegg")
    (@get_paths_in_folder Examples.renamed_environment "/bel/reactome")
    (@get_paths_in_folder Examples.renamed_environment "/bel/wikipathways")
    true true "hsa04210.bel" = Ok None /\
  (let '(graphs, outcome) :=
     @_iterate_universe_graphs Examples.renamed_environment
        "/bel/kegg" "/bel/reactome" "/bel/wikipathways" true true in
   graph_name <$> graphs =
     [Str "/bel/kegg/shared.pickle"; Str "/bel/kegg/shared.pickle";
      Str "/bel/wikipathways/WP254.pickle"] /\
   outcome = Exhausted).
Proof.
  split; [decide_by_vm|]. split; [decide_by_vm|]. split; [by eexists|].
  split; [reflexivity|]. vm_compute. by split.
Qed.

(** C9, amended: a file name that ends in [.pickle] is classified by the
    listings in the order KEGG, Reactome, WikiPathways, and the first listing
    that has the name decides, whatever the later listings hold.  When the
    loop gets to an entry [file] of the concatenated listings (the entries
    before it are done without an exception) and the pickle at the deciding
    folder joined with [file] can be read, the generator yields, after the
    graphs of the entries before, the graph read from that path, flattened
    and renamed for the deciding database as asked: its nodes and metadata
    are kept, the three database names are declared as the domain of the
    [database] annotation, and every edge is the edge read with the deciding
    database asserted under [database].  The loop then goes on with the
    entries after [file].  A name in the KEGG listing is read from the KEGG
    folder and tagged KEGG; a name in the Reactome listing and not in the
    KEGG listing is read from the Reactome folder and tagged Reactome; any
    other entry is read from the WikiPathways folder and tagged
    WikiPathways. *)
Theorem first_listing_wins `{Environment}
    (kegg_path reactome_path wikipathways_path : string) (flatten normalize_names : bool)
    (pre post : list string) (file : string) :
  let kegg_pickles := get_paths_in_folder kegg_path in
  let reactome_pickles := get_paths_in_folder reactome_path in
  let wp_pickles := get_paths_in_folder wikipathways_path in
  let body := loop_body kegg_path reactome_path wikipathways_path kegg_pickles
                        reactome_pickles wp_pickles flatten normalize_names in
  let loaded (path database : string) :=
    forall g0, from_pickle (os_path_join path file) = Ok g0 ->
      let g1 := if flatten then flatten_complex_nodes g0 else g0 in
      let g2 := if normalize_names then normalize_graph_names g1 database else g1 in
      exists g rest outcome,
        _iterate_universe_graphs kegg_path reactome_path wikipathways_path
                                 flatten normalize_names
          = ((generate body pre).1 ++ g :: rest, outcome) /\
        generate body post = (rest, outcome) /\
        graph_nodes g = graph_nodes g2 /\
        graph_name g = graph_name g2 /\ graph_version g = graph_version g2 /\
        graph_description g = graph_description g2 /\
        graph_pathway_id g = graph_pathway_id g2 /\
        graph_authors g = graph_authors g2 /\ graph_contact g = graph_contact g2 /\
        annotation_list g
          = <["database" := {[KEGG; REACTOME; WIKIPATHWAYS]}]> (annotation_list g2) /\
        Forall (tagged database) (graph_edges g) /\
        Forall2 (fun e e' =>
                   let a := default ∅ (edge_annotations e) in
                   e' = with_annotations e
                          (Some (<["database" := {[database]} ∪ default ∅ (a !! "database")]> a)))
                (graph_edges g2) (graph_edges g) in
  kegg_pickles ++ reactome_pickles ++ wp_pickles = pre ++ file :: post ->
  (generate body pre).2 = Exhausted ->
  endswith file ".pickle" = true ->
  (file ∈ kegg_pickles -> loaded kegg_path KEGG) /\
  (file ∉ kegg_pickles -> file ∈ reactome_pickles -> loaded reactome_path REACTOME) /\
  (file ∉ kegg_pickles -> file ∉ reactome_pickles -> loaded wikipathways_path WIKIPATHWAYS).
Proof.
  intros kegg_pickles reactome_pickles wp_pickles body loaded Hfiles Hpre Hend.
  assert (forall path database,
            folder_of kegg_path reactome_path wikipathways_path kegg_pickles
                      reactome_pickles wp_pickles file = Some (path, database) ->
            loaded path database) as Hclassified.
  { intros path database Hfolder g0 Hload g1 g2.
    destruct (load_from_Ok path database flatten normalize_names file g0 Hload)
      as (g & Hg & _ & Htagged & Hedges).
    destruct (load_from_keeps path database flatten normalize_names file g0 g Hload Hg)
      as (Hnodes & Hname & Hversion & Hdescription & Hid & Hauthors & Hcontact & Hdomain).
    destruct (generate body post) as [rest outcome] eqn:Hpost.
    exists g, rest, outcome. split; [|by repeat (split; [done|])].
    unfold _iterate_universe_graphs, get_all_pickles.
    fold kegg_pickles reactome_pickles wp_pickles. fold body.
    rewrite Hfiles, generate_app.
    destruct (generate body pre) as [gs o]. simpl in Hpre. subst o. simpl.
    assert (body file = Ok (Some g)) as ->.
    { unfold body. rewrite loop_body_classified by done. by rewrite Hfolder, Hg. }
    by rewrite Hpost. }
  assert (file ∈ kegg_pickles ++ reactome_pickles ++ wp_pickles) as Hin.
  { rewrite Hfiles. apply elem_of_app. right. by left. }
  split; [|split].
  - intros Hk. apply Hclassified. unfold folder_of. by rewrite bool_decide_eq_true_2.
  - intros Hk Hr. apply Hclassified. unfold folder_of.
    rewrite bool_decide_eq_false_2 by done. by rewrite bool_decide_eq_true_2.
  - intros Hk Hr. apply Hclassified. unfold folder_of.
    rewrite !bool_decide_eq_false_2 by done. rewrite bool_decide_eq_true_2; [done|].
    apply elem_of_app in Hin as [? | [? | ?]%elem_of_app]; done.
Qed.

Lemma first_listing_wins_witness :
  exists g rest outcome,
    @_iterate_universe_graphs Examples.renamed_environment
       "/bel/kegg" "/bel/reactome" "/bel/wikipathways" true true
      = ((@generate string BELGraph
            (@loop_body Examples.renamed_environment
               "/bel/kegg" "/bel/reactome" "/bel/wikipathways"
               ["hsa04210.bel"; "shared.pickle"] ["hsa04210.bel"; "shared.pickle"]
               ["WP254.pickle"] true true)
            ["hsa04210.bel"; "shared.pickle"; "hsa04210.bel"]).1 ++ g :: rest, outcome) /\
    graph_name g = Str "/bel/kegg/shared.pickle" /\
    graph_description g = "kegg" /\
    Forall (tagged "kegg") (graph_edges g) /\
    length (graph_edges g) = 2.
Proof.
  destruct (@first_listing_wins Examples.renamed_environment
              "/bel/kegg" "/bel/reactome" "/bel/wikipathways" true true
              ["hsa04210.bel"; "shared.pickle"; "hsa04210.bel"] ["WP254.pickle"]
              "shared.pickle") as [Hkegg _].
  - reflexivity.
  - reflexivity.
  - reflexivity.
  - destruct (Hkegg ltac:(decide_by_vm) _ eq_refl)
      as (g & rest & outcome & Hrun & _ & _ & Hname & _ & Hdescription & _ & _ & _ & _ &
          Htagged & Hedges).
    exists g, rest, outcome. split; [exact Hrun|]. split; [exact Hname|].
    split; [exact Hdescription|]. split; [exact Htagged|].
    apply Forall2_length in Hedges. rewrite <- Hedges. reflexivity.
Defined.

End ExportUtilsFacts.

(** * Further properties *)

(** ** The converter, function by function *)

Module ConvertToBelExtras.
Import ConvertToBel Spec Views PythonFacts PybelFacts ConvertToBelFacts.

(** *** [complex_to_bel] and [complexes_to_bel] *)

Lemma membership_edges_simple (x : BaseEntity) : parts x = [] -> membership_edges x = [].
Proof.
  destruct x as [| | | | |ms i n|rs ps]; simpl; try done.
  - by intros ->.
  - by intros [-> ->]%app_eq_nil.
Qed.

(** Within an entity whose parts have no parts there is the entity and
    there are its parts. *)
Lemma within_flat (x y : BaseEntity) :
  Forall (fun m => parts m = []) (parts x) -> within x y -> y = x \/ y ∈ parts x.
Proof.
  intros Hflat [-> | (m & Hm & Hmy)]%within_inv; [by left|].
  rewrite Forall_forall in Hflat.
  apply within_inv in Hmy as [-> | (m' & Hm' & _)]; [by right|].
  rewrite (Hflat m Hm) in Hm'. by apply elem_of_nil in Hm'.
Qed.

Lemma edge_within_flat (x : BaseEntity) (e : Edge) :
  Forall (fun m => parts m = []) (parts x) -> edge_within x e -> e ∈ membership_edges x.
Proof.
  intros Hflat (y & Hy & He). destruct (within_flat x y Hflat Hy) as [-> | Hpart]; [done|].
  rewrite Forall_forall in Hflat.
  rewrite (membership_edges_simple y (Hflat y Hpart)) in He. by apply elem_of_nil in He.
Qed.

(** Registering an entity whose parts have no parts. *)
Lemma register_flat `{Serialisation} (x : BaseEntity) (g : BELGraph) :
  Forall (fun m => parts m = []) (parts x) ->
  has_node (register x g) x = true /\
  (has_node g x = true -> register x g = g) /\
  (has_node g x = false ->
     forall e, e ∈ membership_edges x -> has_edge (register x g) e = true) /\
  (has_node g x = false -> forall m, m ∈ parts x -> has_node (register x g) m = true) /\
  exists ns es,
    extends_with g (register x g) ns es /\
    Forall (fun n => n = Some x \/ exists m, m ∈ parts x /\ n = Some m) ns /\
    Forall (fun e => e ∈ membership_edges x) es.
Proof.
  intros Hflat.
  destruct (register_registered x g) as ((ns & es & Hext & Hns & Hes) & Hhas & _).
  split; [done|]. split; [apply register_present|].
  split; [intros Hnew; by apply register_links|].
  split; [intros Hnew; by apply register_links|].
  exists ns, es. split; [done|]. split.
  - eapply Forall_impl; [exact Hns|]. intros n (y & -> & Hy).
    destruct (within_flat x y Hflat Hy) as [-> | Hpart]; [by left | right; by exists y].
  - eapply Forall_impl; [exact Hes|]. intros e He. by apply edge_within_flat.
Qed.

(** X4: for a complex with a member ID that is resolved, where every
    resolved member is an entity without parts, [complex_to_bel] returns the
    complex entity that pybel builds of the resolved members: its members
    are the entities of the member IDs that are keys of the mapping, each
    once for pybel.  The graph registers it: the entity is a node
    afterwards; a graph that had it is unchanged; a graph that did not have
    it gains the entity, those of its members that it did not have, and a
    [hasComponent] edge from the entity to each member, and nothing else. *)
Theorem complex_members_are_resolved_nodes `{Collaborators} `{Serialisation}
    (c : RawComplex) (nodes : gmap string PyVal) (g : BELGraph) :
  Exists (fun m => is_Some (nodes !! m)) (complex_participants c) ->
  (forall id v, id ∈ complex_participants c -> nodes !! id = Some v ->
                is_Some v /\ simple v) ->
  exists ms g',
    let x := ComplexAbundance ms (parse_id_uri (complex_uri_id c)).2 "wp_complex" in
    complex_to_bel c nodes g = Ok (g', Some x) /\
    ms <> [] /\
    (forall m, m ∈ ms ->
       exists id, id ∈ complex_participants c /\ nodes !! id = Some (Some m)) /\
    (forall id m, id ∈ complex_participants c -> nodes !! id = Some (Some m) ->
       exists m', m' ∈ ms /\ as_bel m' = as_bel m) /\
    (forall m m', m ∈ ms -> m' ∈ ms -> as_bel m = as_bel m' -> m = m') /\
    has_node g' x = true /\
    (has_node g x = true -> g' = g) /\
    (has_node g x = false ->
       forall m, m ∈ ms ->
         has_node g' m = true /\ has_edge g' (membership HAS_COMPONENT x m) = true) /\
    exists ns es,
      extends_with g g' ns es /\
      Forall (fun n => n = Some x \/ exists m, m ∈ ms /\ n = Some m) ns /\
      Forall (fun e => exists m, m ∈ ms /\ e = membership HAS_COMPONENT x m) es.
Proof.
  intros Hsome Hflat.
  destruct (composite_returns c nodes) as [x Hx].
  { apply Exists_exists in Hsome as (m & Hm & Hsome). by exists m. }
  { intros id v Hid Hv. by destruct (Hflat id v Hid Hv). }
  destruct (composite_Ok _ _ _ Hx) as (ms & -> & Hne & Hsub & Hall & Hdistinct).
  assert (Forall (fun m => parts m = [])
                 (parts (ComplexAbundance ms (parse_id_uri (complex_uri_id c)).2
                                          "wp_complex"))) as Hparts.
  { simpl. apply Forall_forall. intros m (id & Hid & Hlook)%Hsub.
    by destruct (Hflat id _ Hid Hlook) as [_ Hm']. }
  destruct (register_flat _ g Hparts) as (Hhas & Hold & Hedges & Hmembers & ns & es & Hext & Hns & Hes).
  exists ms, (register (ComplexAbundance ms (parse_id_uri (complex_uri_id c)).2 "wp_complex") g).
  simpl. rewrite complex_to_bel_eq, Hx.
  split; [done|]. split; [done|]. split; [done|]. split.
  { intros id m Hid Hlook. destruct (Hall id _ Hid Hlook) as (m' & Hm' & Heq).
    exists m'. split; [done|]. simpl in Heq. by apply same_node_eq in Heq. }
  split; [done|]. split; [done|]. split; [done|]. split.
  { intros Hnew m Hm. split; [by apply Hmembers|].
    apply Hedges; [done|]. simpl. apply list_elem_of_fmap. by exists m. }
  exists ns, es. split; [done|]. split; [done|].
  eapply Forall_impl; [exact Hes|]. simpl.
  intros e (m & -> & Hm)%list_elem_of_fmap. by exists m.
Qed.

Lemma complex_members_are_resolved_nodes_witness :
  let p53 := protein "ENTREZ" "7157" "7157" in
  let c2 := ComplexAbundance [p53] "http://rdf.wikipathways.org/WP254/complex2" "wp_complex" in
  @complex_to_bel Examples.collaborators Examples.serialisation Examples.p53_complex
    {[ "tp53" := Some p53; "water" := Some (abundance "wikipathways" "water" "15377") ]}
    Examples.empty_graph
  = Ok (with_edges (with_nodes Examples.empty_graph [Some c2; Some p53])
                   [membership HAS_COMPONENT c2 p53], Some c2).
Proof.
  destruct (@complex_members_are_resolved_nodes Examples.collaborators Examples.serialisation
              Examples.p53_complex
              {[ "tp53" := Some (protein "ENTREZ" "7157" "7157");
                 "water" := Some (abundance "wikipathways" "water" "15377") ]}
              Examples.empty_graph) as (ms & g' & Hg' & _).
  - decide_by_vm.
  - assert (map_Forall (fun (_ : string) (v : PyVal) => is_Some v /\ simple v)
                       ({[ "tp53" := Some (protein "ENTREZ" "7157" "7157");
                           "water" := Some (abundance "wikipathways" "water" "15377") ]}
                          : gmap string PyVal)) as Hall by decide_by_vm.
    intros id v _ Hv. exact (Hall id v Hv).
  - cbv zeta. rewrite Hg'. vm_compute in Hg'. symmetry. exact Hg'.
Defined.

(** X5: [complexes_to_bel] returns exactly when pybel builds the entity of
    every complex.  It then returns a mapping with exactly the complex IDs
    as keys, each mapped to the entity of its complex, and a graph with the
    same metadata in which each of these entities is a node and to which
    only membership edges have been added; when the entity of some complex
    cannot be built, it raises. *)
Theorem complexes_to_bel_mapping_and_nodes `{Collaborators} `{Serialisation}
    (complexes : gmap string RawComplex) (nodes : gmap string PyVal) (g : BELGraph) :
  ((forall cid c, complexes !! cid = Some c -> exists x, composite c nodes = Ok x) ->
   exists g' complex_nodes,
     complexes_to_bel complexes nodes g = Ok (g', complex_nodes) /\
     (forall cid, complexes !! cid = None -> complex_nodes !! cid = None) /\
     (forall cid c, complexes !! cid = Some c ->
        exists x, composite c nodes = Ok x /\ complex_nodes !! cid = Some (Some x) /\
                  has_node g' x = true) /\
     same_metadata g g' /\
     exists ns es,
       extends_with g g' ns es /\ Forall membership_edge es /\
       Forall (fun n => exists x y, composed complexes nodes x /\ within x y /\ n = Some y) ns) /\
  (forall cid c e, complexes !! cid = Some c -> composite c nodes = Raise e ->
     exists e', complexes_to_bel complexes nodes g = Raise e').
Proof.
  split.
  - intros Hall.
    destruct (complexes_to_bel_returns complexes nodes g Hall) as (g' & cx & Hrun).
    destruct (complexes_to_bel_Ok _ _ _ _ _ Hrun)
      as (-> & Hnodes & _ & ns & es & Hext & Hns & Hes).
    exists g', (composites complexes nodes). split; [done|]. split; [|split; [|split]].
    + intros cid Hnone. unfold composites. by rewrite lookup_omap, Hnone.
    + intros cid c Hc. destruct (Hnodes cid c Hc) as (x & Hx & Hhas).
      exists x. split; [done|]. split; [|done].
      unfold composites. by rewrite lookup_omap, Hc; simpl; rewrite Hx.
    + by destruct Hext.
    + exists ns, es. split; [done|]. split.
      * eapply Forall_impl; [exact Hes|]. intros e (x & _ & He).
        by eapply edge_within_membership.
      * eapply Forall_impl; [exact Hns|]. intros n (x & Hx & y & -> & Hy). by exists x, y.
  - intros cid c e Hc Hraise. unfold complexes_to_bel.
    apply (for_each_raises _ _ (cid, c)); [by apply elem_of_map_to_list|].
    intros s. simpl. rewrite complex_to_bel_eq, Hraise. by eexists.
Qed.

Lemma complexes_to_bel_mapping_and_nodes_witness :
  let p53 := protein "ENTREZ" "7157" "7157" in
  let c2 := ComplexAbundance [p53] "http://rdf.wikipathways.org/WP254/complex2" "wp_complex" in
  @complexes_to_bel Examples.collaborators Examples.serialisation
    {[ "c2" := Examples.p53_complex ]} {[ "tp53" := Some p53 ]} Examples.empty_graph
  = Ok (with_edges (with_nodes Examples.empty_graph [Some c2; Some p53])
                   [membership HAS_COMPONENT c2 p53], {[ "c2" := Some c2 ]}).
Proof.
  destruct (@complexes_to_bel_mapping_and_nodes Examples.collaborators Examples.serialisation
              {[ "c2" := Examples.p53_complex ]}
              {[ "tp53" := Some (protein "ENTREZ" "7157" "7157") ]} Examples.empty_graph)
    as [Hreturns _].
  destruct Hreturns as (g' & cx & Hrun & _).
  - assert (map_Forall (fun (_ : string) (c : RawComplex) =>
              match @composite Examples.collaborators Examples.serialisation c
                      {[ "tp53" := Some (protein "ENTREZ" "7157" "7157") ]} with
              | Ok _ => True
              | Raise _ => False
              end) ({[ "c2" := Examples.p53_complex ]} : gmap string RawComplex)) as Hall.
    { apply map_Forall_singleton. vm_compute. exact I. }
    intros cid c Hc. specialize (Hall cid c Hc). simpl in Hall.
    destruct (composite c _) as [x|]; [by exists x | done].
  - cbv zeta. rewrite Hrun. vm_compute in Hrun. symmetry. exact Hrun.
Defined.

(** *** [add_edges] *)

Lemma add_pair_Raise `{Serialisation} (nodes : gmap string PyVal) (types : gset string)
    (uri : string) (g : BELGraph) (pair : string * string) (e : exn) :
  add_pair nodes types uri g pair = Raise e -> e = AssertionError.
Proof.
  unfold add_pair.
  destruct (nodes !! pair.1) as [u|]; [|done].
  destruct (nodes !! pair.2) as [v|]; [|done].
  rewrite add_simple_edge_emitted. destruct (emitted types uri u v) as [e0|]; [|done].
  unfold add_edge. destruct (edge_source e0); [|by intros [= <-]]. simpl.
  destruct (edge_target e0); [done | by intros [= <-]].
Qed.

Lemma add_pairs_Raise `{Serialisation} (nodes : gmap string PyVal) (types : gset string)
    (uri : string) (pairs : list (string * string)) (g : BELGraph) (e : exn) :
  for_each (add_pair nodes types uri) pairs g = Raise e -> e = AssertionError.
Proof.
  revert g. induction pairs as [|pair pairs IH]; intros g; [done|]. simpl.
  destruct (add_pair nodes types uri g pair) as [g1|e1] eqn:Hpair; simpl.
  - apply IH.
  - intros [= <-]. by eapply add_pair_Raise.
Qed.

(** X6: in the branch of [add_edges] for interactions that are no
    conversion, the call returns when every value of the mapping is an
    entity.  The graph it returns has the same metadata; the edges it has
    gained are membership edges of endpoints that had to be registered and
    edges of pairs both IDs of which are keys of the mapping; and the edge
    of every such pair is in the graph.  When a pair that has an edge to add
    has an ID that is mapped to [None], the call raises [AssertionError]. *)
Theorem add_edges_one_edge_per_resolved_pair `{Collaborators} `{Serialisation}
    (g : BELGraph) (pairs : list (string * string)) (nodes : gmap string PyVal)
    (att : RawInteraction) :
  "Conversion" ∉ interaction_types att ->
  let types := interaction_types att in
  let uri := interaction_uri_id att in
  (map_Forall (fun _ v => is_Some v) nodes ->
   exists g' ns es,
     add_edges g pairs nodes att = Ok g' /\
     extends_with g g' ns es /\
     Forall (fun e => membership_edge e \/ e ∈ omap (pair_edge nodes types uri) pairs) es /\
     (forall e, e ∈ omap (pair_edge nodes types uri) pairs -> has_edge g' e = true)) /\
  (forall pair u v e,
     pair ∈ pairs -> nodes !! pair.1 = Some u -> nodes !! pair.2 = Some v ->
     emitted types uri u v = Some e -> u = None \/ v = None ->
     add_edges g pairs nodes att = Raise AssertionError).
Proof.
  intros Hconv types uri.
  assert (add_edges g pairs nodes att = for_each (add_pair nodes types uri) pairs g) as ->.
  { unfold add_edges. destruct (parse_id_uri (interaction_uri_id att)) as [[[? ?] ?] ?].
    by rewrite bool_decide_eq_false_2. }
  split.
  - intros Hvalues.
    destruct (for_each_returns (add_pair nodes types uri) (fun _ => True) pairs)
      with (s := g) as (g' & Hrun & _); [|done|].
    { intros g0 pair _ _. unfold add_pair.
      destruct (nodes !! pair.1) as [u|] eqn:Hu; [|by eexists].
      destruct (nodes !! pair.2) as [v|] eqn:Hv; [|by eexists].
      destruct (Hvalues _ _ Hu) as [a ->]. destruct (Hvalues _ _ Hv) as [b ->].
      rewrite add_simple_edge_emitted.
      destruct (emitted _ _ _ _) as [e|] eqn:He; [|by eexists].
      destruct (emitted_endpoints _ _ _ _ _ He) as [Hsource Htarget].
      rewrite (add_edge_entities _ _ a b Hsource Htarget). by eexists. }
    destruct (add_pairs_grown _ _ _ _ _ _ Hrun) as [(ns & es & Hext & Hes) Hhas].
    by exists g', ns, es.
  - intros pair u v e Hpair Hu Hv He Hnone.
    destruct (for_each (add_pair nodes types uri) pairs g) as [g'|exc] eqn:Hrun.
    + exfalso. clear Hconv. revert g Hrun. induction pairs as [|p pairs IH]; intros g Hrun.
      * by apply elem_of_nil in Hpair.
      * simpl in Hrun. destruct (add_pair nodes types uri g p) as [g1|] eqn:Hp; [|done].
        simpl in Hrun. apply elem_of_cons in Hpair as [<- | Hpair]; [|by eapply IH].
        unfold add_pair in Hp. rewrite Hu, Hv, add_simple_edge_emitted, He in Hp.
        destruct (emitted_endpoints _ _ _ _ _ He) as [Hsource Htarget].
        rewrite add_edge_None in Hp; [done|]. destruct Hnone as [-> | ->]; auto.
    + f_equal. by eapply add_pairs_Raise.
Qed.

Lemma add_edges_one_edge_per_resolved_pair_witness :
  let p53 := protein "ENTREZ" "7157" "7157" in
  let mdm2 := protein "HGNC" "MDM2" "6973" in
  let edge := mkEdge (Some p53) (Some mdm2) INCREASES
                     (Some "http://rdf.wikipathways.org/WP254/i1") (Some "")
                     (Some activity) None in
  @add_edges Examples.collaborators Examples.serialisation Examples.empty_graph
    [("tp53", "mdm2"); ("tp53", "ghost"); ("tp53", "mdm2")]
    {[ "tp53" := Some p53; "mdm2" := Some mdm2 ]}
    (Examples.stimulation [])
  = Ok (with_edges (with_nodes Examples.empty_graph [Some p53; Some mdm2]) [edge]) /\
  @add_edges Examples.collaborators Examples.serialisation Examples.empty_graph
    [("tp53", "mdm2"); ("label1", "tp53")]
    {[ "tp53" := Some p53; "mdm2" := Some mdm2; "label1" := None ]}
    (Examples.stimulation [])
  = Raise AssertionError.
Proof.
  cbv zeta. split.
  - destruct (@add_edges_one_edge_per_resolved_pair Examples.collaborators
                Examples.serialisation Examples.empty_graph
                [("tp53", "mdm2"); ("tp53", "ghost"); ("tp53", "mdm2")]
                {[ "tp53" := Some (protein "ENTREZ" "7157" "7157");
                   "mdm2" := Some (protein "HGNC" "MDM2" "6973") ]}
                (Examples.stimulation [])) as [Hreturns _]; [decide_by_vm|].
    destruct Hreturns as (g' & ns & es & Hrun & _); [decide_by_vm|].
    rewrite Hrun. vm_compute in Hrun. symmetry. exact Hrun.
  - destruct (@add_edges_one_edge_per_resolved_pair Examples.collaborators
                Examples.serialisation Examples.empty_graph
                [("tp53", "mdm2"); ("label1", "tp53")]
                {[ "tp53" := Some (protein "ENTREZ" "7157" "7157");
                   "mdm2" := Some (protein "HGNC" "MDM2" "6973"); "label1" := None ]}
                (Examples.stimulation [])) as [_ Hraises]; [decide_by_vm|].
    eapply (Hraises ("label1", "tp53") None (Some (protein "ENTREZ" "7157" "7157"))).
    + decide_by_vm.
    + reflexivity.
    + reflexivity.
    + reflexivity.
    + by left.
Defined.

(** X7: in the conversion branch, when the interaction has participants and
    every participant ID is resolved to an entity without parts, [add_edges]
    returns the graph with one reaction registered.  The reactants of the
    reaction are the entities of the source IDs and its products the
    entities of the target IDs, each once for pybel.  The reaction is a node
    afterwards; a graph that had it is unchanged; a graph that did not have
    it gains the reaction, those of its reactants and products that it did
    not have, and a [hasReactant] or [hasProduct] edge from the reaction to
    each of them, and nothing else. *)
Theorem conversion_adds_one_reaction_node `{Collaborators} `{Serialisation} (g : BELGraph)
    (pairs : list (string * string)) (nodes : gmap string PyVal) (att : RawInteraction) :
  "Conversion" ∈ interaction_types att ->
  pairs <> [] ->
  Forall (fun p => (exists a, nodes !! p.1 = Some (Some a) /\ parts a = []) /\
                   (exists b, nodes !! p.2 = Some (Some b) /\ parts b = [])) pairs ->
  exists rs ps g',
    let x := Reaction rs ps in
    add_edges g pairs nodes att = Ok g' /\
    rs <> [] /\ ps <> [] /\
    (forall a, a ∈ rs -> exists p, p ∈ pairs /\ nodes !! p.1 = Some (Some a)) /\
    (forall b, b ∈ ps -> exists p, p ∈ pairs /\ nodes !! p.2 = Some (Some b)) /\
    (forall p a, p ∈ pairs -> nodes !! p.1 = Some (Some a) ->
       exists a', a' ∈ rs /\ as_bel a' = as_bel a) /\
    (forall p b, p ∈ pairs -> nodes !! p.2 = Some (Some b) ->
       exists b', b' ∈ ps /\ as_bel b' = as_bel b) /\
    (forall a a', a ∈ rs -> a' ∈ rs -> as_bel a = as_bel a' -> a = a') /\
    (forall b b', b ∈ ps -> b' ∈ ps -> as_bel b = as_bel b' -> b = b') /\
    has_node g' x = true /\
    (has_node g x = true -> g' = g) /\
    (has_node g x = false ->
       (forall a, a ∈ rs ->
          has_node g' a = true /\ has_edge g' (membership HAS_REACTANT x a) = true) /\
       (forall b, b ∈ ps ->
          has_node g' b = true /\ has_edge g' (membership HAS_PRODUCT x b) = true)) /\
    exists ns es,
      extends_with g g' ns es /\
      Forall (fun n => n = Some x \/ exists m, m ∈ rs ++ ps /\ n = Some m) ns /\
      Forall (fun e => (exists a, a ∈ rs /\ e = membership HAS_REACTANT x a) \/
                       (exists b, b ∈ ps /\ e = membership HAS_PRODUCT x b)) es.
Proof.
  intros Hconv Hne Hpairs. rewrite Forall_forall in Hpairs.
  destruct (conversion_returns g pairs nodes att Hconv) as [g' Hg'].
  { intros p Hp. destruct (Hpairs p Hp) as [(a & Ha & _) (b & Hb & _)].
    split; by eexists. }
  destruct (conversion_Ok _ _ _ _ _ Hconv Hg')
    as (rs & ps & -> & Hrs & Hps & Hrall & Hpall & Hrd & Hpd).
  assert (Forall (fun m => parts m = []) (parts (Reaction rs ps))) as Hflat.
  { simpl. apply Forall_app. split; apply Forall_forall.
    - intros a (p & Hp & Ha)%Hrs. destruct (Hpairs p Hp) as [(a' & Ha' & Hparts) _].
      congruence.
    - intros b (p & Hp & Hb)%Hps. destruct (Hpairs p Hp) as [_ (b' & Hb' & Hparts)].
      congruence. }
  destruct (register_flat _ g Hflat)
    as (Hhas & Hold & Hedges & Hmembers & ns & es & Hext & Hns & Hes).
  destruct pairs as [|p0 pairs]; [done|].
  destruct (Hpairs p0) as [(a0 & Ha0 & _) (b0 & Hb0 & _)]; [by left|].
  exists rs, ps, (register (Reaction rs ps) g). simpl.
  split; [done|]. split; [|split].
  { destruct (Hrall p0 _ (list_elem_of_here _ _) Ha0) as (a & Ha & _).
    intros ->. by apply elem_of_nil in Ha. }
  { destruct (Hpall p0 _ (list_elem_of_here _ _) Hb0) as (b & Hb & _).
    intros ->. by apply elem_of_nil in Hb. }
  split; [done|]. split; [done|]. split.
  { intros p a Hp Ha. destruct (Hrall p _ Hp Ha) as (a' & Ha' & Heq).
    exists a'. split; [done|]. simpl in Heq. by apply same_node_eq in Heq. }
  split.
  { intros p b Hp Hb. destruct (Hpall p _ Hp Hb) as (b' & Hb' & Heq).
    exists b'. split; [done|]. simpl in Heq. by apply same_node_eq in Heq. }
  split; [done|]. split; [done|]. split; [done|]. split; [done|]. split.
  { intros Hnew. split.
    - intros a Ha. split; [apply Hmembers; [done|]; simpl; apply elem_of_app; by left|].
      apply Hedges; [done|]. simpl. apply elem_of_app. left.
      apply list_elem_of_fmap. by exists a.
    - intros b Hb. split; [apply Hmembers; [done|]; simpl; apply elem_of_app; by right|].
      apply Hedges; [done|]. simpl. apply elem_of_app. right.
      apply list_elem_of_fmap. by exists b. }
  exists ns, es. split; [done|]. split; [done|].
  eapply Forall_impl; [exact Hes|]. simpl.
  intros e [(a & -> & Ha)%list_elem_of_fmap | (b & -> & Hb)%list_elem_of_fmap]%elem_of_app;
    [left; by exists a | right; by exists b].
Qed.

Lemma conversion_adds_one_reaction_node_witness :
  exists g',
    @add_edges Examples.collaborators Examples.serialisation Examples.empty_graph
      [("water", "tp53"); ("water", "mdm2"); ("water", "p53")]
      {[ "tp53" := Some (protein "ENTREZ" "7157" "7157");
         "p53" := Some (protein "ENTREZ" "7157" "P04637");
         "mdm2" := Some (protein "HGNC" "MDM2" "6973");
         "water" := Some (abundance "wikipathways" "water" "15377") ]}
      (Examples.conversion []) = Ok g' /\
    length (graph_nodes g') = 4 /\ length (graph_edges g') = 3.
Proof.
  destruct (@conversion_adds_one_reaction_node Examples.collaborators Examples.serialisation
              Examples.empty_graph
              [("water", "tp53"); ("water", "mdm2"); ("water", "p53")]
              {[ "tp53" := Some (protein "ENTREZ" "7157" "7157");
                 "p53" := Some (protein "ENTREZ" "7157" "P04637");
                 "mdm2" := Some (protein "HGNC" "MDM2" "6973");
                 "water" := Some (abundance "wikipathways" "water" "15377") ]}
              (Examples.conversion [])) as (rs & ps & g' & Hrun & _).
  - decide_by_vm.
  - done.
  - repeat constructor; by eexists.
  - exists g'. split; [exact Hrun|]. vm_compute in Hrun. injection Hrun as <-.
    split; reflexivity.
Defined.

(** *** [node_to_bel] and [nodes_to_bel] *)

(** X1: a node without the tags Protein, Rna and GeneProduct is built
    without the resolver: its namespace is the third component of its parsed
    URI, its name is the node's name and its identifier is the node's
    identifier (the URI when it has none), the first element being taken of
    a set.  Metabolite gives an abundance, else Pathway a bioprocess, else
    DataNode an abundance, and with none of the six tags the result is
    [None]. *)
Theorem other_node_keeps_raw_triple `{Collaborators} (node : RawNode)
    (hgnc_manager : Manager) (i n : string) :
  first_if_set (identifier_of node) = Ok i ->
  first_if_set (node_name node) = Ok n ->
  "Protein" ∉ node_types node -> "Rna" ∉ node_types node ->
  "GeneProduct" ∉ node_types node ->
  let namespace := (parse_id_uri (node_uri_id node)).1.2 in
  ("Metabolite" ∈ node_types node ->
     node_to_bel node hgnc_manager = Ok (Some (abundance namespace n i))) /\
  ("Metabolite" ∉ node_types node -> "Pathway" ∈ node_types node ->
     node_to_bel node hgnc_manager = Ok (Some (bioprocess namespace n i))) /\
  ("Metabolite" ∉ node_types node -> "Pathway" ∉ node_types node ->
   "DataNode" ∈ node_types node ->
     node_to_bel node hgnc_manager = Ok (Some (abundance namespace n i))) /\
  ("Metabolite" ∉ node_types node -> "Pathway" ∉ node_types node ->
   "DataNode" ∉ node_types node ->
     node_to_bel node hgnc_manager = Ok None).
Proof.
  intros Hi Hn HP HR HG. unfold node_to_bel. rewrite Hi, Hn. simpl.
  destruct (parse_id_uri (node_uri_id node)) as [[[? ?] ns] ?]. simpl.
  rewrite !(bool_decide_eq_false_2 _ HP), !(bool_decide_eq_false_2 _ HR),
    !(bool_decide_eq_false_2 _ HG).
  split; [|split; [|split]].
  - intros HM. by rewrite bool_decide_eq_true_2.
  - intros HM HPw. rewrite bool_decide_eq_false_2 by done. by rewrite bool_decide_eq_true_2.
  - intros HM HPw HD. rewrite !bool_decide_eq_false_2 by done. by rewrite bool_decide_eq_true_2.
  - intros HM HPw HD. by rewrite !bool_decide_eq_false_2 by done.
Qed.

Lemma other_node_keeps_raw_triple_witness :
  @node_to_bel Examples.collaborators Examples.water tt
    = Ok (Some (abundance "wikipathways" "water" "15377")).
Proof.
  pose proof (@other_node_keeps_raw_triple Examples.collaborators Examples.water tt
                "15377" "water" eq_refl eq_refl) as Hthm.
  simpl in Hthm. destruct Hthm as [Hmetabolite _].
  - decide_by_vm.
  - decide_by_vm.
  - decide_by_vm.
  - apply Hmetabolite. decide_by_vm.
Defined.

Lemma node_to_bel_empty_set `{Collaborators} (node : RawNode) (hgnc_manager : Manager) :
  identifier_of node = StrSet [] \/ node_name node = StrSet [] ->
  node_to_bel node hgnc_manager = Raise IndexError.
Proof.
  intros Hempty. unfold node_to_bel.
  destruct (identifier_of node) as [i|[|i l]] eqn:Hi; simpl; [| reflexivity |].
  - destruct Hempty as [[=]|Hn]. rewrite Hn.
    by destruct (parse_id_uri (node_uri_id node)) as [[[? ?] ?] ?].
  - destruct Hempty as [[=]|Hn]. rewrite Hn.
    by destruct (parse_id_uri (node_uri_id node)) as [[[? ?] ?] ?].
Qed.

Lemma node_to_bel_Raise `{Collaborators} (node : RawNode) (hgnc_manager : Manager) (e : exn) :
  node_to_bel node hgnc_manager = Raise e ->
  e = IndexError /\ (identifier_of node = StrSet [] \/ node_name node = StrSet []).
Proof.
  unfold node_to_bel.
  destruct (identifier_of node) as [i|[|i l]]; simpl;
    try (intros [= <-]; split; [done | by left]);
    destruct (parse_id_uri (node_uri_id node)) as [[[? ?] ?] ?];
    (destruct (node_name node) as [n|[|n l']]; simpl;
     [| intros [= <-]; split; [done | by right] |]);
    destruct (get_valid_gene_identifier (ids_dict_of node) hgnc_manager) as [[? ?] ?];
    repeat (case_bool_decide; [discriminate|]); discriminate.
Qed.

(** The comprehension of [nodes_to_bel]: it raises as soon as one item
    raises. *)
Lemma nodes_loop_Raise `{Collaborators} (hgnc_manager : Manager)
    (items : list (string * RawNode)) (item : string * RawNode) :
  item ∈ items ->
  node_to_bel item.2 hgnc_manager = Raise IndexError ->
  mapM (fun item : string * RawNode =>
          v ← node_to_bel item.2 hgnc_manager; Ok (item.1, v)) items = Raise IndexError.
Proof.
  induction items as [|first items IH]; intros Hin Hraise; [by apply elem_of_nil in Hin|].
  rewrite mapM_result_cons. simpl.
  destruct (node_to_bel first.2 hgnc_manager) as [v|e] eqn:Hfirst; simpl.
  - apply elem_of_cons in Hin as [->|Hin]; [congruence|].
    simpl in IH. by rewrite IH.
  - by destruct (node_to_bel_Raise _ _ _ Hfirst) as [-> _].
Qed.

Lemma nodes_loop_Ok `{Collaborators} (hgnc_manager : Manager)
    (items : list (string * RawNode)) :
  Forall (fun item => exists v, node_to_bel item.2 hgnc_manager = Ok v) items ->
  exists out,
    mapM (fun item : string * RawNode =>
            v ← node_to_bel item.2 hgnc_manager; Ok (item.1, v)) items = Ok out /\
    Forall2 (fun item o => o.1 = item.1 /\ node_to_bel item.2 hgnc_manager = Ok o.2) items out.
Proof.
  induction 1 as [|[id node] items [v Hv] _ (out & IH & Hall)].
  - exists []. split; [reflexivity | constructor].
  - exists ((id, v) :: out). split.
    + rewrite mapM_result_cons. simpl. simpl in Hv. rewrite Hv. simpl. simpl in IH.
      by rewrite IH.
    + by constructor.
Qed.


(** X2: when no node record has an empty set as its name or identifier,
    [nodes_to_bel] returns a mapping with exactly the IDs of the records,
    each mapped to what [node_to_bel] returns for its record: an ID whose
    record has no known type tag stays a key, mapped to [None]. *)
Theorem nodes_to_bel_keeps_ids `{Collaborators} (nodes : gmap string RawNode)
    (hgnc_manager : Manager) :
  (forall id node, nodes !! id = Some node ->
                   identifier_of node <> StrSet [] /\ node_name node <> StrSet []) ->
  exists resolved,
    nodes_to_bel nodes hgnc_manager = Ok resolved /\
    (forall id node, nodes !! id = Some node ->
       exists v, resolved !! id = Some v /\ node_to_bel node hgnc_manager = Ok v) /\
    (forall id, nodes !! id = None -> resolved !! id = None).
Proof.
  intros Husable. unfold nodes_to_bel.
  destruct (nodes_loop_Ok hgnc_manager (map_to_list nodes)) as (out & -> & Hall).
  { apply Forall_forall. intros [id node] Hin%elem_of_map_to_list. simpl.
    destruct (node_to_bel node hgnc_manager) as [v|e] eqn:Hnode; [by exists v|].
    destruct (node_to_bel_Raise _ _ _ Hnode) as [_ Hempty].
    destruct (Husable id node Hin). tauto. }
  simpl. eexists. split; [reflexivity|].
  assert (out.*1 = (map_to_list nodes).*1) as Hkeys.
  { clear Husable. induction Hall as [|? ? ? ? [Hk _] _ IH]; [done|].
    rewrite !fmap_cons. by f_equal. }
  split.
  - intros id node Hin%elem_of_map_to_list.
    apply list_elem_of_lookup in Hin as [k Hk].
    destruct (Forall2_lookup_l _ _ _ _ _ Hall Hk) as ([id' v] & Hout & Hid & Hv).
    simpl in *. subst id'. exists v. split; [|done].
    apply elem_of_list_to_map_1.
    + rewrite Hkeys. apply NoDup_fst_map_to_list.
    + by eapply list_elem_of_lookup_2.
  - intros id Hnone. apply not_elem_of_list_to_map_1. rewrite Hkeys.
    intros ([id' node] & -> & Hin%elem_of_map_to_list)%list_elem_of_fmap.
    simpl in Hnone. congruence.
Qed.

Lemma nodes_to_bel_keeps_ids_witness :
  exists resolved,
    @nodes_to_bel Examples.collaborators
      {[ "label1" := Examples.label; "water" := Examples.water ]} tt = Ok resolved /\
    resolved !! "label1" = Some None /\
    resolved !! "ghost" = None.
Proof.
  destruct (@nodes_to_bel_keeps_ids Examples.collaborators
              {[ "label1" := Examples.label; "water" := Examples.water ]} tt)
    as (resolved & Hok & Hsome & Hnone).
  - assert (map_Forall (fun (_ : string) (node : RawNode) =>
                          identifier_of node <> StrSet [] /\ node_name node <> StrSet [])
                       ({[ "label1" := Examples.label; "water" := Examples.water ]}
                          : gmap string RawNode)) as Hall by decide_by_vm.
    exact Hall.
  - exists resolved. split; [exact Hok|]. split.
    + destruct (Hsome "label1" Examples.label eq_refl) as (v & Hv & Hnode).
      rewrite Hv. f_equal. vm_compute in Hnode. congruence.
    + apply Hnone. reflexivity.
Defined.

(** X3: one node record whose name or identifier is an empty set makes
    [nodes_to_bel], and with it [convert_to_bel], raise [IndexError],
    whatever the node's type tags, the other records, the complexes and the
    interactions are. *)
Theorem empty_set_field_aborts_conversion `{Collaborators} `{Serialisation}
    (nodes : gmap string RawNode)
    (complexes : gmap string RawComplex) (interactions : list RawInteraction)
    (pathway_info : gmap string Field) (hgnc_manager : Manager) (id : string)
    (node : RawNode) :
  is_Some (pathway_info !! "title") -> is_Some (pathway_info !! "description") ->
  is_Some (pathway_info !! "pathway_id") ->
  nodes !! id = Some node ->
  identifier_of node = StrSet [] \/ node_name node = StrSet [] ->
  nodes_to_bel nodes hgnc_manager = Raise IndexError /\
  convert_to_bel nodes complexes interactions pathway_info hgnc_manager = Raise IndexError.
Proof.
  intros [title Ht] [description Hd] [pathway_id Hp] Hnode Hempty.
  assert (nodes_to_bel nodes hgnc_manager = Raise IndexError) as Hraise.
  { unfold nodes_to_bel.
    rewrite (nodes_loop_Raise hgnc_manager (map_to_list nodes) (id, node)); [done| |].
    - by apply elem_of_map_to_list.
    - by apply node_to_bel_empty_set. }
  split; [done|]. unfold convert_to_bel.
  rewrite (getitem_Some _ _ _ Ht), (getitem_Some _ _ _ Hd), (getitem_Some _ _ _ Hp). simpl.
  by rewrite Hraise.
Qed.

Lemma empty_set_field_aborts_conversion_witness :
  @convert_to_bel Examples.collaborators Examples.serialisation
    {[ "tp53" := Examples.tp53;
       "odd" := mkNode {[ "Label" ]} "http://rdf.wikipathways.org/WP254/odd" (StrSet [])
                       None None ]}
    ∅ [] Examples.pathway_info tt = Raise IndexError.
Proof.
  apply (@empty_set_field_aborts_conversion Examples.collaborators Examples.serialisation
    {[ "tp53" := Examples.tp53;
       "odd" := mkNode {[ "Label" ]} "http://rdf.wikipathways.org/WP254/odd" (StrSet [])
                       None None ]}
    ∅ [] Examples.pathway_info tt "odd"
    (mkNode {[ "Label" ]} "http://rdf.wikipathways.org/WP254/odd" (StrSet []) None None)).
  - decide_by_vm.
  - decide_by_vm.
  - decide_by_vm.
  - reflexivity.
  - right. reflexivity.
Defined.

(** *** [convert_to_bel] *)

(** X8: the graph [convert_to_bel] returns has the title of [pathway_info]
    as its name, the version 1.0.0, the evaluated description, the pathway
    identifier, the authors and the contact of the module, and no declared
    annotation.  Besides membership edges, its edges are edges of
    participant pairs, of interactions that are no conversion, resolved in
    the mapping of the nodes overridden by the complexes: an ID that names
    both a node and a complex stands for the complex.  The edge of every
    such pair is in the graph. *)
Theorem converted_graph_edges_and_metadata `{Collaborators} `{Serialisation}
    (nodes : gmap string RawNode) (complexes : gmap string RawComplex)
    (interactions : list RawInteraction) (pathway_info : gmap string Field)
    (hgnc_manager : Manager) (g : BELGraph) :
  convert_to_bel nodes complexes interactions pathway_info hgnc_manager = Ok g ->
  exists resolved,
    nodes_to_bel nodes hgnc_manager = Ok resolved /\
    (forall e, e ∈ graph_edges g ->
       membership_edge e \/
       exists i, i ∈ interactions /\
                 e ∈ interaction_edges (resolution complexes resolved) i) /\
    (forall i e, i ∈ interactions ->
       e ∈ interaction_edges (resolution complexes resolved) i ->
       has_edge g e = true) /\
    Some (graph_name g) = pathway_info !! "title" /\
    graph_version g = "1.0.0" /\
    Some (graph_description g) = evaluate_wikipathways_metadata <$> pathway_info !! "description" /\
    Some (graph_pathway_id g) = pathway_info !! "pathway_id" /\
    graph_authors g = "Sarah Mubeen, Daniel Domingo-Fernández & Josep Marín-Llaó" /\
    graph_contact g = "daniel.domingo.fernandez@scai.fraunhofer.de" /\
    annotation_list g = ∅.
Proof.
  intros Hg.
  destruct (convert_to_bel_well_formed _ _ _ _ _ _ Hg)
    as (resolved & Hres & _ & Hedges & Hhas & _).
  exists resolved. split; [done|]. split; [exact Hedges|]. split; [exact Hhas|].
  destruct (convert_to_bel_Ok _ _ _ _ _ _ Hg)
    as (title & description & pathway_id & resolved' & g1 & Ht & Hd & Hp & _ & Hcx & Hrun).
  pose proof (grown_by_metadata _ _ _ (complexes_to_bel_grown _ _ _ _ _ Hcx)) as Hmeta1.
  pose proof (grown_by_metadata _ _ _ (proj1 (interactions_grown _ _ _ _ Hrun))) as Hmeta2.
  destruct (same_metadata_trans _ _ _ Hmeta1 Hmeta2) as (Hn & Hv & Hdesc & Hid & Ha & Hc & Hal).
  simpl in *. rewrite Ht, Hd, Hp. simpl. repeat split; congruence.
Qed.

Lemma converted_graph_edges_and_metadata_witness :
  exists g,
    @convert_to_bel Examples.collaborators Examples.serialisation
      {[ "label1" := Examples.label; "tp53" := Examples.tp53; "water" := Examples.water ]}
      {[ "tp53" := Examples.p53_complex ]}
      [Examples.stimulation [("water", "tp53"); ("water", "ghost")];
       Examples.conversion [("tp53", "water")]]
      Examples.pathway_info tt = Ok g /\
    graph_name g = Str "Apoptosis" /\ graph_description g = "Programmed cell death" /\
    @has_edge Examples.serialisation g
      (mkEdge (Some (abundance "wikipathways" "water" "15377"))
              (Some (ComplexAbundance [protein "ENTREZ" "7157" "7157"]
                       "http://rdf.wikipathways.org/WP254/complex2" "wp_complex"))
              INCREASES (Some "http://rdf.wikipathways.org/WP254/i1") (Some "")
              (Some activity) None) = true.
Proof.
  eexists. split; [vm_compute; reflexivity|].
  match goal with
  | |- graph_name ?g = _ /\ _ =>
      destruct (@converted_graph_edges_and_metadata Examples.collaborators
                  Examples.serialisation
                  {[ "label1" := Examples.label; "tp53" := Examples.tp53;
                     "water" := Examples.water ]}
                  {[ "tp53" := Examples.p53_complex ]}
                  [Examples.stimulation [("water", "tp53"); ("water", "ghost")];
                   Examples.conversion [("tp53", "water")]]
                  Examples.pathway_info tt g)
        as (resolved & Hres & _ & Hhas & Hname & _ & Hdesc & _)
  end.
  - vm_compute. reflexivity.
  - split; [reflexivity|]. split; [reflexivity|].
    apply (Hhas (Examples.stimulation [("water", "tp53"); ("water", "ghost")]));
      [by left|].
    vm_compute in Hres. injection Hres as <-. vm_compute. by left.
Defined.

(** X9: every node of the graph [convert_to_bel] returns is an entity
    produced for the pathway: the entity of a node record, the entity of a
    complex record, or a reaction over such entities.  The entity of every
    complex is a node of the graph. *)
Theorem converted_graph_nodes `{Collaborators} `{Serialisation} (nodes : gmap string RawNode)
    (complexes : gmap string RawComplex) (interactions : list RawInteraction)
    (pathway_info : gmap string Field) (hgnc_manager : Manager) (g : BELGraph) :
  convert_to_bel nodes complexes interactions pathway_info hgnc_manager = Ok g ->
  exists resolved,
    nodes_to_bel nodes hgnc_manager = Ok resolved /\
    (forall n, n ∈ graph_nodes g ->
       exists x, n = Some x /\ produced complexes resolved x) /\
    (forall cid c, complexes !! cid = Some c ->
       exists x, composite c resolved = Ok x /\ has_node g x = true).
Proof.
  intros (resolved & Hres & (_ & Hnodes & _) & _ & _ & Hcomplexes)%convert_to_bel_well_formed.
  by exists resolved.
Qed.

Lemma converted_graph_nodes_witness :
  exists g,
    @convert_to_bel Examples.collaborators Examples.serialisation
      {[ "label1" := Examples.label; "tp53" := Examples.tp53; "water" := Examples.water ]}
      {[ "c2" := Examples.p53_complex ]}
      [Examples.stimulation [("tp53", "ghost"); ("tp53", "c2")];
       Examples.conversion [("tp53", "water")]]
      Examples.pathway_info tt = Ok g /\
    length (graph_nodes g) = 4 /\
    Forall is_Some (graph_nodes g) /\
    @has_node Examples.serialisation g
      (ComplexAbundance [protein "ENTREZ" "7157" "7157"]
         "http://rdf.wikipathways.org/WP254/complex2" "wp_complex") = true.
Proof.
  eexists. split; [vm_compute; reflexivity|].
  match goal with
  | |- length (graph_nodes ?g) = _ /\ _ =>
      destruct (@converted_graph_nodes Examples.collaborators Examples.serialisation
                  {[ "label1" := Examples.label; "tp53" := Examples.tp53;
                     "water" := Examples.water ]}
                  {[ "c2" := Examples.p53_complex ]}
                  [Examples.stimulation [("tp53", "ghost"); ("tp53", "c2")];
                   Examples.conversion [("tp53", "water")]]
                  Examples.pathway_info tt g) as (resolved & Hres & Hnodes & Hcomplexes)
  end.
  - vm_compute. reflexivity.
  - split; [reflexivity|]. split.
    + apply Forall_forall. intros n Hn. destruct (Hnodes n Hn) as (x & -> & _). by eexists.
    + destruct (Hcomplexes "c2" Examples.p53_complex eq_refl) as (x & Hx & Hhas).
      vm_compute in Hres. injection Hres as <-. vm_compute in Hx. injection Hx as <-.
      exact Hhas.
Defined.

End ConvertToBelExtras.

(** ** The universe merger, step by step *)

Module ExportUtilsExtras.
Import ExportUtils Classification Views Universe PythonFacts PybelFacts ExportUtilsFacts.

(** *** [str.endswith] *)

Lemma substring_all (s : string) : String.substring 0 (String.length s) s = s.
Proof. induction s as [|c s IH]; simpl; [done | by rewrite IH]. Qed.

Lemma substring_append (p s : string) :
  String.substring (String.length p) (String.length s) (String.append p s) = s.
Proof. induction p as [|c p IH]; simpl; [apply substring_all | exact IH]. Qed.

Lemma length_append (p s : string) :
  String.length (String.append p s) = String.length p + String.length s.
Proof. induction p as [|c p IH]; simpl; [done | by rewrite IH]. Qed.

Lemma append_substring (s : string) (m : nat) :
  m <= String.length s ->
  String.append (String.substring 0 m s) (String.substring m (String.length s - m) s) = s.
Proof.
  revert m. induction s as [|c s IH]; intros [|m] Hm; simpl in *; try lia.
  - done.
  - by rewrite substring_all.
  - change (String c (String.append (String.substring 0 m s)
                        (String.substring m (String.length s - m) s)) = String c s).
    f_equal. apply IH. lia.
Qed.

Lemma endswith_iff (s suffix : string) :
  endswith s suffix = true <-> exists prefix, s = String.append prefix suffix.
Proof.
  unfold endswith. rewrite andb_true_iff, Nat.leb_le, String.eqb_eq. split.
  - intros [Hle Hsub]. exists (String.substring 0 (String.length s - String.length suffix) s).
    pose proof (append_substring s (String.length s - String.length suffix)) as Happ.
    replace (String.length s - (String.length s - String.length suffix))
      with (String.length suffix) in Happ by lia.
    rewrite Hsub in Happ. symmetry. apply Happ. lia.
  - intros [prefix ->]. rewrite length_append. split; [lia|].
    replace (String.length prefix + String.length suffix - String.length suffix)
      with (String.length prefix) by lia.
    apply substring_append.
Qed.


(** X11: the loop of [_iterate_universe_graphs] passes over a name that is
    not some prefix followed by [.pickle] without loading anything, whatever
    listing holds it; a name of that form is loaded from the folder it is
    classified under, or passed over when no listing holds it. *)
Theorem only_pickle_names_are_loaded `{Environment}
    (kegg_path reactome_path wikipathways_path : string)
    (kegg_pickles reactome_pickles wp_pickles : list string) (flatten normalize_names : bool)
    (file : string) :
  let body := loop_body kegg_path reactome_path wikipathways_path kegg_pickles
                        reactome_pickles wp_pickles flatten normalize_names in
  ((forall prefix, file <> String.append prefix ".pickle") -> body file = Ok None) /\
  (forall prefix, file = String.append prefix ".pickle" ->
     body file =
     match folder_of kegg_path reactome_path wikipathways_path kegg_pickles reactome_pickles
                     wp_pickles file with
     | Some (path, database) =>
         graph ← load_from path database flatten normalize_names file; Ok (Some graph)
     | None => Ok None
     end).
Proof.
  simpl. split.
  - intros Hnot. unfold loop_body.
    destruct (endswith file ".pickle") eqn:Hend; [|reflexivity].
    apply endswith_iff in Hend as [prefix ->]. by destruct (Hnot prefix).
  - intros prefix Hfile. apply loop_body_classified, endswith_iff. by exists prefix.
Qed.

Lemma only_pickle_names_are_loaded_witness :
  @loop_body (Examples.environment Examples.load_all)
     "/bel/kegg" "/bel/reactome" "/bel/wikipathways"
     ["broken.pickle"; "shared.pickle"; "notes.txt"] ["shared.pickle"] ["WP254.pickle"]
     true true "notes.txt" = Ok None.
Proof.
  apply (@only_pickle_names_are_loaded (Examples.environment Examples.load_all)
           "/bel/kegg" "/bel/reactome" "/bel/wikipathways"
           ["broken.pickle"; "shared.pickle"; "notes.txt"] ["shared.pickle"]
           ["WP254.pickle"] true true "notes.txt").
  intros prefix Hfile.
  assert (endswith "notes.txt" ".pickle" = true) as Hend
    by (apply endswith_iff; by exists prefix).
  vm_compute in Hend. discriminate.
Defined.

Lemma elem_of_get_paths_in_folder `{Environment} (directory path : string) :
  path ∈ get_paths_in_folder directory <->
  path ∈ os_listdir directory /\ os_path_isfile (os_path_join directory path) = true.
Proof.
  unfold get_paths_in_folder. by rewrite !list_elem_of_In, filter_In.
Qed.

Lemma iterated_files_are_listed_files_aux `{Environment}
    (kegg_path reactome_path wikipathways_path : string) (file : string) :
  file ∈ get_paths_in_folder kegg_path ++ get_paths_in_folder reactome_path ++
         get_paths_in_folder wikipathways_path ->
  exists path database,
    folder_of kegg_path reactome_path wikipathways_path (get_paths_in_folder kegg_path)
              (get_paths_in_folder reactome_path) (get_paths_in_folder wikipathways_path)
              file = Some (path, database).
Proof.
  intros Hin. unfold folder_of.
  repeat (case_bool_decide; [by eexists _, _|]).
  apply elem_of_app in Hin as [?|Hin]; [done|]. by apply elem_of_app in Hin as [?|?].
Qed.

(** X12: every name the loop of [_iterate_universe_graphs] runs over is in
    one of the three listings, so it is classified (the branch for unknown
    files is never taken), and the folder it is classified under lists the
    name and holds a regular file of that name. *)
Theorem iterated_files_are_listed_files `{Environment}
    (kegg_path reactome_path wikipathways_path : string) (file : string) :
  let kegg_pickles := get_paths_in_folder kegg_path in
  let reactome_pickles := get_paths_in_folder reactome_path in
  let wp_pickles := get_paths_in_folder wikipathways_path in
  file ∈ kegg_pickles ++ reactome_pickles ++ wp_pickles ->
  exists path database,
    folder_of kegg_path reactome_path wikipathways_path kegg_pickles reactome_pickles
              wp_pickles file = Some (path, database) /\
    (path, database) ∈ [(kegg_path, KEGG); (reactome_path, REACTOME);
                        (wikipathways_path, WIKIPATHWAYS)] /\
    file ∈ os_listdir path /\
    os_path_isfile (os_path_join path file) = true.
Proof.
  intros kegg_pickles reactome_pickles wp_pickles Hin. unfold folder_of.
  destruct (decide (file ∈ kegg_pickles)) as [Hk|Hk].
  { rewrite bool_decide_eq_true_2 by done. exists kegg_path, KEGG.
    split; [done|]. split; [by left|]. by apply elem_of_get_paths_in_folder. }
  rewrite bool_decide_eq_false_2 by done.
  destruct (decide (file ∈ reactome_pickles)) as [Hr|Hr].
  { rewrite bool_decide_eq_true_2 by done. exists reactome_path, REACTOME.
    split; [done|]. split; [by right; left|]. by apply elem_of_get_paths_in_folder. }
  rewrite bool_decide_eq_false_2 by done.
  assert (file ∈ wp_pickles) as Hw.
  { apply elem_of_app in Hin as [?|Hin]; [done|]. by apply elem_of_app in Hin as [?|?]. }
  rewrite bool_decide_eq_true_2 by done. exists wikipathways_path, WIKIPATHWAYS.
  split; [done|]. split; [by right; right; left|]. by apply elem_of_get_paths_in_folder.
Qed.

Lemma iterated_files_are_listed_files_witness :
  @folder_of (Examples.environment Examples.load_all)
     "/bel/kegg" "/bel/reactome" "/bel/wikipathways"
     ["broken.pickle"; "shared.pickle"; "notes.txt"] ["shared.pickle"] ["WP254.pickle"]
     "WP254.pickle" = Some ("/bel/wikipathways", "wikipathways").
Proof.
  destruct (@iterated_files_are_listed_files (Examples.environment Examples.load_all)
              "/bel/kegg" "/bel/reactome" "/bel/wikipathways" "WP254.pickle")
    as (path & database & Hfolder & _).
  - decide_by_vm.
  - reflexivity.
Defined.


(** X10: [add_annotation_key] is idempotent; after it every edge has an
    annotations entry, and the nodes, the metadata and the number of edges
    are those of the graph it was given. *)
Theorem add_annotation_key_idempotent (g : BELGraph) :
  add_annotation_key (add_annotation_key g) = add_annotation_key g /\
  Forall (fun e => is_Some (edge_annotations e)) (graph_edges (add_annotation_key g)) /\
  graph_nodes (add_annotation_key g) = graph_nodes g /\
  same_metadata g (add_annotation_key g) /\
  length (graph_edges (add_annotation_key g)) = length (graph_edges g).
Proof.
  unfold add_annotation_key. simpl. split; [|split; [|split; [|split]]].
  - unfold with_edges. simpl. f_equal. rewrite <- list_fmap_compose.
    apply list_fmap_ext. intros _ e _. simpl. by destruct e as [? ? ? ? ? ? [a|]].
  - apply Forall_fmap, Forall_forall. intros e _. simpl.
    by destruct e as [? ? ? ? ? ? [a|]].
  - reflexivity.
  - by repeat split.
  - by rewrite length_fmap.
Qed.

(** The loop over any files of the listings, when every load succeeds. *)
Lemma generate_all_loaded `{Environment}
    (kegg_path reactome_path wikipathways_path : string)
    (kegg_pickles reactome_pickles wp_pickles : list string) (flatten normalize_names : bool)
    (files : list string) :
  Forall (fun file =>
            endswith file ".pickle" = true ->
            exists path database g0,
              folder_of kegg_path reactome_path wikipathways_path kegg_pickles
                        reactome_pickles wp_pickles file = Some (path, database) /\
              from_pickle (os_path_join path file) = Ok g0) files ->
  exists gs,
    generate (loop_body kegg_path reactome_path wikipathways_path kegg_pickles
                        reactome_pickles wp_pickles flatten normalize_names) files
      = (gs, Exhausted) /\
    Forall2 (fun file g =>
               exists path database,
                 folder_of kegg_path reactome_path wikipathways_path kegg_pickles
                           reactome_pickles wp_pickles file = Some (path, database) /\
                 load_from path database flatten normalize_names file = Ok g /\
                 Forall (tagged database) (graph_edges g))
            (List.filter (fun file => endswith file ".pickle") files) gs.
Proof.
  induction 1 as [|file files Hfile _ (gs & IH & Hall)]; simpl.
  - exists []. split; [reflexivity | constructor].
  - destruct (endswith file ".pickle") eqn:Hend.
    + destruct (Hfile eq_refl) as (path & database & g0 & Hfolder & Hload).
      destruct (load_from_Ok path database flatten normalize_names file g0 Hload)
        as (g & Hg & _ & Htagged & _).
      rewrite loop_body_classified by done. rewrite Hfolder, Hg. simpl. rewrite IH.
      exists (g :: gs). split; [reflexivity|]. constructor; [|done].
      by exists path, database.
    + unfold loop_body at 1. rewrite Hend. simpl. by exists gs.
Qed.

(** X13: when every listed name that ends in [.pickle] can be loaded from
    the folder it is classified under, [_iterate_universe_graphs] runs to
    its end and yields one graph for each such name, in the order of the
    KEGG, Reactome and WikiPathways listings (a name in two listings yields
    twice), each the graph loaded for that name with every edge tagged with
    the name's database. *)
Theorem one_graph_per_listed_pickle `{Environment}
    (kegg_path reactome_path wikipathways_path : string) (flatten normalize_names : bool) :
  let kegg_pickles := get_paths_in_folder kegg_path in
  let reactome_pickles := get_paths_in_folder reactome_path in
  let wp_pickles := get_paths_in_folder wikipathways_path in
  let folder := folder_of kegg_path reactome_path wikipathways_path kegg_pickles
                          reactome_pickles wp_pickles in
  (forall file path database,
     file ∈ kegg_pickles ++ reactome_pickles ++ wp_pickles ->
     endswith file ".pickle" = true ->
     folder file = Some (path, database) ->
     exists g0, from_pickle (os_path_join path file) = Ok g0) ->
  exists gs,
    _iterate_universe_graphs kegg_path reactome_path wikipathways_path flatten normalize_names
      = (gs, Exhausted) /\
    Forall2 (fun file g =>
               exists path database,
                 folder file = Some (path, database) /\
                 load_from path database flatten normalize_names file = Ok g /\
                 Forall (tagged database) (graph_edges g))
            (List.filter (fun file => endswith file ".pickle")
                         (kegg_pickles ++ reactome_pickles ++ wp_pickles)) gs.
Proof.
  intros kegg_pickles reactome_pickles wp_pickles folder Hloads.
  unfold _iterate_universe_graphs, get_all_pickles.
  apply generate_all_loaded, Forall_forall. intros file Hin Hend.
  destruct (iterated_files_are_listed_files_aux kegg_path reactome_path wikipathways_path
              file Hin) as (path & database & Hfolder).
  destruct (Hloads file path database Hin Hend Hfolder) as [g0 Hg0].
  by exists path, database, g0.
Qed.

Lemma one_graph_per_listed_pickle_witness :
  exists gs,
    @_iterate_universe_graphs (Examples.environment Examples.load_all)
       "/bel/kegg" "/bel/reactome" "/bel/wikipathways" false false = (gs, Exhausted) /\
    length gs = 4.
Proof.
  destruct (@one_graph_per_listed_pickle (Examples.environment Examples.load_all)
              "/bel/kegg" "/bel/reactome" "/bel/wikipathways" false false)
    as (gs & Hgs & Hall).
  - intros file path database _ _ _. by exists Examples.pickled.
  - exists gs. split; [exact Hgs|]. apply Forall2_length in Hall. by rewrite <- Hall.
Defined.

(** Some file of the list cannot be loaded: the generator ends with an
    exception. *)
Lemma generate_some_raise {A B : Type} (body : A -> result (option B)) (files : list A) :
  Exists (fun file => exists e, body file = Raise e) files ->
  exists gs e, generate body files = (gs, Raised e).
Proof.
  induction 1 as [file files [e He]|file files _ (gs & e & IH)]; simpl.
  - rewrite He. by exists [], e.
  - destruct (body file) as [[g|]|e']; [| by exists gs, e | by exists [], e'].
    rewrite IH. by exists (g :: gs), e.
Qed.

(** X15: when a listed name that ends in [.pickle] cannot be loaded from
    the folder it is classified under, [get_universe_graph] raises: no
    universe is returned from the files that could be loaded. *)
Theorem universe_fails_with_an_unreadable_pickle `{Environment}
    (union : list BELGraph -> result BELGraph)
    (kegg_path reactome_path wikipathways_path : string) (flatten normalize_names : bool)
    (file path database : string) (e : exn) :
  let kegg_pickles := get_paths_in_folder kegg_path in
  let reactome_pickles := get_paths_in_folder reactome_path in
  let wp_pickles := get_paths_in_folder wikipathways_path in
  file ∈ kegg_pickles ++ reactome_pickles ++ wp_pickles ->
  endswith file ".pickle" = true ->
  folder_of kegg_path reactome_path wikipathways_path kegg_pickles reactome_pickles
            wp_pickles file = Some (path, database) ->
  from_pickle (os_path_join path file) = Raise e ->
  exists e', get_universe_graph union kegg_path reactome_path wikipathways_path
                                flatten normalize_names = Raise e'.
Proof.
  intros kegg_pickles reactome_pickles wp_pickles Hin Hend Hfolder Hload.
  unfold get_universe_graph, _iterate_universe_graphs, get_all_pickles.
  fold kegg_pickles reactome_pickles wp_pickles.
  destruct (generate_some_raise
              (loop_body kegg_path reactome_path wikipathways_path kegg_pickles
                         reactome_pickles wp_pickles flatten normalize_names)
              (kegg_pickles ++ reactome_pickles ++ wp_pickles)) as (gs & e' & ->).
  - apply Exists_exists. exists file. split; [done|]. exists e.
    rewrite loop_body_classified by done. rewrite Hfolder.
    by rewrite (load_from_Raise _ _ _ _ _ e Hload).
  - by exists e'.
Qed.

Lemma universe_fails_with_an_unreadable_pickle_witness :
  exists e',
    @get_universe_graph (Examples.environment Examples.load_but_broken)
      (fun gs => Ok (default Examples.empty_graph (head gs)))
      "/bel/kegg" "/bel/reactome" "/bel/wikipathways" true true = Raise e'.
Proof.
  apply (@universe_fails_with_an_unreadable_pickle
           (Examples.environment Examples.load_but_broken)
           (fun gs => Ok (default Examples.empty_graph (head gs)))
           "/bel/kegg" "/bel/reactome" "/bel/wikipathways" true true
           "broken.pickle" "/bel/kegg" "kegg" (UnpicklingError "/bel/kegg/broken.pickle")).
  - decide_by_vm.
  - reflexivity.
  - reflexivity.
  - reflexivity.
Defined.


(** X14: a branch of the loop changes the loaded (flattened, renamed) graph
    in its annotations only: the nodes, the metadata, every declared
    annotation other than [database], and of every edge the endpoints, the
    relation, the citation, the evidence, the object modifier and the
    annotations under every other key are kept. *)
Theorem annotation_steps_keep_nodes_and_edges `{Environment} (path database : string)
    (flatten normalize_names : bool) (file : string) (g0 : BELGraph) :
  from_pickle (os_path_join path file) = Ok g0 ->
  let g1 := if flatten then flatten_complex_nodes g0 else g0 in
  let g2 := if normalize_names then normalize_graph_names g1 database else g1 in
  exists g,
    load_from path database flatten normalize_names file = Ok g /\
    graph_nodes g = graph_nodes g2 /\
    graph_name g = graph_name g2 /\ graph_version g = graph_version g2 /\
    graph_description g = graph_description g2 /\
    graph_pathway_id g = graph_pathway_id g2 /\
    graph_authors g = graph_authors g2 /\ graph_contact g = graph_contact g2 /\
    (forall key, key <> "database" -> annotation_list g !! key = annotation_list g2 !! key) /\
    Forall2 (fun e e' =>
               edge_source e' = edge_source e /\ edge_target e' = edge_target e /\
               edge_relation e' = edge_relation e /\ edge_citation e' = edge_citation e /\
               edge_evidence e' = edge_evidence e /\
               edge_object_modifier e' = edge_object_modifier e /\
               forall key, key <> "database" ->
                 default ∅ (edge_annotations e') !! key =
                 default ∅ (edge_annotations e) !! key)
            (graph_edges g2) (graph_edges g).
Proof.
  intros Hload g1 g2.
  destruct (load_from_Ok path database flatten normalize_names file g0 Hload)
    as (g & Hg & _ & _ & Hedges).
  exists g. split; [done|].
  assert (graph_nodes g = graph_nodes g2 /\
          graph_name g = graph_name g2 /\ graph_version g = graph_version g2 /\
          graph_description g = graph_description g2 /\
          graph_pathway_id g = graph_pathway_id g2 /\
          graph_authors g = graph_authors g2 /\ graph_contact g = graph_contact g2 /\
          annotation_list g =
            <["database" := {[KEGG; REACTOME; WIKIPATHWAYS]}]> (annotation_list g2)) as Hrest.
  { revert Hg. unfold load_from. rewrite Hload. simpl. fold g1. fold g2.
    unfold add_annotation_value. case_bool_decide; [|discriminate].
    intros [= <-]. by repeat split. }
  destruct Hrest as (Hn & H1 & H2 & H3 & H4 & H5 & H6 & Hal).
  repeat (split; [done|]). split.
  - intros key Hkey. rewrite Hal. by apply lookup_insert_ne.
  - eapply Forall2_impl; [exact Hedges|]. intros e e' ->. simpl.
    repeat (split; [done|]). intros key Hkey. by rewrite lookup_insert_ne.
Qed.

Lemma annotation_steps_keep_nodes_and_edges_witness :
  exists g,
    @load_from (Examples.environment Examples.load_all) "/bel/wikipathways" "wikipathways"
               false false "WP254.pickle" = Ok g /\
    graph_nodes g = graph_nodes Examples.pickled.
Proof.
  destruct (@annotation_steps_keep_nodes_and_edges (Examples.environment Examples.load_all)
              "/bel/wikipathways" "wikipathways" false false "WP254.pickle" Examples.pickled)
    as (g & Hg & Hnodes & _).
  - reflexivity.
  - exists g. split; [exact Hg | exact Hnodes].
Defined.

End ExportUtilsExtras.
